(** * NaextroNotes: the data transformations of [script.js]

    A shallow embedding of the gallery script: the date parser, the
    flattener, the combined subject/date filter, the grouped renderer and the
    statistics, followed by the properties the specification states about
    them.

    Conventions of the embedding.
    - A JavaScript string is a sequence of code units; it is modelled by
      [string], one [ascii] per code unit (so code units below 256).
    - A JavaScript Number that holds a time value is [NaN] or an integer
      number of milliseconds ([Number]); only integers and NaN arise here.
    - [null] / [undefined] results are [None]; a thrown exception is the
      [Throw] case of [completion].
    - The host environment enters through two parameters of the section
      [Host]: the local time zone adjustment and the answer of [Date.parse]
      on strings outside the date-time format handled here. *)

From Stdlib Require Import ZArith String Ascii List Lia Permutation Sorted Bool.
From stdpp Require Import gmap.
Import ListNotations.
Local Open Scope string_scope.
Local Open Scope list_scope.
Local Open Scope Z_scope.

(** ** Strings *)

Module JsString.

(** [String.prototype.split] with a one code unit separator: the pieces
    between consecutive separators, empty pieces included. *)
Fixpoint split (sep : ascii) (s : string) : list string :=
  match s with
  | EmptyString => [EmptyString]
  | String c s' =>
      if Ascii.eqb c sep then EmptyString :: split sep s'
      else match split sep s' with
           | piece :: pieces => String c piece :: pieces
           | [] => [String c EmptyString]
           end
  end.

Fixpoint repeat_unit (c : ascii) (n : nat) : string :=
  match n with
  | O => EmptyString
  | S n' => String c (repeat_unit c n')
  end.

(** [String.prototype.padStart] with a one code unit filler. *)
Definition padStart (targetLength : nat) (fill : ascii) (s : string) : string :=
  String.append (repeat_unit fill (targetLength - String.length s)) s.

(** Number of occurrences of a code unit. *)
Fixpoint count (c : ascii) (s : string) : nat :=
  match s with
  | EmptyString => O
  | String c' s' => if Ascii.eqb c' c then S (count c s') else count c s'
  end.

(** JavaScript truthiness of a string: only the empty string is falsy. *)
Definition truthy (s : string) : bool :=
  match s with EmptyString => false | String _ _ => true end.

End JsString.

(** ** Decimal digits *)

Definition is_digit (c : ascii) : bool :=
  let n := N_of_ascii c in (48 <=? n)%N && (n <=? 57)%N.

Definition digit (c : ascii) : option Z :=
  if is_digit c then Some (Z.of_N (N_of_ascii c) - 48) else None.

Definition digit_char (k : Z) : ascii := ascii_of_N (48 + Z.to_N k).

(** The value of a string of decimal digits, most significant first. *)
Fixpoint decimal_from (acc : Z) (s : string) : option Z :=
  match s with
  | EmptyString => Some acc
  | String c s' =>
      match digit c with
      | Some k => decimal_from (10 * acc + k) s'
      | None => None
      end
  end.

Definition decimal (s : string) : option Z :=
  match s with
  | EmptyString => None
  | _ => decimal_from 0 s
  end.

(** The two-digit rendering of a number below 100. *)
Definition two_digits (n : Z) : string :=
  String (digit_char (n / 10)) (String (digit_char (n mod 10)) EmptyString).

(** ** Time values (ECMAScript, "Date Objects") *)

Inductive Number : Type :=
| NaN
| Num (z : Z).

Definition msPerDay : Z := 86400000.
Definition msPerHour : Z := 3600000.
Definition msPerMinute : Z := 60000.
Definition msPerSecond : Z := 1000.

Definition DayFromYear (y : Z) : Z :=
  365 * (y - 1970) + (y - 1969) / 4 - (y - 1901) / 100 + (y - 1601) / 400.

Definition InLeapYear (y : Z) : bool :=
  ((y mod 4 =? 0) && negb (y mod 100 =? 0)) || (y mod 400 =? 0).

(** Days of month [m] (0 = January) in year [y]. *)
Definition DaysInMonth (y m : Z) : Z :=
  match m with
  | 1 => if InLeapYear y then 29 else 28
  | 3 | 5 | 8 | 10 => 30
  | _ => 31
  end.

(** Day number, within its year, of the first day of month [m]. *)
Fixpoint DayWithinYear (y : Z) (m : nat) : Z :=
  match m with
  | O => 0
  | S m' => DayWithinYear y m' + DaysInMonth y (Z.of_nat m')
  end.

(** [MakeDay (year, month, date)] with the month counted from 0. *)
Definition MakeDay (year month date : Z) : Z :=
  let ym := year + month / 12 in
  let mn := month mod 12 in
  DayFromYear ym + DayWithinYear ym (Z.to_nat mn) + date - 1.

Definition MakeTime (hour min sec ms : Z) : Z :=
  hour * msPerHour + min * msPerMinute + sec * msPerSecond + ms.

Definition MakeDate (day time : Z) : Z := day * msPerDay + time.

(** The local midnight that starts day [d] of month [m] (1 = January) of
    year [y]. *)
Definition local_midnight (y m d : Z) : Z := MakeDate (MakeDay y (m - 1) d) 0.

Definition TimeClip (t : Z) : Number :=
  if 8640000000000000 <? Z.abs t then NaN else Num t.

(** The fields of a string in the form [YYYY-MM-DDTHH:mm:ss], the date-time
    form without offset of the "Date Time String Format"; out-of-range fields
    make the string no instance of the format. *)
Record DateTimeFields : Type := mkFields {
  f_year : Z; f_month : Z; f_day : Z; f_hour : Z; f_minute : Z; f_second : Z
}.

Definition num2 (a b : ascii) : option Z :=
  match digit a, digit b with
  | Some x, Some y => Some (10 * x + y)
  | _, _ => None
  end.

Definition num4 (a b c d : ascii) : option Z :=
  match num2 a b, num2 c d with
  | Some x, Some y => Some (100 * x + y)
  | _, _ => None
  end.

Definition fields_in_range (f : DateTimeFields) : bool :=
  (1 <=? f_month f) && (f_month f <=? 12) &&
  (1 <=? f_day f) && (f_day f <=? DaysInMonth (f_year f) (f_month f - 1)) &&
  (f_hour f <=? 23) && (f_minute f <=? 59) && (f_second f <=? 59).

Definition parseLocalDateTime (s : string) : option DateTimeFields :=
  match list_ascii_of_string s with
  | [y1; y2; y3; y4; c1; m1; m2; c2; d1; d2; c3; h1; h2; c4; n1; n2; c5; s1; s2] =>
      if Ascii.eqb c1 "-" && Ascii.eqb c2 "-" && Ascii.eqb c3 "T"
         && Ascii.eqb c4 ":" && Ascii.eqb c5 ":"
      then
        match num4 y1 y2 y3 y4, num2 m1 m2, num2 d1 d2,
              num2 h1 h2, num2 n1 n2, num2 s1 s2 with
        | Some y, Some m, Some d, Some h, Some n, Some sec =>
            let f := mkFields y m d h n sec in
            if fields_in_range f then Some f else None
        | _, _, _, _, _, _ => None
        end
      else None
  | _ => None
  end.

Section Host.

(** [LocalTZA t]: the offset of local time from UTC, in milliseconds, at
    the local time [t] (the specification's [LocalTZA(t, false)]). *)
Variable LocalTZA : Z -> Z.

(** [Date.parse] on every string that is not an in-range
    [YYYY-MM-DDTHH:mm:ss]: the other forms of the format and whatever the
    implementation falls back to. *)
Variable hostDateParse : string -> Number.

Definition UTC (t : Z) : Z := t - LocalTZA t.

(** [new Date(s).getTime()]. A date-time form without offset is local
    time. *)
Definition Date_getTime (s : string) : Number :=
  match parseLocalDateTime s with
  | Some f =>
      TimeClip (UTC (MakeDate (MakeDay (f_year f) (f_month f - 1) (f_day f))
                              (MakeTime (f_hour f) (f_minute f) (f_second f) 0)))
  | None =>
      match hostDateParse s with
      | NaN => NaN
      | Num t => TimeClip t
      end
  end.

(** *** [parseDDMMYYYY] *)

Record ParsedDate : Type := mkParsed {
  iso : string;
  ts : Number;
  raw : string
}.

Definition parseDDMMYYYY (ddmmyyyy : string) : option ParsedDate :=
  match JsString.split "-" ddmmyyyy with
  | [dd; mm; yyyy] =>
      let dd := JsString.padStart 2 "0" dd in
      let mm := JsString.padStart 2 "0" mm in
      let iso := String.append yyyy (String "-" (String.append mm (String "-" dd))) in
      let ts := Date_getTime (String.append iso "T00:00:00") in
      Some (mkParsed iso ts ddmmyyyy)
  | _ => None
  end.

End Host.

(** ** Data model *)

Record SubjectGroup : Type := mkSubjectGroup {
  subject : string;
  images : list string
}.

Record DateGroup : Type := mkDateGroup {
  date : string;
  subjects : list SubjectGroup
}.

Definition NoteCollection : Type := list DateGroup.

Record FlatRecord : Type := mkFlat {
  flat_date : string;
  flat_subject : string;
  flat_path : string
}.

(** [Array.prototype.forEach] with a callback that updates local state. *)
Definition forEach {A S : Type} (l : list A) (body : A -> S -> S) (s : S) : S :=
  fold_left (fun acc x => body x acc) l s.

(** [Array.prototype.push]. *)
Definition push {A : Type} (x : A) (arr : list A) : list A := arr ++ [x].

(** ** Flattener *)

Definition getFlattenedImages (data : NoteCollection) : list FlatRecord :=
  forEach data (fun d =>
    forEach (subjects d) (fun s =>
      forEach (images s) (fun p =>
        push (mkFlat (date d) (subject s) p)))) [].

(** Number of images held by a collection. *)
Definition subject_image_count (s : SubjectGroup) : nat := length (images s).

Definition date_image_count (d : DateGroup) : nat :=
  list_sum (map subject_image_count (subjects d)).

Definition image_count (data : NoteCollection) : nat :=
  list_sum (map date_image_count data).

(** ** Filter engine *)

(** The two toggles of [filterState] and the values of the four selects. *)
Record FilterState : Type := mkFilterState {
  filterState_subject : bool;
  filterState_date : bool;
  subject_filter : string;
  day_filter : string;
  month_filter : string;
  year_filter : string
}.

Record DateFilters : Type := mkDateFilters {
  day : string;
  month : string;
  year : string
}.

Definition getSelectedSubject (st : FilterState) : option string :=
  if negb (filterState_subject st) then None
  else if JsString.truthy (subject_filter st) then Some (subject_filter st)
  else None.

Definition getSelectedDateFilters (st : FilterState) : option DateFilters :=
  if negb (filterState_date st) then None
  else
    let day := day_filter st in
    let month := month_filter st in
    let year := year_filter st in
    if negb (JsString.truthy day) && negb (JsString.truthy month)
       && negb (JsString.truthy year)
    then None
    else Some (mkDateFilters day month year).

(** [x === y] where [x] comes out of an array destructuring and may be
    [undefined]. *)
Definition strict_eq (x : option string) (y : string) : bool :=
  match x with
  | Some s => String.eqb s y
  | None => false
  end.

(** The body of the callback of the date [filter], on [dItem.date]. *)
Definition matches_date (dateFilters : DateFilters) (date' : string) : bool :=
  let parts := JsString.split "-" date' in
  let day' := nth_error parts 0 in
  let month' := nth_error parts 1 in
  let year' := nth_error parts 2 in
  let matchesDay :=
    negb (JsString.truthy (day dateFilters)) || strict_eq day' (day dateFilters) in
  let matchesMonth :=
    negb (JsString.truthy (month dateFilters)) || strict_eq month' (month dateFilters) in
  let matchesYear :=
    negb (JsString.truthy (year dateFilters)) || strict_eq year' (year dateFilters) in
  matchesDay && matchesMonth && matchesYear.

(** The callback of the date [filter]. *)
Definition date_matches (dateFilters : DateFilters) (dItem : DateGroup) : bool :=
  matches_date dateFilters (date dItem).

(** "Apply date filtering first". *)
Definition dateStage (st : FilterState) (filteredData : NoteCollection) : NoteCollection :=
  match filterState_date st, getSelectedDateFilters st with
  | true, Some dateFilters => List.filter (date_matches dateFilters) filteredData
  | _, _ => filteredData
  end.

(** The callback of the subject [map]: [{ ...dItem, subjects: filteredSubjects }]. *)
Definition keep_subject (subject' : string) (dItem : DateGroup) : DateGroup :=
  let filteredSubjects :=
    List.filter (fun s => String.eqb (subject s) subject') (subjects dItem) in
  mkDateGroup (date dItem) filteredSubjects.

(** [dItem => dItem.subjects.length > 0] *)
Definition has_subjects (dItem : DateGroup) : bool :=
  (0 <? length (subjects dItem))%nat.

(** "Apply subject filtering". *)
Definition subjectStage (st : FilterState) (filteredData : NoteCollection) : NoteCollection :=
  match filterState_subject st, getSelectedSubject st with
  | true, Some subject' =>
      List.filter has_subjects (map (keep_subject subject') filteredData)
  | _, _ => filteredData
  end.

(** The collection [applyCombinedFilter] hands to the renderer. *)
Definition applyCombinedFilter (st : FilterState) (galleryData : NoteCollection)
  : NoteCollection :=
  let filteredData := galleryData in
  let filteredData := dateStage st filteredData in
  let filteredData := subjectStage st filteredData in
  filteredData.

(** ** Completions and [Array.prototype.sort] *)

Inductive Exception : Type :=
| TypeError.

Inductive completion (A : Type) : Type :=
| Normal (a : A)
| Throw (e : Exception).
Arguments Normal {A} a.
Arguments Throw {A} e.

Definition bind {A B : Type} (c : completion A) (k : A -> completion B)
  : completion B :=
  match c with
  | Normal a => k a
  | Throw e => Throw e
  end.

Notation "'let*' x ':=' c 'in' k" := (bind c (fun x => k))
  (at level 10, x name, c at level 200, k at level 200).

(** Reading [.ts] off the result of [parseDDMMYYYY]: a [TypeError] on
    [null]. *)
Definition get_ts (o : option ParsedDate) : completion Number :=
  match o with
  | Some p => Normal (ts p)
  | None => Throw TypeError
  end.

(** [x - y] on time values. Time values are integers of magnitude at most
    8.64e15, so the double subtraction has the sign of the exact
    difference, and the sign is all a sort observes. *)
Definition Number_sub (x y : Number) : Number :=
  match x, y with
  | Num a, Num b => Num (a - b)
  | _, _ => NaN
  end.

Section Sort.

Context {A : Type}.
Variable comparefn : A -> A -> completion Number.

(** [SortCompare]: a NaN from the comparator counts as [+0]. *)
Definition SortCompare (x y : A) : completion Z :=
  let* v := comparefn x y in
  Normal (match v with NaN => 0 | Num z => z end).

(** One step of a straight insertion sort; [sorted_rev] is the sorted
    prefix, last element first. *)
Fixpoint insert_from_right (x : A) (sorted_rev : list A) : completion (list A) :=
  match sorted_rev with
  | [] => Normal [x]
  | y :: rest =>
      let* v := SortCompare y x in
      if 0 <? v
      then (let* r := insert_from_right x rest in Normal (y :: r))
      else Normal (x :: y :: rest)
  end.

Fixpoint sort_loop (todo sorted_rev : list A) : completion (list A) :=
  match todo with
  | [] => Normal (rev sorted_rev)
  | x :: todo' =>
      let* sorted_rev' := insert_from_right x sorted_rev in
      sort_loop todo' sorted_rev'
  end.

(** [Array.prototype.sort (comparefn)]. The order in which a sort calls
    its comparator is left to the implementation; the sort is stable, so
    with a consistent comparator every implementation returns the array
    of this straight insertion sort. *)
Definition Array_sort (l : list A) : completion (list A) := sort_loop l [].

End Sort.

(** ** Grouped renderer *)

(** What [renderGroupedImages] puts into its container. *)
Record ImageCard : Type := mkCard {
  card_path : string;
  card_subject : string;
  card_date : string
}.

Record SubjectSection : Type := mkSubjectSection {
  subject_heading : string;
  image_grid : list ImageCard
}.

Record DateSection : Type := mkDateSection {
  date_heading : string;
  subject_sections : list SubjectSection
}.

Record Enriched : Type := mkEnriched {
  e_raw : string;
  dateObj : option ParsedDate;
  e_subjects : list SubjectGroup
}.

Definition render_subject (dItem : Enriched) (s : SubjectGroup) : SubjectSection :=
  mkSubjectSection (subject s)
    (forEach (images s) (fun p => push (mkCard p (subject s) (e_raw dItem))) []).

Definition render_date (dItem : Enriched) : DateSection :=
  mkDateSection (e_raw dItem)
    (forEach (e_subjects dItem) (fun s => push (render_subject dItem s)) []).

Definition is_parsed (x : Enriched) : bool :=
  match dateObj x with Some _ => true | None => false end.

(** The key by which [newest_first] compares two enriched entries whose
    timestamps are numbers. *)
Definition enriched_key (e : Enriched) : Z :=
  match dateObj e with
  | Some p => match ts p with Num z => z | NaN => 0 end
  | None => 0
  end.

Definition enriched_keyed (e : Enriched) : Prop :=
  exists p z, dateObj e = Some p /\ ts p = Num z.

(** [(a, b) => b.dateObj.ts - a.dateObj.ts] *)
Definition newest_first (a b : Enriched) : completion Number :=
  let* tb := get_ts (dateObj b) in
  let* ta := get_ts (dateObj a) in
  Normal (Number_sub tb ta).

Section HostPrograms.

Variable LocalTZA : Z -> Z.
Variable hostDateParse : string -> Number.

Definition enrich (d : DateGroup) : Enriched :=
  mkEnriched (date d) (parseDDMMYYYY LocalTZA hostDateParse (date d)) (subjects d).

Definition renderGroupedImages (data : NoteCollection) : completion (list DateSection) :=
  let enriched := List.filter is_parsed (map enrich data) in
  let* enriched := Array_sort newest_first enriched in
  Normal (forEach enriched (fun dItem => push (render_date dItem)) []).

(** ** Statistics *)

(** [new Set (l)], as the array of its elements in insertion order. *)
Definition Set_add (x : string) (s : list string) : list string :=
  if existsb (String.eqb x) s then s else s ++ [x].

Definition Set_from (l : list string) : list string :=
  fold_left (fun s x => Set_add x s) l [].

(** [(a, b) => parseDDMMYYYY(a).ts - parseDDMMYYYY(b).ts] *)
Definition oldest_first (a b : string) : completion Number :=
  let dateA := parseDDMMYYYY LocalTZA hostDateParse a in
  let dateB := parseDDMMYYYY LocalTZA hostDateParse b in
  let* ta := get_ts dateA in
  let* tb := get_ts dateB in
  Normal (Number_sub ta tb).

(** [x || 'N/A'] for an array element that may be missing. *)
Definition or_NA (x : option string) : string :=
  match x with
  | Some s => if JsString.truthy s then s else "N/A"
  | None => "N/A"
  end.

(** The counts and the date range of [calculateStats]; the per-subject
    breakdown, computed after them, is left out. *)
Record Stats : Type := mkStats {
  totalImages : nat;
  uniqueSubjects : nat;
  uniqueDates : nat;
  oldestDate : string;
  newestDate : string
}.

Definition calculateStats (flattenedImages : list FlatRecord) : completion Stats :=
  let totalImages := length flattenedImages in
  let uniqueSubjects := length (Set_from (map flat_subject flattenedImages)) in
  let uniqueDates := length (Set_from (map flat_date flattenedImages)) in
  let dates := Set_from (map flat_date flattenedImages) in
  let* sortedDates := Array_sort oldest_first dates in
  let oldestDate := or_NA (nth_error sortedDates 0) in
  let newestDate := or_NA (nth_error sortedDates (length sortedDates - 1)) in
  Normal (mkStats totalImages uniqueSubjects uniqueDates oldestDate newestDate).

End HostPrograms.

(** ** Hosts and data to run the programs on *)

(** A host whose local time is a fixed number of minutes ahead of UTC. *)
Definition fixedOffset (minutes : Z) : Z -> Z := fun _ => minutes * msPerMinute.

(** A host whose [Date.parse] answers NaN outside the date-time format. *)
Definition strictParse : string -> Number := fun _ => NaN.

(** The sample data embedded in [fetchData]. *)
Definition sampleData : NoteCollection :=
  [ mkDateGroup "21-12-2009"
      [ mkSubjectGroup "Physics"
          ["images/21-12-2009/phy1.jpg"; "images/21-12-2009/phy2.jpg"];
        mkSubjectGroup "Chemistry"
          ["images/21-12-2009/chem1.jpg"; "images/21-12-2009/chem2.jpg"] ];
    mkDateGroup "10-01-2010"
      [ mkSubjectGroup "Biology"
          ["images/10-01-2010/bio1.jpg"; "images/10-01-2010/bio2.jpg";
           "images/10-01-2010/bio3.jpg"];
        mkSubjectGroup "Physics" ["images/10-01-2010/phy3.jpg"] ] ].

(** The sample data with the first date written with slashes. *)
Definition slashedData : NoteCollection :=
  [ mkDateGroup "21/12/2009"
      [ mkSubjectGroup "Physics" ["images/21-12-2009/phy1.jpg"] ];
    mkDateGroup "10-01-2010"
      [ mkSubjectGroup "Biology" ["images/10-01-2010/bio1.jpg"] ] ].

(** Three dates, the second with month 13. *)
Definition thirteenthMonth : NoteCollection :=
  [ mkDateGroup "01-01-2020" [];
    mkDateGroup "01-13-2021" [];
    mkDateGroup "15-06-2021" [] ].

(** The two groups of the specification's filter scenarios. *)
Definition scenario : NoteCollection :=
  [ mkDateGroup "10-10-2025" [ mkSubjectGroup "Chemistry" ["a.jpg"] ];
    mkDateGroup "11-10-2025" [ mkSubjectGroup "Physics" ["b.jpg"; "c.jpg"] ] ].

(** ** The store

    The arrays and objects of the script live in a store; a variable holds
    a reference. [slice], [filter], [map] and the object spread allocate;
    [sort] writes the array it is called on. *)

Definition loc : Type := positive.

Inductive object : Type :=
| ImageArray (paths : list string)
| RefArray (elems : list loc)
| SubjectGroupObj (subject' : string) (images' : loc)
| DateGroupObj (date' : string) (subjects' : loc)
| EnrichedObj (raw' : string) (dateObj' : option ParsedDate) (subjects' : loc).

Abbreviation heap := (gmap loc object).

Module Store.

(** Computations on the store that may throw. *)
Definition M (A : Type) : Type := heap -> completion (A * heap).

Definition ret {A : Type} (a : A) : M A := fun h => Normal (a, h).

Definition bindM {A B : Type} (m : M A) (k : A -> M B) : M B :=
  fun h => match m h with
           | Normal (a, h') => k a h'
           | Throw e => Throw e
           end.

Definition throw {A : Type} (e : Exception) : M A := fun _ => Throw e.

Definition lift {A : Type} (c : completion A) : M A :=
  fun h => match c with
           | Normal a => Normal (a, h)
           | Throw e => Throw e
           end.

(** The value of a computation that only reads the store. *)
Definition eval {A : Type} (m : M A) (h : heap) : completion A :=
  match m h with
  | Normal (a, _) => Normal a
  | Throw e => Throw e
  end.

Definition alloc (o : object) : M loc :=
  fun h => let l := fresh (dom h) in Normal (l, <[l := o]> h).

Definition load (l : loc) : M object :=
  fun h => match h !! l with
           | Some o => Normal (o, h)
           | None => Throw TypeError
           end.

Definition store (l : loc) (o : object) : M unit :=
  fun h => Normal (tt, <[l := o]> h).

End Store.

Notation "'let+' x ':=' c 'in' k" := (Store.bindM c (fun x => k))
  (at level 10, x name, c at level 200, k at level 200).
Notation "'let+' ' p ':=' c 'in' k" := (Store.bindM c (fun p => k))
  (at level 10, p strict pattern, c at level 200, k at level 200).

Module StoreOps.
Import Store.

Definition loadRefs (l : loc) : M (list loc) :=
  let+ o := load l in
  match o with RefArray ls => ret ls | _ => throw TypeError end.

Definition loadImages (l : loc) : M (list string) :=
  let+ o := load l in
  match o with ImageArray ps => ret ps | _ => throw TypeError end.

Definition loadSubjectGroup (l : loc) : M (string * loc) :=
  let+ o := load l in
  match o with SubjectGroupObj s i => ret (s, i) | _ => throw TypeError end.

Definition loadDateGroup (l : loc) : M (string * loc) :=
  let+ o := load l in
  match o with DateGroupObj d s => ret (d, s) | _ => throw TypeError end.

Definition loadEnriched (l : loc) : M (string * option ParsedDate * loc) :=
  let+ o := load l in
  match o with EnrichedObj r d s => ret (r, d, s) | _ => throw TypeError end.

(** [Array.prototype.map]: the results of the callback, left to right. *)
Fixpoint mapM {A B : Type} (f : A -> M B) (l : list A) : M (list B) :=
  match l with
  | [] => ret []
  | x :: l' => let+ y := f x in let+ ys := mapM f l' in ret (y :: ys)
  end.

(** [Array.prototype.filter]: the elements the callback accepts. *)
Fixpoint filterM {A : Type} (p : A -> M bool) (l : list A) : M (list A) :=
  match l with
  | [] => ret []
  | x :: l' =>
      let+ b := p x in
      let+ xs := filterM p l' in
      ret (if b then x :: xs else xs)
  end.

(** [arr.slice ()] *)
Definition Array_slice (arr : loc) : M loc :=
  let+ elems := loadRefs arr in
  alloc (RefArray elems).

(** [arr.map (callback)] *)
Definition Array_map (callback : loc -> M loc) (arr : loc) : M loc :=
  let+ elems := loadRefs arr in
  let+ results := mapM callback elems in
  alloc (RefArray results).

(** [arr.filter (callback)] *)
Definition Array_filter (callback : loc -> M bool) (arr : loc) : M loc :=
  let+ elems := loadRefs arr in
  let+ kept := filterM callback elems in
  alloc (RefArray kept).

(** [arr.sort (comparefn)]: the array at [arr] is overwritten with its
    sorted elements. The comparator reads the store and does not change
    it. *)
Definition Array_sort_in_place (comparefn : loc -> loc -> M Number) (arr : loc)
  : M unit :=
  let+ elems := loadRefs arr in
  let+ sorted :=
    (fun h => lift (Array_sort (fun a b => eval (comparefn a b) h) elems) h) in
  store arr (RefArray sorted).

(** [(a, b) => b.dateObj.ts - a.dateObj.ts] on references. *)
Definition newest_first_ref (a b : loc) : M Number :=
  let+ '(_, dateObj_b, _) := loadEnriched b in
  let+ tb := lift (get_ts dateObj_b) in
  let+ '(_, dateObj_a, _) := loadEnriched a in
  let+ ta := lift (get_ts dateObj_a) in
  ret (Number_sub tb ta).

Definition render_subject_ref (raw' : string) (s : loc) : M SubjectSection :=
  let+ '(subject', images') := loadSubjectGroup s in
  let+ paths := loadImages images' in
  ret (mkSubjectSection subject'
         (forEach paths (fun p => push (mkCard p subject' raw')) [])).

Definition render_date_ref (dItem : loc) : M DateSection :=
  let+ '(raw', _, subjects') := loadEnriched dItem in
  let+ subjectRefs := loadRefs subjects' in
  let+ sections := mapM (render_subject_ref raw') subjectRefs in
  ret (mkDateSection raw' sections).

(** The callbacks of the two stages of the filter. *)
Definition date_matches_ref (dateFilters : DateFilters) (dItem : loc) : M bool :=
  let+ '(date', _) := loadDateGroup dItem in
  ret (matches_date dateFilters date').

Definition subject_is_ref (subject' : string) (s : loc) : M bool :=
  let+ '(name, _) := loadSubjectGroup s in
  ret (String.eqb name subject').

Definition keep_subject_ref (subject' : string) (dItem : loc) : M loc :=
  let+ '(date', subjects') := loadDateGroup dItem in
  let+ filteredSubjects := Array_filter (subject_is_ref subject') subjects' in
  alloc (DateGroupObj date' filteredSubjects).

Definition has_subjects_ref (dItem : loc) : M bool :=
  let+ '(_, subjects') := loadDateGroup dItem in
  let+ subjectRefs := loadRefs subjects' in
  ret (0 <? length subjectRefs)%nat.

Definition is_parsed_ref (x : loc) : M bool :=
  let+ '(_, dateObj', _) := loadEnriched x in
  ret (match dateObj' with Some _ => true | None => false end).

Section Programs.

Variable LocalTZA : Z -> Z.
Variable hostDateParse : string -> Number.

Definition enrich_ref (d : loc) : M loc :=
  let+ '(date', subjects') := loadDateGroup d in
  alloc (EnrichedObj date' (parseDDMMYYYY LocalTZA hostDateParse date') subjects').

(** [renderGroupedImages], on the reference [data]. *)
Definition renderGroupedImages (data : loc) : M (list DateSection) :=
  let+ mapped := Array_map enrich_ref data in
  let+ enriched := Array_filter is_parsed_ref mapped in
  let+ _ := Array_sort_in_place newest_first_ref enriched in
  let+ sorted := loadRefs enriched in
  mapM render_date_ref sorted.

(** The date stage, on the reference [filteredData]. *)
Definition dateStage (st : FilterState) (filteredData : loc) : M loc :=
  match filterState_date st, getSelectedDateFilters st with
  | true, Some dateFilters =>
      Array_filter (date_matches_ref dateFilters) filteredData
  | _, _ => ret filteredData
  end.

(** The subject stage, on the reference [filteredData]. *)
Definition subjectStage (st : FilterState) (filteredData : loc) : M loc :=
  match filterState_subject st, getSelectedSubject st with
  | true, Some subject' =>
      let+ mapped := Array_map (keep_subject_ref subject') filteredData in
      Array_filter has_subjects_ref mapped
  | _, _ => ret filteredData
  end.

(** [applyCombinedFilter], on the reference held by [galleryData]: the
    reference to the filtered collection and what the renderer shows. *)
Definition applyCombinedFilter (st : FilterState) (galleryData : loc)
  : M (loc * list DateSection) :=
  let+ filteredData := Array_slice galleryData in
  let+ filteredData := dateStage st filteredData in
  let+ filteredData := subjectStage st filteredData in
  let+ shown := renderGroupedImages filteredData in
  ret (filteredData, shown).

End Programs.

End StoreOps.

(** *** The collection a reference stands for *)

Definition is_images (h : heap) (l : loc) (paths : list string) : Prop :=
  h !! l = Some (ImageArray paths).

Definition is_subject (h : heap) (l : loc) (s : SubjectGroup) : Prop :=
  exists il, h !! l = Some (SubjectGroupObj (subject s) il) /\
             is_images h il (images s).

Definition is_subjects (h : heap) (l : loc) (ss : list SubjectGroup) : Prop :=
  exists ls, h !! l = Some (RefArray ls) /\ Forall2 (is_subject h) ls ss.

Definition is_date (h : heap) (l : loc) (d : DateGroup) : Prop :=
  exists sl, h !! l = Some (DateGroupObj (date d) sl) /\
             is_subjects h sl (subjects d).

Definition is_collection (h : heap) (l : loc) (data : NoteCollection) : Prop :=
  exists ls, h !! l = Some (RefArray ls) /\ Forall2 (is_date h) ls data.

Definition is_enriched (h : heap) (l : loc) (e : Enriched) : Prop :=
  exists sl, h !! l = Some (EnrichedObj (e_raw e) (dateObj e) sl) /\
             is_subjects h sl (e_subjects e).

(** Every object of [h] is in [h'], unchanged. *)
Definition preserved (h h' : heap) : Prop :=
  forall l o, h !! l = Some o -> h' !! l = Some o.

(** *** Building a collection in the store, as loading the data does *)

Definition new_subject (s : SubjectGroup) : Store.M loc :=
  let+ il := Store.alloc (ImageArray (images s)) in
  Store.alloc (SubjectGroupObj (subject s) il).

Definition new_date (d : DateGroup) : Store.M loc :=
  let+ ls := StoreOps.mapM new_subject (subjects d) in
  let+ sl := Store.alloc (RefArray ls) in
  Store.alloc (DateGroupObj (date d) sl).

Definition new_collection (data : NoteCollection) : Store.M loc :=
  let+ ls := StoreOps.mapM new_date data in
  Store.alloc (RefArray ls).

(** A store holding one date group with one subject and one image; the
    collection is at reference 5. *)
Definition smallStore : heap :=
  list_to_map
    [ (1%positive, ImageArray ["images/21-12-2009/phy1.jpg"]);
      (2%positive, SubjectGroupObj "Physics" 1%positive);
      (3%positive, RefArray [2%positive]);
      (4%positive, DateGroupObj "21-12-2009" 3%positive);
      (5%positive, RefArray [4%positive]) ].

Definition smallData : NoteCollection :=
  [ mkDateGroup "21-12-2009"
      [ mkSubjectGroup "Physics" ["images/21-12-2009/phy1.jpg"] ] ].

(** ** Reading the rendered view *)

Section RenderedView.

Variable LocalTZA : Z -> Z.
Variable hostDateParse : string -> Number.

(** The section rendered for a date group. *)
Definition render_group (d : DateGroup) : DateSection :=
  render_date (enrich LocalTZA hostDateParse d).

(** A date is parseable when [parseDDMMYYYY] does not answer [null]. *)
Definition parseable (s : string) : bool :=
  match parseDDMMYYYY LocalTZA hostDateParse s with
  | Some _ => true
  | None => false
  end.

(** The timestamp of a date, when it is a number. *)
Definition stamp (s : string) : option Z :=
  match parseDDMMYYYY LocalTZA hostDateParse s with
  | Some p => match ts p with Num z => Some z | NaN => None end
  | None => None
  end.

(** Section [a] may stand above section [b]: [b] is not newer than [a]. *)
Definition not_older (a b : DateSection) : Prop :=
  match stamp (date_heading a), stamp (date_heading b) with
  | Some ta, Some tb => tb <= ta
  | _, _ => True
  end.

(** Newest first: no section stands above a newer one. *)
Definition newest_first_order (out : list DateSection) : Prop :=
  StronglySorted not_older out.

(** Every date that parses has a number for timestamp. *)
Definition stamps_are_numbers (data : NoteCollection) : Prop :=
  forall d p, In d data ->
    parseDDMMYYYY LocalTZA hostDateParse (date d) = Some p -> ts p <> NaN.

End RenderedView.

(** ** The specification's wording of the filter stages *)

(** The three selects with the index of the component they constrain. *)
Definition selected_fields (st : FilterState) : list (string * nat) :=
  [(day_filter st, 0%nat); (month_filter st, 1%nat); (year_filter st, 2%nat)].

(** Every selected (non-empty) field is, as a string, the component of the
    split date at its index. *)
Definition selected_fields_match (st : FilterState) (d : DateGroup) : bool :=
  forallb (fun '(sel, i) =>
             String.eqb sel "" ||
             match nth_error (JsString.split "-" (date d)) i with
             | Some part => String.eqb part sel
             | None => false
             end)
          (selected_fields st).

Definition some_field_selected (st : FilterState) : Prop :=
  day_filter st <> "" \/ month_filter st <> "" \/ year_filter st <> "".

Definition no_field_selected (st : FilterState) : Prop :=
  day_filter st = "" /\ month_filter st = "" /\ year_filter st = "".

(** The filter state with the date toggle switched off. *)
Definition date_disabled (st : FilterState) : FilterState :=
  mkFilterState (filterState_subject st) false (subject_filter st)
                (day_filter st) (month_filter st) (year_filter st).

Definition has_subject (sel : string) (d : DateGroup) : bool :=
  existsb (fun s => String.eqb (subject s) sel) (subjects d).

Definition only_subject (sel : string) (d : DateGroup) : DateGroup :=
  mkDateGroup (date d) (List.filter (fun s => String.eqb (subject s) sel) (subjects d)).

(** The records of a collection, dates first, then subjects, then images. *)
Definition records_in_order (data : NoteCollection) : list FlatRecord :=
  flat_map (fun d =>
    flat_map (fun s =>
      map (fun p => mkFlat (date d) (subject s) p) (images s))
      (subjects d))
    data.

(** ** Further functions of the script *)

(** *** [toDDMMYYYYFromISO] *)

Definition toDDMMYYYYFromISO (iso' : string) : option string :=
  if negb (JsString.truthy iso') then None
  else
    match JsString.split "-" iso' with
    | [p0; p1; p2] => Some (p2 ++ "-" ++ p1 ++ "-" ++ p0)%string
    | _ => None
    end.

(** *** [parseInt] and [getMonthName] *)

(** The white space and line terminator code units below 256. *)
Definition is_white_space (c : ascii) : bool :=
  let n := N_of_ascii c in
  ((9 <=? n) && (n <=? 13))%N || (n =? 32)%N || (n =? 160)%N.

Fixpoint trim_start (s : string) : string :=
  match s with
  | EmptyString => EmptyString
  | String c s' => if is_white_space c then trim_start s' else s
  end.

(** The value of a code unit as a digit of the given radix. *)
Definition radix_digit (radix : Z) (c : ascii) : option Z :=
  let n := Z.of_N (N_of_ascii c) in
  let v :=
    if (48 <=? n) && (n <=? 57) then Some (n - 48)
    else if (97 <=? n) && (n <=? 122) then Some (n - 87)
    else if (65 <=? n) && (n <=? 90) then Some (n - 55)
    else None in
  match v with
  | Some k => if k <? radix then Some k else None
  | None => None
  end.

(** The value of the longest prefix of digits; [acc] is [None] until a
    digit has been read. *)
Fixpoint digits_value (radix : Z) (acc : option Z) (s : string) : option Z :=
  match s with
  | EmptyString => acc
  | String c s' =>
      match radix_digit radix c with
      | Some k =>
          digits_value radix
            (Some (radix * match acc with Some a => a | None => 0 end + k)) s'
      | None => acc
      end
  end.

(** [parseInt (string)] without a radix: the integer that the string
    denotes, [None] for NaN. The Number that JavaScript returns is this
    integer rounded to a double, the same integer up to 2^53. *)
Definition parseInt (string' : string) : option Z :=
  let str := trim_start string' in
  let '(sign, str) :=
    match str with
    | String "-" rest => (-1, rest)
    | String "+" rest => (1, rest)
    | _ => (1, str)
    end in
  let '(R, str) :=
    match str with
    | String "0" (String x rest) =>
        if Ascii.eqb x "x" || Ascii.eqb x "X" then (16, rest) else (10, str)
    | _ => (10, str)
    end in
  match digits_value R None str with
  | Some mathInt => Some (sign * mathInt)
  | None => None
  end.

Definition months : list string :=
  ["January"; "February"; "March"; "April"; "May"; "June";
   "July"; "August"; "September"; "October"; "November"; "December"].

(** [months[parseInt (monthNum) - 1] || monthNum]; an index that is not
    one of 0..11 reads [undefined]. *)
Definition getMonthName (monthNum : string) : string :=
  match parseInt monthNum with
  | Some n =>
      match (if 1 <=? n then nth_error months (Z.to_nat (n - 1)) else None) with
      | Some name => if JsString.truthy name then name else monthNum
      | None => monthNum
      end
  | None => monthNum
  end.

(** *** [renderImages] *)





(** *** The filter on flat records *)

(** A date passes the date stage. *)
Definition date_passes (st : FilterState) (date' : string) : bool :=
  match filterState_date st, getSelectedDateFilters st with
  | true, Some dateFilters => matches_date dateFilters date'
  | _, _ => true
  end.

(** A subject passes the subject stage. *)
Definition subject_passes (st : FilterState) (subject' : string) : bool :=
  match filterState_subject st, getSelectedSubject st with
  | true, Some sel => String.eqb subject' sel
  | _, _ => true
  end.

Definition record_passes (st : FilterState) (r : FlatRecord) : bool :=
  date_passes st (flat_date r) && subject_passes st (flat_subject r).

(** *** [populateFilterOptions] *)

(** The options put into one select: value and text. *)
Definition SelectOptions : Type := list (string * string).

Record FilterOptions : Type := mkFilterOptions {
  subject_options : SelectOptions;
  day_options : SelectOptions;
  month_options : SelectOptions;
  year_options : SelectOptions
}.

Record OptionSets : Type := mkOptionSets {
  set_subjects : list string;
  set_days : list string;
  set_months : list string;
  set_years : list string
}.

(** The values of the options after "Any". *)
Definition offered (options : SelectOptions) : list string :=
  map fst (tl options).

Section FilterOptionsOfData.

Variable LocalTZA : Z -> Z.
Variable hostDateParse : string -> Number.

(** [a.localeCompare (b)], which depends on the locale of the host. *)
Variable localeCompare : string -> string -> Number.

(** [parseInt (a) - parseInt (b)] as the host computes it when one of the
    two integers is beyond 2^53, where the rounding to doubles decides. *)
Variable hostIntDifference : string -> string -> Number.

Definition safe_integer (n : Z) : bool := Z.abs n <=? 9007199254740992.

(** [parseInt (a) - parseInt (b)] *)
Definition parseInt_difference (a b : string) : Number :=
  match parseInt a, parseInt b with
  | Some x, Some y =>
      if safe_integer x && safe_integer y then Num (x - y)
      else hostIntDifference a b
  | _, _ => NaN
  end.

(** The body of the first [forEach]: the pieces of a date that parses and
    the subjects of the group go into the sets. The split of a date that
    parses has three pieces. *)
Definition collect_options (d : DateGroup) (sets : OptionSets) : OptionSets :=
  let sets :=
    match parseDDMMYYYY LocalTZA hostDateParse (date d) with
    | Some _ =>
        match JsString.split "-" (date d) with
        | [day'; month'; year'] =>
            mkOptionSets (set_subjects sets)
                         (Set_add day' (set_days sets))
                         (Set_add month' (set_months sets))
                         (Set_add year' (set_years sets))
        | _ => sets
        end
    | None => sets
    end in
  forEach (subjects d)
    (fun s sets =>
       mkOptionSets (Set_add (subject s) (set_subjects sets))
                    (set_days sets) (set_months sets) (set_years sets))
    sets.

(** [innerHTML = '<option value="">Any</option>'] followed by one
    [appendChild] per sorted value. *)
Definition fill_select (text : string -> string) (sorted : list string) : SelectOptions :=
  forEach sorted (fun v => push (v, text v)) [(EmptyString, "Any")].

(** The options [populateFilterOptions] puts into the four selects. *)
Definition populateFilterOptions (data : NoteCollection) : completion FilterOptions :=
  let sets := forEach data collect_options (mkOptionSets [] [] [] []) in
  let* subjects' :=
    Array_sort (fun a b => Normal (localeCompare a b)) (set_subjects sets) in
  let* days :=
    Array_sort (fun a b => Normal (parseInt_difference a b)) (set_days sets) in
  let* months' :=
    Array_sort (fun a b => Normal (parseInt_difference a b)) (set_months sets) in
  let* years :=
    Array_sort (fun a b => Normal (parseInt_difference b a)) (set_years sets) in
  Normal (mkFilterOptions (fill_select (fun v => v) subjects')
                          (fill_select (fun v => v) days)
                          (fill_select getMonthName months')
                          (fill_select (fun v => v) years)).

End FilterOptionsOfData.





(** ** The page: toggles, controls, containers and views *)

(** The two keys of [filterState]. *)
Inductive FilterType : Type :=
| SubjectFilter
| DateFilter.

Definition filterType_key (t : FilterType) : string :=
  match t with
  | SubjectFilter => "subject"
  | DateFilter => "date"
  end.

(** [toUpperCase] of one code unit below 128; code units from 128 are
    outside this model of [capitalize], which the script calls on the two
    keys only. *)
Definition toUpperCase_unit (c : ascii) : ascii :=
  let n := N_of_ascii c in
  if ((97 <=? n) && (n <=? 122))%N then ascii_of_N (n - 32) else c.

(** [s.charAt (0).toUpperCase () + s.slice (1)] *)
Definition capitalize (s : string) : string :=
  match s with
  | EmptyString => EmptyString
  | String c rest => String (toUpperCase_unit c) rest
  end.

(** An element that [showView] can meet: its id (empty when it has none),
    whether it has the class [view], whether it has the class [hidden]. *)
Record Element : Type := mkElement {
  el_id : string;
  el_is_view : bool;
  el_hidden : bool
}.

Module UI.

(** The part of the document that the handlers read and write. The
    handlers dereference the two controls, the two buttons, the four
    selects and the two containers without a check, so a page has them;
    [filter-status] is used behind [if (el)], so a page may lack it. *)
Record Page : Type := mkPage {
  galleryData : NoteCollection;
  (** [filterState] and the values of the four selects *)
  filterState : FilterState;
  (** whether the controls have the class [enabled] *)
  subject_filter_controls : bool;
  date_filter_controls : bool;
  (** the text of the two toggle buttons *)
  toggle_subject_btn : string;
  toggle_date_btn : string;
  (** the text of [filter-status], when the page has that element *)
  filter_status : option string;
  image_container : list DateSection;
  filtered_image_container : list DateSection;
  elements : list Element
}.

Definition with_filterState (st : FilterState) (p : Page) : Page :=
  mkPage (galleryData p) st (subject_filter_controls p) (date_filter_controls p)
         (toggle_subject_btn p) (toggle_date_btn p) (filter_status p)
         (image_container p) (filtered_image_container p) (elements p).

Definition with_controls (t : FilterType) (enabled : bool) (p : Page) : Page :=
  mkPage (galleryData p) (filterState p)
         (match t with SubjectFilter => enabled | DateFilter => subject_filter_controls p end)
         (match t with SubjectFilter => date_filter_controls p | DateFilter => enabled end)
         (toggle_subject_btn p) (toggle_date_btn p) (filter_status p)
         (image_container p) (filtered_image_container p) (elements p).

Definition with_button (t : FilterType) (text : string) (p : Page) : Page :=
  mkPage (galleryData p) (filterState p)
         (subject_filter_controls p) (date_filter_controls p)
         (match t with SubjectFilter => text | DateFilter => toggle_subject_btn p end)
         (match t with SubjectFilter => toggle_date_btn p | DateFilter => text end)
         (filter_status p)
         (image_container p) (filtered_image_container p) (elements p).

Definition with_status (text : option string) (p : Page) : Page :=
  mkPage (galleryData p) (filterState p)
         (subject_filter_controls p) (date_filter_controls p)
         (toggle_subject_btn p) (toggle_date_btn p) text
         (image_container p) (filtered_image_container p) (elements p).

Definition with_image_container (shown : list DateSection) (p : Page) : Page :=
  mkPage (galleryData p) (filterState p)
         (subject_filter_controls p) (date_filter_controls p)
         (toggle_subject_btn p) (toggle_date_btn p) (filter_status p)
         shown (filtered_image_container p) (elements p).

Definition with_filtered_container (shown : list DateSection) (p : Page) : Page :=
  mkPage (galleryData p) (filterState p)
         (subject_filter_controls p) (date_filter_controls p)
         (toggle_subject_btn p) (toggle_date_btn p) (filter_status p)
         (image_container p) shown (elements p).

Definition with_elements (es : list Element) (p : Page) : Page :=
  mkPage (galleryData p) (filterState p)
         (subject_filter_controls p) (date_filter_controls p)
         (toggle_subject_btn p) (toggle_date_btn p) (filter_status p)
         (image_container p) (filtered_image_container p) es.

(** [filterState[filterType]] *)
Definition toggle_of (t : FilterType) (st : FilterState) : bool :=
  match t with
  | SubjectFilter => filterState_subject st
  | DateFilter => filterState_date st
  end.

(** [filterState[filterType] = value] *)
Definition set_toggle (t : FilterType) (value : bool) (st : FilterState) : FilterState :=
  match t with
  | SubjectFilter =>
      mkFilterState value (filterState_date st) (subject_filter st)
                    (day_filter st) (month_filter st) (year_filter st)
  | DateFilter =>
      mkFilterState (filterState_subject st) value (subject_filter st)
                    (day_filter st) (month_filter st) (year_filter st)
  end.

Definition ON_OFF (b : bool) : string := if b then "ON" else "OFF".

(** The text of [updateFilterStatus]; the separator is U+00B7. *)
Definition status_text (st : FilterState) : string :=
  ("Subject: " ++ ON_OFF (filterState_subject st) ++ " " ++
   String "183"%char (" Date: " ++ ON_OFF (filterState_date st)))%string.

Definition updateFilterStatus (p : Page) : Page :=
  match filter_status p with
  | Some _ => with_status (Some (status_text (filterState p))) p
  | None => p
  end.

Definition button_text (t : FilterType) (on : bool) : string :=
  if on then ("Disable " ++ capitalize (filterType_key t) ++ " Filter")%string
  else ("Enable " ++ capitalize (filterType_key t) ++ " Filter")%string.

Definition hide_views (es : list Element) : list Element :=
  forEach es
    (fun v => push (if el_is_view v then mkElement (el_id v) (el_is_view v) true else v))
    [].

(** [getElementById (viewId)] followed by [classList.remove ('hidden')] on
    the element found, the first with that id. *)
Fixpoint reveal (viewId : string) (es : list Element) : list Element :=
  match es with
  | [] => []
  | e :: es' =>
      if JsString.truthy viewId && String.eqb (el_id e) viewId
      then mkElement (el_id e) (el_is_view e) false :: es'
      else e :: reveal viewId es'
  end.

Section Handlers.

Variable LocalTZA : Z -> Z.
Variable hostDateParse : string -> Number.

(** [applyCombinedFilter] with its effect on the page. *)
Definition applyCombinedFilter (p : Page) : completion Page :=
  let filteredData := applyCombinedFilter (filterState p) (galleryData p) in
  let* shown := renderGroupedImages LocalTZA hostDateParse filteredData in
  Normal (with_filtered_container shown p).

Definition toggleFilter (filterType : FilterType) (p : Page) : completion Page :=
  let value := negb (toggle_of filterType (filterState p)) in
  let p := with_filterState (set_toggle filterType value (filterState p)) p in
  let p :=
    if toggle_of filterType (filterState p)
    then with_button filterType
           ("Disable " ++ capitalize (filterType_key filterType) ++ " Filter")%string
           (with_controls filterType true p)
    else with_button filterType
           ("Enable " ++ capitalize (filterType_key filterType) ++ " Filter")%string
           (with_controls filterType false p) in
  let p := updateFilterStatus p in
  applyCombinedFilter p.

Definition clearSubjects (p : Page) : completion Page :=
  let st := filterState p in
  let p :=
    with_filterState
      (mkFilterState (filterState_subject st) (filterState_date st) ""
                     (day_filter st) (month_filter st) (year_filter st)) p in
  applyCombinedFilter p.

Definition clearDate (p : Page) : completion Page :=
  let st := filterState p in
  let p :=
    with_filterState
      (mkFilterState (filterState_subject st) (filterState_date st)
                     (subject_filter st) "" "" "") p in
  applyCombinedFilter p.

Definition resetAllFilters (p : Page) : completion Page :=
  let p := with_filterState (set_toggle SubjectFilter false (filterState p)) p in
  let p := with_filterState (set_toggle DateFilter false (filterState p)) p in
  let p := with_controls SubjectFilter false p in
  let p := with_controls DateFilter false p in
  let p := with_button SubjectFilter "Enable Subject Filter" p in
  let p := with_button DateFilter "Enable Date Filter" p in
  let* p := clearSubjects p in
  let* p := clearDate p in
  let p := updateFilterStatus p in
  applyCombinedFilter p.

Definition showView (viewId : string) (p : Page) : completion Page :=
  let p := with_elements (reveal viewId (hide_views (elements p))) p in
  let* p :=
    if String.eqb viewId "filter-view" then applyCombinedFilter p else Normal p in
  if String.eqb viewId "gallery-view"
  then
    let* shown := renderGroupedImages LocalTZA hostDateParse (galleryData p) in
    Normal (with_image_container shown p)
  else Normal p.

End Handlers.

End UI.

(** The controls, the buttons, the status line and the filtered container
    show the filter state. *)
Definition in_sync (LocalTZA : Z -> Z) (hostDateParse : string -> Number)
           (p : UI.Page) : Prop :=
  UI.subject_filter_controls p = filterState_subject (UI.filterState p) /\
  UI.date_filter_controls p = filterState_date (UI.filterState p) /\
  UI.toggle_subject_btn p
    = UI.button_text SubjectFilter (filterState_subject (UI.filterState p)) /\
  UI.toggle_date_btn p
    = UI.button_text DateFilter (filterState_date (UI.filterState p)) /\
  (forall text, UI.filter_status p = Some text ->
                text = UI.status_text (UI.filterState p)) /\
  renderGroupedImages LocalTZA hostDateParse
    (applyCombinedFilter (UI.filterState p) (UI.galleryData p))
  = Normal (UI.filtered_image_container p).

(** [pieces.join (sep)] *)
Fixpoint join (sep : ascii) (pieces : list string) : string :=
  match pieces with
  | [] => EmptyString
  | [piece] => piece
  | piece :: rest => (piece ++ String sep (join sep rest))%string
  end.

(** The records of one date group. *)
Definition records_of_date (d : DateGroup) : list FlatRecord :=
  flat_map (fun s => map (fun p => mkFlat (date d) (subject s) p) (images s))
           (subjects d).


(** The value of a string as [parseInt] reads it, 0 when it reads NaN. *)
Definition int_value (s : string) : Z :=
  match parseInt s with
  | Some n => n
  | None => 0
  end.

(** The pieces that the dates of a collection contribute to the day, month
    and year sets, and the subjects of a collection, in order. *)
Definition date_pieces (LocalTZA : Z -> Z) (hostDateParse : string -> Number)
           (data : NoteCollection) : list (string * string * string) :=
  flat_map (fun d =>
              match parseDDMMYYYY LocalTZA hostDateParse (date d) with
              | Some _ =>
                  match JsString.split "-" (date d) with
                  | [day'; month'; year'] => [(day', month', year')]
                  | _ => []
                  end
              | None => []
              end)
           data.

Definition all_subjects (data : NoteCollection) : list string :=
  flat_map (fun d => map subject (subjects d)) data.

(** Every piece of every date that splits into three is a string of
    decimal digits of value at most 2^53. *)
Definition dates_are_numeric (data : NoteCollection) : Prop :=
  forall d a b c piece,
    In d data -> JsString.split "-" (date d) = [a; b; c] ->
    In piece [a; b; c] ->
    exists n, decimal piece = Some n /\ n <= 9007199254740992.

(** A view that is shown: an element with the class [view] and without
    the class [hidden]. *)
Definition visible_view (e : Element) : Prop :=
  el_is_view e = true /\ el_hidden e = false.

(** ** A page to run the handlers on

    The sample data, both toggles off, nothing selected, the filtered
    container showing the grouped view, the home view visible. *)
Definition samplePage : UI.Page :=
  UI.mkPage sampleData (mkFilterState false false "" "" "" "")
    false false "Enable Subject Filter" "Enable Date Filter"
    (Some (UI.status_text (mkFilterState false false "" "" "" "")))
    []
    (match renderGroupedImages (fixedOffset 330) strictParse sampleData with
     | Normal shown => shown
     | Throw _ => []
     end)
    [ mkElement "home-view" true false;
      mkElement "gallery-view" true true;
      mkElement "filter-view" true true;
      mkElement "filter-status" false false ].

(** Records of one date that does not parse. *)
Definition undatedRecords : list FlatRecord :=
  [ mkFlat "soon" "Physics" "a.jpg"; mkFlat "soon" "Chemistry" "b.jpg" ].

(** A host that compares strings by their first code unit, and answers NaN
    for integers beyond 2^53. *)
Definition firstUnitCompare (a b : string) : Number :=
  match a, b with
  | String x _, String y _ => Num (Z.of_N (N_of_ascii x) - Z.of_N (N_of_ascii y))
  | EmptyString, String _ _ => Num (-1)
  | String _ _, EmptyString => Num 1
  | EmptyString, EmptyString => Num 0
  end.

Definition noIntDifference : string -> string -> Number := fun _ _ => NaN.

(** A store holding two date groups without subjects, the older one first;
    the collection is at reference 5. *)
Definition pairStore : heap :=
  list_to_map
    [ (1%positive, RefArray []);
      (2%positive, DateGroupObj "21-12-2009" 1%positive);
      (3%positive, RefArray []);
      (4%positive, DateGroupObj "10-01-2010" 3%positive);
      (5%positive, RefArray [2%positive; 4%positive]) ].

Definition pairData : NoteCollection :=
  [ mkDateGroup "21-12-2009" []; mkDateGroup "10-01-2010" [] ].

(** * Properties *)

(** ** Strings and digits *)

Lemma append_cons (x : ascii) (a b : string) :
  (String x a ++ b)%string = String x (a ++ b).
Proof. reflexivity. Qed.

Lemma append_assoc (a b c : string) :
  ((a ++ b) ++ c)%string = (a ++ (b ++ c))%string.
Proof.
  induction a as [|x a IH]; [reflexivity|].
  now rewrite !append_cons, IH.
Qed.

Lemma split_not_nil sep s : JsString.split sep s <> [].
Proof.
  destruct s as [|c s]; simpl; [discriminate|].
  destruct (Ascii.eqb c sep); [discriminate|].
  destruct (JsString.split sep s); discriminate.
Qed.

Lemma length_split sep s :
  length (JsString.split sep s) = S (JsString.count sep s).
Proof.
  induction s as [|c s IH]; simpl; [reflexivity|].
  destruct (Ascii.eqb c sep); simpl; [now rewrite IH|].
  destruct (JsString.split sep s) eqn:E; simpl in *; [discriminate|exact IH].
Qed.

Lemma split_no_sep sep s :
  JsString.count sep s = O -> JsString.split sep s = [s].
Proof.
  induction s as [|c s IH]; simpl; [reflexivity|].
  destruct (Ascii.eqb c sep); [discriminate|].
  intros H. now rewrite (IH H).
Qed.

Lemma split_app sep a b :
  JsString.count sep a = O ->
  JsString.split sep (a ++ String sep b)%string = a :: JsString.split sep b.
Proof.
  induction a as [|c a IH]; simpl.
  - intros _. now rewrite Ascii.eqb_refl.
  - destruct (Ascii.eqb c sep); [discriminate|].
    intros H. now rewrite (IH H).
Qed.

Lemma digit_range c k : digit c = Some k -> 0 <= k <= 9.
Proof.
  unfold digit, is_digit. destruct (_ && _) eqn:E; [|discriminate].
  intros [= <-]. apply andb_true_iff in E as [E1 E2].
  apply N.leb_le in E1, E2. lia.
Qed.

Lemma digit_char_of c k : digit c = Some k -> c = digit_char k.
Proof.
  intros H. pose proof (digit_range _ _ H) as Hr. revert H.
  unfold digit, digit_char. destruct (is_digit c); [|discriminate].
  intros [= <-]. rewrite <- (ascii_N_embedding c) at 1. f_equal. lia.
Qed.

Lemma digit_of_char k : 0 <= k <= 9 -> digit (digit_char k) = Some k.
Proof.
  intros H.
  assert (k = 0 \/ k = 1 \/ k = 2 \/ k = 3 \/ k = 4 \/ k = 5 \/ k = 6 \/
          k = 7 \/ k = 8 \/ k = 9) as Hk by lia.
  repeat (destruct Hk as [-> | Hk]; [reflexivity|]). now subst.
Qed.

Lemma digit_not_hyphen c k : digit c = Some k -> Ascii.eqb c "-" = false.
Proof.
  unfold digit, is_digit. destruct (_ && _) eqn:E; [|discriminate]. intros _.
  apply andb_true_iff in E as [E1 _]. apply N.leb_le in E1.
  apply Ascii.eqb_neq. intros ->. vm_compute in E1. now apply E1.
Qed.

Lemma decimal_from_no_hyphen s : forall acc v,
  decimal_from acc s = Some v -> JsString.count "-" s = O.
Proof.
  induction s as [|c s IH]; simpl; intros acc v H; [reflexivity|].
  destruct (digit c) as [k|] eqn:E; [|discriminate].
  rewrite (digit_not_hyphen _ _ E). eauto.
Qed.

Lemma decimal_no_hyphen s v : decimal s = Some v -> JsString.count "-" s = O.
Proof.
  destruct s; [discriminate|]. unfold decimal. apply decimal_from_no_hyphen.
Qed.

(** One or two digits, padded to two, are the two-digit rendering of their
    value. *)
Lemma padStart_two_digits s v :
  decimal s = Some v -> (1 <= String.length s <= 2)%nat ->
  JsString.padStart 2 "0" s = two_digits v /\ 0 <= v <= 99.
Proof.
  destruct s as [|c1 [|c2 [|c3 s]]]; simpl; try lia; intros H _.
  - destruct (digit c1) as [k1|] eqn:E1; [|discriminate].
    injection H as <-. pose proof (digit_range _ _ E1).
    unfold JsString.padStart, two_digits; simpl.
    replace (10 * 0 + k1) with k1 by lia.
    rewrite Z.div_small, Z.mod_small by lia.
    split; [|lia]. now rewrite <- (digit_char_of _ _ E1).
  - destruct (digit c1) as [k1|] eqn:E1; [|discriminate].
    destruct (digit c2) as [k2|] eqn:E2; [|discriminate].
    injection H as <-.
    pose proof (digit_range _ _ E1). pose proof (digit_range _ _ E2).
    unfold JsString.padStart, two_digits; simpl.
    replace (10 * (10 * 0 + k1) + k2) with (10 * k1 + k2) by lia.
    replace ((10 * k1 + k2) / 10) with k1
      by (apply Z.div_unique with k2; lia).
    replace ((10 * k1 + k2) mod 10) with k2
      by (apply Z.mod_unique with k1; lia).
    split; [|lia].
    now rewrite <- (digit_char_of _ _ E1), <- (digit_char_of _ _ E2).
Qed.

Lemma num2_two_digits v : 0 <= v <= 99 ->
  num2 (digit_char (v / 10)) (digit_char (v mod 10)) = Some v.
Proof.
  intros H. unfold num2.
  pose proof (Z.div_mod v 10 ltac:(lia)) as Hv.
  pose proof (Z.mod_pos_bound v 10 ltac:(lia)) as Hm.
  rewrite !digit_of_char by lia. f_equal. lia.
Qed.

Lemma decimal_four s v :
  decimal s = Some v -> String.length s = 4%nat ->
  exists y1 y2 y3 y4,
    s = String y1 (String y2 (String y3 (String y4 EmptyString))) /\
    num4 y1 y2 y3 y4 = Some v /\ 0 <= v <= 9999.
Proof.
  destruct s as [|y1 [|y2 [|y3 [|y4 [|c s]]]]]; simpl; try discriminate.
  intros H _. exists y1, y2, y3, y4. split; [reflexivity|].
  unfold num4, num2.
  destruct (digit y1) as [k1|] eqn:E1; [|discriminate].
  destruct (digit y2) as [k2|] eqn:E2; [|discriminate].
  destruct (digit y3) as [k3|] eqn:E3; [|discriminate].
  destruct (digit y4) as [k4|] eqn:E4; [|discriminate].
  injection H as <-.
  pose proof (digit_range _ _ E1). pose proof (digit_range _ _ E2).
  pose proof (digit_range _ _ E3). pose proof (digit_range _ _ E4).
  split; [f_equal|]; lia.
Qed.

(** ** Date parser *)

Lemma DayWithinYear_bound y m :
  0 <= m <= 11 -> 0 <= DayWithinYear y (Z.to_nat m) <= 335.
Proof.
  intros H.
  assert (forall n, (n <= 11)%nat -> 0 <= DayWithinYear y n <= 335) as Hn.
  { intros n Hn.
    do 12 (destruct n as [|n];
           [cbv [DayWithinYear DaysInMonth Z.of_nat Pos.of_succ_nat Pos.succ];
            destruct (InLeapYear y); lia|]).
    lia. }
  apply Hn. lia.
Qed.

Lemma DaysInMonth_le y m : DaysInMonth y m <= 31.
Proof.
  unfold DaysInMonth.
  repeat match goal with
         | |- context [match ?x with _ => _ end] => destruct x
         end; lia.
Qed.

Lemma MakeDay_bound y m d :
  0 <= y <= 9999 -> 1 <= m <= 12 -> 1 <= d <= DaysInMonth y (m - 1) ->
  -3000000 <= MakeDay y (m - 1) d <= 3000000.
Proof.
  intros Hy Hm Hd. unfold MakeDay.
  rewrite Z.div_small, Z.mod_small by lia.
  pose proof (DayWithinYear_bound y (m - 1) ltac:(lia)).
  pose proof (DaysInMonth_le y (m - 1)).
  replace (y + 0) with y by lia. unfold DayFromYear.
  pose proof (Z.div_mod (y - 1969) 4 ltac:(lia)).
  pose proof (Z.mod_pos_bound (y - 1969) 4 ltac:(lia)).
  pose proof (Z.div_mod (y - 1901) 100 ltac:(lia)).
  pose proof (Z.mod_pos_bound (y - 1901) 100 ltac:(lia)).
  pose proof (Z.div_mod (y - 1601) 400 ltac:(lia)).
  pose proof (Z.mod_pos_bound (y - 1601) 400 ltac:(lia)).
  lia.
Qed.

Lemma parseLocalDateTime_midnight y1 y2 y3 y4 m1 m2 d1 d2 :
  parseLocalDateTime
    (String y1 (String y2 (String y3 (String y4 EmptyString))) ++ "-" ++
     String m1 (String m2 EmptyString) ++ "-" ++
     String d1 (String d2 EmptyString) ++ "T00:00:00")%string =
  match num4 y1 y2 y3 y4, num2 m1 m2, num2 d1 d2 with
  | Some y, Some m, Some d =>
      let f := mkFields y m d 0 0 0 in
      if fields_in_range f then Some f else None
  | _, _, _ => None
  end.
Proof.
  unfold parseLocalDateTime.
  destruct (num4 y1 y2 y3 y4) as [y|] eqn:Ey, (num2 m1 m2) as [m|] eqn:Em,
           (num2 d1 d2) as [d|] eqn:Ed; simpl; rewrite ?Ey, ?Em, ?Ed; reflexivity.
Qed.

Section DateParser.

Variable LocalTZA : Z -> Z.
Variable hostDateParse : string -> Number.

(** A time zone offset is less than a day. *)
Hypothesis LocalTZA_bound : forall t, - msPerDay < LocalTZA t < msPerDay.

Lemma Date_getTime_iso yyyy y m d :
  decimal yyyy = Some y -> String.length yyyy = 4%nat ->
  1 <= m <= 12 -> 1 <= d <= DaysInMonth y (m - 1) ->
  Date_getTime LocalTZA hostDateParse (yyyy ++ "-" ++ two_digits m ++ "-" ++ two_digits d ++ "T00:00:00")%string
  = Num (UTC LocalTZA (local_midnight y m d)).
Proof.
  intros Hy Hlen Hm Hd.
  destruct (decimal_four _ _ Hy Hlen) as (y1 & y2 & y3 & y4 & -> & Hnum & Hyr).
  pose proof (DaysInMonth_le y (m - 1)) as Hle.
  unfold Date_getTime, two_digits.
  rewrite parseLocalDateTime_midnight, Hnum, !num2_two_digits by lia.
  unfold fields_in_range; cbn [f_year f_month f_day f_hour f_minute f_second].
  replace (1 <=? m) with true by (symmetry; apply Z.leb_le; lia).
  replace (m <=? 12) with true by (symmetry; apply Z.leb_le; lia).
  replace (1 <=? d) with true by (symmetry; apply Z.leb_le; lia).
  replace (d <=? DaysInMonth y (m - 1)) with true by (symmetry; apply Z.leb_le; lia).
  cbn [andb Z.leb Z.compare f_year f_month f_day f_hour f_minute f_second].
  change (MakeTime 0 0 0 0) with 0. fold (local_midnight y m d).
  pose proof (MakeDay_bound y m d Hyr Hm Hd) as Hb.
  pose proof (LocalTZA_bound (local_midnight y m d)) as Ht.
  unfold TimeClip, UTC.
  assert (Z.abs (local_midnight y m d - LocalTZA (local_midnight y m d))
          <= 8640000000000000) as Habs
    by (unfold local_midnight, MakeDate, msPerDay in *; lia).
  apply Z.ltb_ge in Habs. now rewrite Habs.
Qed.

Lemma parseDDMMYYYY_valid dd mm yyyy d m y :
  decimal dd = Some d -> (1 <= String.length dd <= 2)%nat ->
  decimal mm = Some m -> (1 <= String.length mm <= 2)%nat ->
  decimal yyyy = Some y -> String.length yyyy = 4%nat ->
  1 <= m <= 12 -> 1 <= d <= DaysInMonth y (m - 1) ->
  parseDDMMYYYY LocalTZA hostDateParse (dd ++ "-" ++ mm ++ "-" ++ yyyy)%string =
  Some {| iso := (yyyy ++ "-" ++ two_digits m ++ "-" ++ two_digits d)%string;
          ts := Num (UTC LocalTZA (local_midnight y m d));
          raw := (dd ++ "-" ++ mm ++ "-" ++ yyyy)%string |}.
Proof.
  intros Hd Hdl Hm Hml Hy Hyl Hmr Hdr.
  unfold parseDDMMYYYY.
  change ("-" ++ mm ++ "-" ++ yyyy)%string with (String "-" (mm ++ String "-" yyyy)).
  rewrite (split_app "-" dd) by (eapply decimal_no_hyphen; eauto).
  rewrite (split_app "-" mm) by (eapply decimal_no_hyphen; eauto).
  rewrite (split_no_sep "-" yyyy) by (eapply decimal_no_hyphen; eauto).
  destruct (padStart_two_digits _ _ Hd Hdl) as [-> _].
  destruct (padStart_two_digits _ _ Hm Hml) as [-> _].
  f_equal. f_equal.
  rewrite <- (Date_getTime_iso yyyy y m d Hy Hyl Hmr Hdr).
  f_equal. rewrite append_assoc. reflexivity.
Qed.

Lemma parseDDMMYYYY_null s :
  parseDDMMYYYY LocalTZA hostDateParse s = None <->
  length (JsString.split "-" s) <> 3%nat.
Proof.
  unfold parseDDMMYYYY.
  destruct (JsString.split "-" s) as [|a [|b [|c [|e l]]]]; simpl;
    split; intros H; try reflexivity; try discriminate; try lia;
    exfalso; now apply H.
Qed.

(** C7. [parseDDMMYYYY] answers [null] exactly for the strings that do
    not split at ['-'] into three pieces (the strings with a number of
    hyphens other than two). For a day and a month written with one or two
    digits and a year written with four, naming a day of the calendar, the
    result holds the ISO string [YYYY-MM-DD] with day and month padded to
    two digits, the time value of the local midnight that starts that day,
    and the input itself. *)
Theorem parseDDMMYYYY_spec :
  (forall s,
      (parseDDMMYYYY LocalTZA hostDateParse s = None <-> length (JsString.split "-" s) <> 3%nat) /\
      length (JsString.split "-" s) = S (JsString.count "-" s)) /\
  (forall dd mm yyyy d m y,
      decimal dd = Some d -> (1 <= String.length dd <= 2)%nat ->
      decimal mm = Some m -> (1 <= String.length mm <= 2)%nat ->
      decimal yyyy = Some y -> String.length yyyy = 4%nat ->
      1 <= m <= 12 -> 1 <= d <= DaysInMonth y (m - 1) ->
      let input := (dd ++ "-" ++ mm ++ "-" ++ yyyy)%string in
      parseDDMMYYYY LocalTZA hostDateParse input =
      Some {| iso := (yyyy ++ "-" ++ two_digits m ++ "-" ++ two_digits d)%string;
              ts := Num (UTC LocalTZA (local_midnight y m d));
              raw := input |}).
Proof.
  split.
  - intros s. split; [apply parseDDMMYYYY_null|apply length_split].
  - intros dd mm yyyy d m y Hd Hdl Hm Hml Hy Hyl Hmr Hdr input.
    now apply parseDDMMYYYY_valid.
Qed.

End DateParser.

(** ** Flattener *)

Lemma forEach_push {A B : Type} (f : A -> B) (l : list A) (acc : list B) :
  forEach l (fun x => push (f x)) acc = acc ++ map f l.
Proof.
  unfold forEach, push. revert acc.
  induction l as [|x l IH]; intros acc; simpl; [now rewrite app_nil_r|].
  now rewrite IH, <- app_assoc.
Qed.

Lemma forEach_append {A B : Type} (body : A -> list B -> list B)
      (g : A -> list B) (l : list A) (acc : list B) :
  (forall x acc', body x acc' = acc' ++ g x) ->
  forEach l body acc = acc ++ flat_map g l.
Proof.
  intros Hbody. unfold forEach. revert acc.
  induction l as [|x l IH]; intros acc; simpl; [now rewrite app_nil_r|].
  now rewrite IH, Hbody, <- app_assoc.
Qed.

Lemma getFlattenedImages_records data :
  getFlattenedImages data = records_in_order data.
Proof.
  unfold getFlattenedImages, records_in_order.
  rewrite (forEach_append _
    (fun d => flat_map (fun s => map (fun p => mkFlat (date d) (subject s) p) (images s))
                       (subjects d))); [reflexivity|].
  intros d acc.
  apply (forEach_append _
    (fun s => map (fun p => mkFlat (date d) (subject s) p) (images s))).
  intros s acc'. apply forEach_push.
Qed.

Lemma length_records_in_order data :
  length (records_in_order data) = image_count data.
Proof.
  unfold records_in_order, image_count.
  induction data as [|d data IH]; simpl; [reflexivity|].
  rewrite length_app, IH. f_equal.
  unfold date_image_count. induction (subjects d) as [|s l IHl]; simpl; [reflexivity|].
  now rewrite length_app, length_map, IHl.
Qed.

(** C8. The flattener returns one record per image, as many as the sum of
    the lengths of the image lists of every subject of every date, in the
    order of the dates, within a date of its subjects, within a subject of
    its images. *)
Theorem getFlattenedImages_spec (data : NoteCollection) :
  length (getFlattenedImages data) = image_count data /\
  getFlattenedImages data = records_in_order data.
Proof.
  split; [|apply getFlattenedImages_records].
  rewrite getFlattenedImages_records. apply length_records_in_order.
Qed.

(** ** Filter engine *)

Lemma truthy_false_iff s : JsString.truthy s = false <-> s = EmptyString.
Proof. destruct s; simpl; split; intros H; congruence. Qed.

Lemma eqb_empty s : String.eqb s "" = negb (JsString.truthy s).
Proof. now destruct s. Qed.

Lemma getSelectedDateFilters_some st :
  filterState_date st = true -> some_field_selected st ->
  getSelectedDateFilters st =
  Some (mkDateFilters (day_filter st) (month_filter st) (year_filter st)).
Proof.
  intros Hon Hsel. unfold getSelectedDateFilters. rewrite Hon. simpl.
  unfold some_field_selected in Hsel.
  destruct (day_filter st), (month_filter st), (year_filter st);
    try reflexivity.
  destruct Hsel as [H | [H | H]]; now elim H.
Qed.

Lemma getSelectedDateFilters_none st :
  no_field_selected st -> getSelectedDateFilters st = None.
Proof.
  intros (Hd & Hm & Hy). unfold getSelectedDateFilters.
  rewrite Hd, Hm, Hy. now destruct (filterState_date st).
Qed.

Lemma date_matches_selected st d :
  date_matches (mkDateFilters (day_filter st) (month_filter st) (year_filter st)) d
  = selected_fields_match st d.
Proof.
  unfold date_matches, matches_date, selected_fields_match, selected_fields, strict_eq.
  cbn [forallb day month year]. rewrite !eqb_empty, andb_true_r, andb_assoc.
  reflexivity.
Qed.

Lemma filter_idem {A : Type} (p : A -> bool) (l : list A) :
  List.filter p (List.filter p l) = List.filter p l.
Proof.
  induction l as [|x l IH]; simpl; [reflexivity|].
  destruct (p x) eqn:E; simpl; [rewrite E|]; now rewrite ?IH.
Qed.

Lemma filter_map_swap {A : Type} (p : A -> bool) (f : A -> A) (l : list A) :
  (forall x, p (f x) = p x) ->
  List.filter p (map f l) = map f (List.filter p l).
Proof.
  intros H. induction l as [|x l IH]; simpl; [reflexivity|].
  rewrite H. destruct (p x); simpl; now rewrite IH.
Qed.

Lemma filter_filter_swap {A : Type} (p q : A -> bool) (l : list A) :
  List.filter p (List.filter q l) = List.filter q (List.filter p l).
Proof.
  induction l as [|x l IH]; simpl; [reflexivity|].
  destruct (p x) eqn:Ep, (q x) eqn:Eq; simpl; rewrite ?Ep, ?Eq, IH; reflexivity.
Qed.

Lemma date_matches_keep_subject f sel d :
  date_matches f (keep_subject sel d) = date_matches f d.
Proof. reflexivity. Qed.

Lemma keep_subject_idem sel d :
  keep_subject sel (keep_subject sel d) = keep_subject sel d.
Proof. unfold keep_subject; simpl. now rewrite filter_idem. Qed.

Lemma subject_pass_idem sel l :
  List.filter has_subjects (map (keep_subject sel)
    (List.filter has_subjects (map (keep_subject sel) l)))
  = List.filter has_subjects (map (keep_subject sel) l).
Proof.
  induction l as [|d l IH]; simpl; [reflexivity|].
  destruct (has_subjects (keep_subject sel d)) eqn:E; simpl; [|exact IH].
  rewrite keep_subject_idem, E, IH. reflexivity.
Qed.

(** The two stages can be taken in either order, whatever the filter
    state. *)
Lemma stages_swap st data :
  subjectStage st (dateStage st data) = dateStage st (subjectStage st data).
Proof.
  unfold subjectStage, dateStage.
  destruct (filterState_subject st), (getSelectedSubject st) as [sel|],
           (filterState_date st), (getSelectedDateFilters st) as [f|];
    try reflexivity.
  rewrite <- (filter_map_swap (date_matches f) (keep_subject sel))
    by (intros x; apply date_matches_keep_subject).
  apply filter_filter_swap.
Qed.

Lemma dateStage_idem st data :
  dateStage st (dateStage st data) = dateStage st data.
Proof.
  unfold dateStage.
  destruct (filterState_date st), (getSelectedDateFilters st); try reflexivity.
  apply filter_idem.
Qed.

Lemma subjectStage_idem st data :
  subjectStage st (subjectStage st data) = subjectStage st data.
Proof.
  unfold subjectStage.
  destruct (filterState_subject st), (getSelectedSubject st); try reflexivity.
  apply subject_pass_idem.
Qed.

(** C3. With the date toggle on: if a day, month or year is selected, the
    date stage of the filter engine keeps exactly the date groups (in their
    order) whose split date has, at the index of every selected field, a
    component equal as a string to the selection, so that "1" does not
    select "01"; if none is selected the engine behaves as with the toggle
    off. *)
Theorem date_filter_spec (st : FilterState) (data : NoteCollection) :
  filterState_date st = true ->
  (some_field_selected st ->
     dateStage st data = List.filter (selected_fields_match st) data /\
     applyCombinedFilter st data =
       subjectStage st (List.filter (selected_fields_match st) data)) /\
  (day_filter st = "1" ->
     selected_fields_match st (mkDateGroup "01-10-2025" []) = false) /\
  (no_field_selected st ->
     dateStage st data = data /\
     applyCombinedFilter st data = applyCombinedFilter (date_disabled st) data).
Proof.
  intros Hon. repeat split.
  - unfold dateStage.
    rewrite Hon, (getSelectedDateFilters_some st Hon H).
    apply filter_ext. intros d. apply date_matches_selected.
  - unfold applyCombinedFilter, dateStage.
    rewrite Hon, (getSelectedDateFilters_some st Hon H). f_equal.
    apply filter_ext. intros d. apply date_matches_selected.
  - intros Hday. unfold selected_fields_match, selected_fields.
    rewrite Hday. reflexivity.
  - unfold dateStage. now rewrite (getSelectedDateFilters_none st H), Hon.
  - unfold applyCombinedFilter, dateStage.
    rewrite (getSelectedDateFilters_none st H), Hon. reflexivity.
Qed.

Lemma has_subjects_keep sel d :
  has_subjects (keep_subject sel d) = has_subject sel d.
Proof.
  unfold has_subjects, keep_subject, has_subject; simpl.
  induction (subjects d) as [|s l IH]; simpl; [reflexivity|].
  destruct (String.eqb (subject s) sel); simpl; [reflexivity|exact IH].
Qed.

Lemma subject_pass_spec sel l :
  List.filter has_subjects (map (keep_subject sel) l)
  = map (only_subject sel) (List.filter (has_subject sel) l).
Proof.
  induction l as [|d l IH]; simpl; [reflexivity|].
  rewrite has_subjects_keep.
  destruct (has_subject sel d); simpl; now rewrite IH.
Qed.

(** C4. With the subject toggle on and a subject selected, the output of
    the filter engine consists, in order, of the date groups retained by
    the date stage that hold a subject group of the selected subject, each
    reduced to its subject groups of that subject; a retained date group is
    absent from the output exactly when it holds no such subject group. *)
Theorem subject_filter_spec (st : FilterState) (data : NoteCollection) :
  filterState_subject st = true -> subject_filter st <> "" ->
  let sel := subject_filter st in
  let retained := dateStage st data in
  applyCombinedFilter st data =
    map (only_subject sel) (List.filter (has_subject sel) retained) /\
  (forall d, In d retained ->
     (In (only_subject sel d) (applyCombinedFilter st data) <->
      exists s, In s (subjects d) /\ subject s = sel)) /\
  (forall g, In g (applyCombinedFilter st data) ->
     subjects g <> [] /\ forall s, In s (subjects g) -> subject s = sel).
Proof.
  intros Hon Hsel sel retained.
  assert (applyCombinedFilter st data =
          map (only_subject sel) (List.filter (has_subject sel) retained)) as Heq.
  { unfold applyCombinedFilter, subjectStage, getSelectedSubject. rewrite Hon.
    fold sel. simpl. destruct sel as [|c sel'] eqn:E; [now elim Hsel|]. simpl.
    apply subject_pass_spec. }
  split; [exact Heq|]. rewrite Heq. split.
  - intros d Hd. split.
    + intros Hin. apply in_map_iff in Hin as (d' & Hd' & Hin').
      apply filter_In in Hin' as [_ Hhas].
      assert (has_subject sel d = true) as Hhas'.
      { unfold has_subject in *.
        apply existsb_exists in Hhas as (s & Hs & Hs').
        apply String.eqb_eq in Hs'.
        assert (In s (subjects (only_subject sel d'))) as Hs2
          by (simpl; apply filter_In; split; [exact Hs|now apply String.eqb_eq]).
        rewrite Hd' in Hs2. simpl in Hs2. apply filter_In in Hs2 as [Hs3 _].
        apply existsb_exists. exists s. split; [exact Hs3|now apply String.eqb_eq]. }
      apply existsb_exists in Hhas' as (s & Hs & Hs').
      exists s. split; [exact Hs|now apply String.eqb_eq].
    + intros (s & Hs & Hs'). apply in_map. apply filter_In. split; [exact Hd|].
      apply existsb_exists. exists s. split; [exact Hs|now apply String.eqb_eq].
  - intros g Hg. apply in_map_iff in Hg as (d & <- & Hin).
    apply filter_In in Hin as [_ Hhas].
    apply existsb_exists in Hhas as (s & Hs & Hs'). split.
    + intros Hnil.
      assert (In s (subjects (only_subject sel d))) as Hs2
        by (simpl; apply filter_In; split; assumption).
      rewrite Hnil in Hs2. exact Hs2.
    + intros s' Hs2. simpl in Hs2. apply filter_In in Hs2 as [_ Hs3].
      now apply String.eqb_eq.
Qed.

(** C5. Filtering the output of the filter engine again, with the same
    filter state, changes nothing. *)
Theorem applyCombinedFilter_idempotent (st : FilterState) (data : NoteCollection) :
  applyCombinedFilter st (applyCombinedFilter st data) = applyCombinedFilter st data.
Proof.
  unfold applyCombinedFilter.
  rewrite <- (stages_swap st (dateStage st data)).
  now rewrite subjectStage_idem, dateStage_idem.
Qed.

Lemma list_sum_filter_le {A : Type} (f : A -> nat) (p : A -> bool) (l : list A) :
  (list_sum (map f (List.filter p l)) <= list_sum (map f l))%nat.
Proof.
  induction l as [|x l IH]; simpl; [lia|].
  destruct (p x); simpl; lia.
Qed.

Lemma list_sum_map_le {A : Type} (f : A -> nat) (g : A -> A) (l : list A) :
  (forall x, (f (g x) <= f x)%nat) ->
  (list_sum (map f (map g l)) <= list_sum (map f l))%nat.
Proof.
  intros H. induction l as [|x l IH]; simpl; [lia|].
  specialize (H x). lia.
Qed.

Lemma image_count_dateStage st data :
  (image_count (dateStage st data) <= image_count data)%nat.
Proof.
  unfold dateStage.
  destruct (filterState_date st), (getSelectedDateFilters st); try lia.
  apply list_sum_filter_le.
Qed.

Lemma image_count_subjectStage st data :
  (image_count (subjectStage st data) <= image_count data)%nat.
Proof.
  unfold subjectStage.
  destruct (filterState_subject st), (getSelectedSubject st) as [sel|]; try lia.
  unfold image_count.
  etransitivity; [apply list_sum_filter_le|].
  apply list_sum_map_le. intros d. apply list_sum_filter_le.
Qed.

(** C6. The output of the filter engine holds at most as many images as
    its input. *)
Theorem applyCombinedFilter_image_count (st : FilterState) (data : NoteCollection) :
  (image_count (applyCombinedFilter st data) <= image_count data)%nat.
Proof.
  unfold applyCombinedFilter.
  etransitivity; [apply image_count_subjectStage|apply image_count_dateStage].
Qed.

(** C10. With both toggles on, a subject selected and a day, month or year
    selected, running the subject stage before the date stage gives the
    output of the implemented order, date stage first. *)
Theorem stages_commute (st : FilterState) (data : NoteCollection) :
  filterState_date st = true -> some_field_selected st ->
  filterState_subject st = true -> subject_filter st <> "" ->
  dateStage st (subjectStage st data) = applyCombinedFilter st data.
Proof.
  intros _ _ _ _. unfold applyCombinedFilter. symmetry. apply stages_swap.
Qed.

(** ** [Array.prototype.sort] *)

Section SortProperties.

Context {A : Type}.
Variable comparefn : A -> A -> completion Number.

(** The elements on which the comparator completes normally. *)
Variable safe : A -> Prop.
Hypothesis comparefn_safe :
  forall x y, safe x -> safe y -> exists v, comparefn x y = Normal v.

Lemma insert_from_right_perm x rs :
  safe x -> Forall safe rs ->
  exists r, insert_from_right comparefn x rs = Normal r /\
            Permutation (x :: rs) r /\ Forall safe r.
Proof.
  intros Hx. induction rs as [|y rs IH]; intros Hrs; simpl.
  - exists [x]. repeat split; auto.
  - inversion Hrs as [|? ? Hy Hrs']; subst.
    unfold SortCompare. destruct (comparefn_safe y x Hy Hx) as [v ->]. simpl.
    destruct (0 <? _).
    + destruct (IH Hrs') as (r & -> & Hperm & Hall). simpl.
      exists (y :: r). repeat split; [|now constructor].
      rewrite perm_swap. now constructor.
    + exists (x :: y :: rs). repeat split; auto.
Qed.

Lemma sort_loop_perm todo : forall rs,
  Forall safe todo -> Forall safe rs ->
  exists l', sort_loop comparefn todo rs = Normal l' /\
             Permutation (rev rs ++ todo) l'.
Proof.
  induction todo as [|x todo IH]; intros rs Htodo Hrs; simpl.
  - exists (rev rs). split; [reflexivity|]. now rewrite app_nil_r.
  - inversion Htodo as [|? ? Hx Htodo']; subst.
    destruct (insert_from_right_perm x rs Hx Hrs) as (r & -> & Hperm & Hall).
    simpl. destruct (IH r Htodo' Hall) as (l' & -> & Hperm').
    exists l'. split; [reflexivity|].
    rewrite <- Hperm', <- Permutation_rev, <- Hperm, <- Permutation_middle.
    now rewrite <- Permutation_rev.
Qed.

(** A sort whose comparator cannot throw on the elements returns a
    rearrangement of the array. *)
Lemma Array_sort_perm l :
  Forall safe l ->
  exists l', Array_sort comparefn l = Normal l' /\ Permutation l l'.
Proof.
  intros Hl. destruct (sort_loop_perm l [] Hl (List.Forall_nil _)) as (l' & H & Hperm).
  exists l'. split; [exact H|exact Hperm].
Qed.

(** The comparator as the difference of two keys, second minus first. *)
Variable key : A -> Z.
Variable keyed : A -> Prop.
Hypothesis comparefn_keyed :
  forall x y, keyed x -> keyed y -> comparefn x y = Normal (Num (key y - key x)).

Lemma insert_from_right_sorted x rs r :
  keyed x -> Forall keyed rs ->
  StronglySorted (fun a b => key a <= key b) rs ->
  insert_from_right comparefn x rs = Normal r ->
  StronglySorted (fun a b => key a <= key b) r /\ Forall keyed r /\
  (forall z, In z r -> z = x \/ In z rs).
Proof.
  intros Hx. revert r. induction rs as [|y rs IH]; intros r Hrs Hsorted; simpl.
  - intros [= <-]. repeat split; [repeat constructor|auto|].
    intros z [<-|[]]. now left.
  - inversion Hrs as [|? ? Hy Hrs']; subst.
    inversion Hsorted as [|? ? Hs' Hall]; subst.
    unfold SortCompare. rewrite (comparefn_keyed y x Hy Hx). simpl.
    destruct (0 <? key x - key y) eqn:E.
    + destruct (insert_from_right comparefn x rs) as [r'|] eqn:Er; [|discriminate].
      simpl. intros [= <-].
      destruct (IH r' Hrs' Hs' eq_refl) as (Hsr & Hkr & Hin).
      apply Z.ltb_lt in E. repeat split.
      * constructor; [exact Hsr|]. apply List.Forall_forall. intros z Hz.
        destruct (Hin z Hz) as [-> | Hz']; [lia|].
        rewrite List.Forall_forall in Hall. now apply Hall.
      * now constructor.
      * intros z [<- | Hz]; [right; now left|].
        destruct (Hin z Hz) as [-> | Hz']; [now left|right; now right].
    + intros [= <-]. apply Z.ltb_ge in E. repeat split.
      * constructor; [exact Hsorted|]. constructor; [lia|].
        rewrite List.Forall_forall in Hall |- *. intros z Hz.
        specialize (Hall z Hz). lia.
      * now constructor.
      * intros z [<- | Hz]; [now left|now right].
Qed.

Lemma StronglySorted_snoc (R : A -> A -> Prop) l x :
  StronglySorted R l -> Forall (fun z => R z x) l ->
  StronglySorted R (l ++ [x]).
Proof.
  induction 1 as [|y l Hs IH Hall]; intros Hx; simpl.
  - repeat constructor.
  - inversion Hx as [|? ? Hyx Hx']; subst. constructor; [now apply IH|].
    apply List.Forall_app. split; [exact Hall|]. now repeat constructor.
Qed.

Lemma StronglySorted_rev (R : A -> A -> Prop) l :
  StronglySorted R l -> StronglySorted (fun a b => R b a) (rev l).
Proof.
  induction 1 as [|x l Hs IH Hall]; simpl; [constructor|].
  apply StronglySorted_snoc; [exact IH|].
  apply List.Forall_forall. intros z Hz. apply in_rev in Hz.
  rewrite List.Forall_forall in Hall. now apply Hall.
Qed.

Lemma sort_loop_sorted todo : forall rs l',
  Forall keyed todo -> Forall keyed rs ->
  StronglySorted (fun a b => key a <= key b) rs ->
  sort_loop comparefn todo rs = Normal l' ->
  StronglySorted (fun a b => key b <= key a) l'.
Proof.
  induction todo as [|x todo IH]; intros rs l' Htodo Hrs Hsorted; simpl.
  - intros [= <-]. now apply StronglySorted_rev.
  - inversion Htodo as [|? ? Hx Htodo']; subst.
    destruct (insert_from_right comparefn x rs) as [r|] eqn:Er; [|discriminate].
    simpl. intros Hloop.
    destruct (insert_from_right_sorted x rs r Hx Hrs Hsorted Er) as (Hsr & Hkr & _).
    exact (IH r l' Htodo' Hkr Hsr Hloop).
Qed.

(** With such a comparator the sorted array is in descending order of the
    keys. *)
Lemma Array_sort_sorted l l' :
  Forall keyed l -> Array_sort comparefn l = Normal l' ->
  StronglySorted (fun a b => key b <= key a) l'.
Proof.
  intros Hl. apply sort_loop_sorted; [exact Hl|constructor|constructor].
Qed.

End SortProperties.

(** ** Grouped renderer *)

Lemma filter_map_comp {A B : Type} (p : B -> bool) (f : A -> B) (l : list A) :
  List.filter p (map f l) = map f (List.filter (fun x => p (f x)) l).
Proof.
  induction l as [|x l IH]; simpl; [reflexivity|].
  destruct (p (f x)); simpl; now rewrite IH.
Qed.

Lemma StronglySorted_map {A B : Type} (R : B -> B -> Prop) (f : A -> B) l :
  StronglySorted R (map f l) -> StronglySorted (fun a b => R (f a) (f b)) l.
Proof.
  induction l as [|x l IH]; simpl; intros H; [constructor|].
  inversion H as [|? ? Hs Hall]; subst. constructor; [now apply IH|].
  rewrite List.Forall_forall in Hall |- *. intros y Hy. apply Hall. now apply in_map.
Qed.

Lemma StronglySorted_map_weaken {A B : Type} (R : A -> A -> Prop)
      (R' : B -> B -> Prop) (f : A -> B) l :
  (forall a b, In a l -> In b l -> R a b -> R' (f a) (f b)) ->
  StronglySorted R l -> StronglySorted R' (map f l).
Proof.
  intros Hw H. induction H as [|x l Hs IH Hall]; simpl; [constructor|].
  constructor.
  - apply IH. intros a b Ha Hb. apply Hw; now right.
  - rewrite List.Forall_forall in Hall |- *. intros y Hy.
    apply in_map_iff in Hy as (z & <- & Hz).
    apply Hw; [now left|now right|now apply Hall].
Qed.

Lemma newest_first_safe a b :
  is_parsed a = true -> is_parsed b = true ->
  exists v, newest_first a b = Normal v.
Proof.
  unfold is_parsed, newest_first.
  destruct (dateObj a), (dateObj b); try discriminate. intros _ _.
  simpl. eauto.
Qed.

Lemma newest_first_keyed a b :
  enriched_keyed a -> enriched_keyed b ->
  newest_first a b = Normal (Num (enriched_key b - enriched_key a)).
Proof.
  intros (pa & za & Ha & Hta) (pb & zb & Hb & Htb).
  unfold newest_first, enriched_key. rewrite Ha, Hb. simpl.
  now rewrite Hta, Htb.
Qed.

Section Renderer.

Variable LocalTZA : Z -> Z.
Variable hostDateParse : string -> Number.
Hypothesis LocalTZA_bound : forall t, - msPerDay < LocalTZA t < msPerDay.

Lemma is_parsed_enrich d :
  is_parsed (enrich LocalTZA hostDateParse d)
  = parseable LocalTZA hostDateParse (date d).
Proof. reflexivity. Qed.

Lemma renderGroupedImages_sorted data :
  exists groups,
    Array_sort newest_first
      (List.filter is_parsed (map (enrich LocalTZA hostDateParse) data))
    = Normal (map (enrich LocalTZA hostDateParse) groups) /\
    Permutation groups
      (List.filter (fun d => parseable LocalTZA hostDateParse (date d)) data).
Proof.
  rewrite filter_map_comp.
  destruct (Array_sort_perm newest_first (fun e => is_parsed e = true)
              newest_first_safe
              (map (enrich LocalTZA hostDateParse)
                   (List.filter (fun d => is_parsed (enrich LocalTZA hostDateParse d)) data)))
    as (l' & Hsort & Hperm).
  { apply List.Forall_forall. intros e He.
    apply in_map_iff in He as (d & <- & Hd). now apply filter_In in Hd. }
  symmetry in Hperm.
  apply Permutation_map_inv in Hperm as (groups & -> & Hperm).
  exists groups. split; [exact Hsort|]. symmetry. exact Hperm.
Qed.

Lemma parse_2020 :
  parseDDMMYYYY LocalTZA hostDateParse "01-01-2020" =
  Some (mkParsed "2020-01-01" (Num (UTC LocalTZA 1577836800000)) "01-01-2020").
Proof.
  exact (parseDDMMYYYY_valid LocalTZA hostDateParse LocalTZA_bound
           "01" "01" "2020" 1 1 2020 eq_refl ltac:(simpl; lia)
           eq_refl ltac:(simpl; lia) eq_refl eq_refl ltac:(lia)
           ltac:(vm_compute; split; discriminate)).
Qed.

Lemma parse_2021 :
  parseDDMMYYYY LocalTZA hostDateParse "15-06-2021" =
  Some (mkParsed "2021-06-15" (Num (UTC LocalTZA 1623715200000)) "15-06-2021").
Proof.
  exact (parseDDMMYYYY_valid LocalTZA hostDateParse LocalTZA_bound
           "15" "06" "2021" 15 6 2021 eq_refl ltac:(simpl; lia)
           eq_refl ltac:(simpl; lia) eq_refl eq_refl ltac:(lia)
           ltac:(vm_compute; split; discriminate)).
Qed.

Lemma stamp_enriched_key d t :
  stamp LocalTZA hostDateParse (date d) = Some t ->
  enriched_key (enrich LocalTZA hostDateParse d) = t.
Proof.
  unfold stamp, enriched_key, enrich; simpl.
  destruct (parseDDMMYYYY LocalTZA hostDateParse (date d)) as [p|]; [|discriminate].
  destruct (ts p); [discriminate|]. now intros [= <-].
Qed.

Lemma render_two_dates a b ta tb :
  parseDDMMYYYY LocalTZA hostDateParse (date a) = Some ta ->
  parseDDMMYYYY LocalTZA hostDateParse (date b) = Some tb ->
  (exists za zb, ts ta = Num za /\ ts tb = Num zb /\ za < zb) ->
  renderGroupedImages LocalTZA hostDateParse [a; b]
    = Normal [render_group LocalTZA hostDateParse b;
              render_group LocalTZA hostDateParse a] /\
  renderGroupedImages LocalTZA hostDateParse [b; a]
    = Normal [render_group LocalTZA hostDateParse b;
              render_group LocalTZA hostDateParse a].
Proof.
  intros Ha Hb (za & zb & Hza & Hzb & Hlt).
  set (ea := enrich LocalTZA hostDateParse a).
  set (eb := enrich LocalTZA hostDateParse b).
  assert (is_parsed ea = true) as Ea by (unfold is_parsed, ea, enrich; cbn; now rewrite Ha).
  assert (is_parsed eb = true) as Eb by (unfold is_parsed, eb, enrich; cbn; now rewrite Hb).
  assert (SortCompare newest_first ea eb = Normal (zb - za)) as Cab.
  { unfold SortCompare, newest_first, ea, eb, enrich; cbn.
    rewrite Ha, Hb; cbn. now rewrite Hza, Hzb. }
  assert (SortCompare newest_first eb ea = Normal (za - zb)) as Cba.
  { unfold SortCompare, newest_first, ea, eb, enrich; cbn.
    rewrite Ha, Hb; cbn. now rewrite Hza, Hzb. }
  unfold renderGroupedImages, render_group, Array_sort.
  cbn [map List.filter]. fold ea eb. rewrite Ea, Eb.
  cbn [sort_loop insert_from_right bind]. rewrite Cab, Cba. cbn [bind].
  replace (0 <? zb - za) with true by (symmetry; apply Z.ltb_lt; lia).
  replace (0 <? za - zb) with false by (symmetry; apply Z.ltb_ge; lia).
  split; reflexivity.
Qed.

(** C2 (amended). The grouped renderer completes normally and renders
    exactly the date groups whose date parses, each once; when every date
    that parses has a number for timestamp, a group never stands above a
    newer one; and a collection of the two dates 01-01-2020 and 15-06-2021,
    in either order, is rendered with 15-06-2021 first. *)
Theorem renderGroupedImages_spec (data : NoteCollection) :
  (exists groups,
     renderGroupedImages LocalTZA hostDateParse data
       = Normal (map (render_group LocalTZA hostDateParse) groups) /\
     Permutation groups
       (List.filter (fun d => parseable LocalTZA hostDateParse (date d)) data) /\
     (stamps_are_numbers LocalTZA hostDateParse data ->
      newest_first_order LocalTZA hostDateParse
        (map (render_group LocalTZA hostDateParse) groups))) /\
  (forall s1 s2,
     let a := mkDateGroup "01-01-2020" s1 in
     let b := mkDateGroup "15-06-2021" s2 in
     renderGroupedImages LocalTZA hostDateParse [a; b]
       = Normal [render_group LocalTZA hostDateParse b;
                 render_group LocalTZA hostDateParse a] /\
     renderGroupedImages LocalTZA hostDateParse [b; a]
       = Normal [render_group LocalTZA hostDateParse b;
                 render_group LocalTZA hostDateParse a]).
Proof.
  split.
  - destruct (renderGroupedImages_sorted data) as (groups & Hsort & Hperm).
    exists groups. split; [|split; [exact Hperm|]].
    + unfold renderGroupedImages. rewrite Hsort. simpl.
      rewrite forEach_push. simpl. now rewrite map_map.
    + intros Hnum.
      assert (Forall enriched_keyed
                (List.filter is_parsed (map (enrich LocalTZA hostDateParse) data)))
        as Hkeyed.
      { apply List.Forall_forall. intros e He. apply filter_In in He as [He Hp].
        apply in_map_iff in He as (d & <- & Hd).
        unfold is_parsed in Hp. simpl in Hp.
        destruct (parseDDMMYYYY LocalTZA hostDateParse (date d)) as [q|] eqn:Eq;
          [|discriminate].
        pose proof (Hnum d q Hd Eq) as Hq.
        destruct (ts q) as [|z] eqn:Ez; [now elim Hq|].
        exists q, z. simpl. now rewrite Eq. }
      pose proof (Array_sort_sorted newest_first enriched_key enriched_keyed
                    newest_first_keyed _ _ Hkeyed Hsort) as Hsorted.
      apply StronglySorted_map in Hsorted.
      unfold newest_first_order.
      eapply StronglySorted_map_weaken; [|exact Hsorted].
      intros x y _ _ Hxy. unfold not_older, render_group. simpl.
      destruct (stamp LocalTZA hostDateParse (date x)) as [tx|] eqn:Ex; [|exact I].
      destruct (stamp LocalTZA hostDateParse (date y)) as [ty|] eqn:Ey; [|exact I].
      apply stamp_enriched_key in Ex, Ey. cbv beta in Hxy.
      rewrite Ex, Ey in Hxy. exact Hxy.
  - intros s1 s2 a b.
    apply (render_two_dates a b _ _ parse_2020 parse_2021).
    exists (UTC LocalTZA 1577836800000), (UTC LocalTZA 1623715200000).
    repeat split. unfold UTC.
    pose proof (LocalTZA_bound 1577836800000).
    pose proof (LocalTZA_bound 1623715200000).
    unfold msPerDay in *. lia.
Qed.

End Renderer.

(** ** Statistics *)

Section SortThrows.

Context {A : Type}.
Variable comparefn : A -> A -> completion Number.

(** The elements on which the comparator throws, whatever the other
    argument. *)
Variable bad : A -> Prop.
Hypothesis comparefn_bad_l : forall x y, bad x -> comparefn x y = Throw TypeError.
Hypothesis comparefn_bad_r : forall x y, bad y -> comparefn x y = Throw TypeError.

Lemma insert_from_right_not_nil x rs r :
  insert_from_right comparefn x rs = Normal r -> r <> [].
Proof.
  destruct rs as [|y rs]; simpl; [now intros [= <-]|].
  destruct (SortCompare comparefn y x) as [v|]; simpl; [|discriminate].
  destruct (0 <? v); [|now intros [= <-]].
  destruct (insert_from_right comparefn x rs); simpl; [|discriminate].
  now intros [= <-].
Qed.

Lemma insert_bad_throws x y rs :
  bad x -> insert_from_right comparefn x (y :: rs) = Throw TypeError.
Proof.
  intros Hx. simpl. unfold SortCompare. now rewrite (comparefn_bad_r y x Hx).
Qed.

Lemma sort_loop_throws todo : forall rs,
  rs <> [] -> Exists bad todo ->
  sort_loop comparefn todo rs = Throw TypeError.
Proof.
  induction todo as [|x todo IH]; intros rs Hrs Hbad; [inversion Hbad|].
  simpl. destruct rs as [|y rs]; [now elim Hrs|].
  inversion Hbad as [? ? Hx | ? ? Htodo]; subst.
  - now rewrite (insert_bad_throws x y rs Hx).
  - destruct (insert_from_right comparefn x (y :: rs)) as [r|[]] eqn:Er;
      [|reflexivity].
    simpl. apply IH; [|exact Htodo].
    now apply (insert_from_right_not_nil x (y :: rs)).
Qed.

(** A sort of two or more elements throws as soon as the comparator throws
    on one of them. *)
Lemma Array_sort_throws l :
  (2 <= length l)%nat -> Exists bad l ->
  Array_sort comparefn l = Throw TypeError.
Proof.
  destruct l as [|x [|y l]]; simpl; try lia. intros _ Hbad.
  unfold Array_sort. simpl. unfold SortCompare.
  inversion Hbad as [? ? Hx | ? ? Hrest]; subst.
  - now rewrite (comparefn_bad_l x y Hx).
  - inversion Hrest as [? ? Hy | ? ? Hl]; subst.
    + now rewrite (comparefn_bad_r x y Hy).
    + destruct (comparefn x y) as [v|[]]; [|reflexivity]. simpl.
      destruct (0 <? _); simpl; apply sort_loop_throws;
        (discriminate || exact Hl).
Qed.

End SortThrows.

Lemma Set_add_In x y s : In y (Set_add x s) <-> y = x \/ In y s.
Proof.
  unfold Set_add. destruct (existsb (String.eqb x) s) eqn:E.
  - split; [now right|]. intros [-> | H]; [|exact H].
    apply existsb_exists in E as (z & Hz & Hxz).
    apply String.eqb_eq in Hxz. now subst.
  - rewrite in_app_iff. simpl. intuition congruence.
Qed.

Lemma Set_from_fold_In y l : forall s,
  In y (fold_left (fun s x => Set_add x s) l s) <-> In y l \/ In y s.
Proof.
  induction l as [|x l IH]; intros s; simpl; [tauto|].
  rewrite IH, Set_add_In. intuition congruence.
Qed.

Lemma Set_from_In y l : In y (Set_from l) <-> In y l.
Proof. unfold Set_from. rewrite Set_from_fold_In. simpl. tauto. Qed.

Lemma two_distinct_length (l : list string) a b :
  In a l -> In b l -> a <> b -> (2 <= length l)%nat.
Proof.
  destruct l as [|x [|y l]]; simpl; try lia; try tauto.
  intros [<- | []] [<- | []] H. now elim H.
Qed.

Section Statistics.

Variable LocalTZA : Z -> Z.
Variable hostDateParse : string -> Number.

(** The comparator of [calculateStats] throws on a date that does not
    parse, and on such dates only. *)
Lemma oldest_first_throws a b :
  oldest_first LocalTZA hostDateParse a b = Throw TypeError <->
  parseDDMMYYYY LocalTZA hostDateParse a = None \/
  parseDDMMYYYY LocalTZA hostDateParse b = None.
Proof.
  unfold oldest_first.
  destruct (parseDDMMYYYY LocalTZA hostDateParse a),
           (parseDDMMYYYY LocalTZA hostDateParse b); simpl;
    split; intros H; try discriminate; auto; destruct H; discriminate.
Qed.

(** The statistics of records with two different dates, one of which does
    not parse, end in a [TypeError]. *)
Lemma calculateStats_throws records a b :
  In a (map flat_date records) -> In b (map flat_date records) -> a <> b ->
  parseDDMMYYYY LocalTZA hostDateParse a = None ->
  calculateStats LocalTZA hostDateParse records = Throw TypeError.
Proof.
  intros Ha Hb Hab Hnull. unfold calculateStats.
  rewrite (Array_sort_throws (oldest_first LocalTZA hostDateParse)
             (fun d => parseDDMMYYYY LocalTZA hostDateParse d = None)).
  - reflexivity.
  - intros x y Hx. apply oldest_first_throws. now left.
  - intros x y Hy. apply oldest_first_throws. now right.
  - apply (two_distinct_length _ a b); [..|exact Hab]; now apply Set_from_In.
  - apply List.Exists_exists. exists a. split; [now apply Set_from_In|exact Hnull].
Qed.

End Statistics.

(** Two sorts whose comparators agree on related elements run alike. *)
Section SortRelated.

Context {A B : Type}.
Variable R : A -> B -> Prop.
Variable cmpA : A -> A -> completion Number.
Variable cmpB : B -> B -> completion Number.
Hypothesis cmp_related :
  forall a a' b b', R a b -> R a' b' -> cmpA a a' = cmpB b b'.

Lemma insert_from_right_related x y rsA rsB rB :
  R x y -> Forall2 R rsA rsB ->
  insert_from_right cmpB y rsB = Normal rB ->
  exists rA, insert_from_right cmpA x rsA = Normal rA /\ Forall2 R rA rB.
Proof.
  intros Hxy Hrs. revert rB.
  induction Hrs as [|a b rsA rsB Hab Hrs IH]; intros rB; simpl.
  - intros [= <-]. exists [x]. split; [reflexivity|now repeat constructor].
  - unfold SortCompare. rewrite (cmp_related a x b y Hab Hxy).
    destruct (cmpB b y) as [v|e]; simpl; [|discriminate].
    destruct (0 <? _).
    + destruct (insert_from_right cmpB y rsB) as [r|e]; simpl; [|discriminate].
      intros [= <-]. destruct (IH r eq_refl) as (rA & -> & HrA). simpl.
      exists (a :: rA). split; [reflexivity|now constructor].
    + intros [= <-]. exists (x :: a :: rsA).
      split; [reflexivity|now repeat constructor].
Qed.

Lemma Forall2_rev_related (l : list A) (k : list B) :
  Forall2 R l k -> Forall2 R (rev l) (rev k).
Proof.
  induction 1 as [|a b l k Hab Hall IH]; simpl; [constructor|].
  apply List.Forall2_app; [exact IH|now repeat constructor].
Qed.

Lemma sort_loop_related todoA todoB :
  Forall2 R todoA todoB ->
  forall rsA rsB lB, Forall2 R rsA rsB ->
  sort_loop cmpB todoB rsB = Normal lB ->
  exists lA, sort_loop cmpA todoA rsA = Normal lA /\ Forall2 R lA lB.
Proof.
  induction 1 as [|x y todoA todoB Hxy Htodo IH]; intros rsA rsB lB Hrs; simpl.
  - intros [= <-]. exists (rev rsA). split; [reflexivity|].
    now apply Forall2_rev_related.
  - destruct (insert_from_right cmpB y rsB) as [rB|e] eqn:E; simpl; [|discriminate].
    destruct (insert_from_right_related x y rsA rsB rB Hxy Hrs E) as (rA & -> & HrA).
    simpl. now apply IH.
Qed.

Lemma Array_sort_related lA lB lB' :
  Forall2 R lA lB -> Array_sort cmpB lB = Normal lB' ->
  exists lA', Array_sort cmpA lA = Normal lA' /\ Forall2 R lA' lB'.
Proof.
  intros Hall. apply sort_loop_related; [exact Hall|constructor].
Qed.

End SortRelated.

(** ** The filter and the renderer on the store *)

Module StoreFacts.
Import Store StoreOps.

Lemma preserved_refl h : preserved h h.
Proof. intros l o H. exact H. Qed.

Lemma preserved_trans h1 h2 h3 :
  preserved h1 h2 -> preserved h2 h3 -> preserved h1 h3.
Proof. intros H12 H23 l o H. apply H23, H12, H. Qed.

Lemma preserved_insert (h : heap) l o :
  h !! l = None -> preserved h (<[l := o]> h).
Proof.
  intros Hl k o' Hk. rewrite lookup_insert_ne; [exact Hk|].
  intros ->. rewrite Hl in Hk. discriminate.
Qed.

Lemma Forall2_weaken {A B : Type} (P Q : A -> B -> Prop) l k :
  (forall a b, P a b -> Q a b) -> Forall2 P l k -> Forall2 Q l k.
Proof. intros H. induction 1; constructor; auto. Qed.

Lemma is_subject_mono h h' l s :
  preserved h h' -> is_subject h l s -> is_subject h' l s.
Proof.
  intros Hp (il & Hl & Hi). exists il. split; [now apply Hp|].
  unfold is_images in *. now apply Hp.
Qed.

Lemma is_subjects_mono h h' l ss :
  preserved h h' -> is_subjects h l ss -> is_subjects h' l ss.
Proof.
  intros Hp (ls & Hl & Hall). exists ls. split; [now apply Hp|].
  eapply Forall2_weaken; [|exact Hall]. intros a b. now apply is_subject_mono.
Qed.

Lemma is_date_mono h h' l d :
  preserved h h' -> is_date h l d -> is_date h' l d.
Proof.
  intros Hp (sl & Hl & Hs). exists sl. split; [now apply Hp|].
  now apply (is_subjects_mono h).
Qed.

Lemma is_collection_mono h h' l data :
  preserved h h' -> is_collection h l data -> is_collection h' l data.
Proof.
  intros Hp (ls & Hl & Hall). exists ls. split; [now apply Hp|].
  eapply Forall2_weaken; [|exact Hall]. intros a b. now apply is_date_mono.
Qed.

Lemma is_enriched_mono h h' l e :
  preserved h h' -> is_enriched h l e -> is_enriched h' l e.
Proof.
  intros Hp (sl & Hl & Hs). exists sl. split; [now apply Hp|].
  now apply (is_subjects_mono h).
Qed.

(** *** The primitives *)

Lemma bindM_normal {A B : Type} (m : M A) (k : A -> M B) h a h' :
  m h = Normal (a, h') -> bindM m k h = k a h'.
Proof. intros H. unfold bindM. now rewrite H. Qed.

Lemma alloc_spec o (h : heap) :
  exists l, alloc o h = Normal (l, <[l := o]> h) /\ h !! l = None.
Proof.
  exists (fresh (dom h)). split; [reflexivity|].
  apply not_elem_of_dom. apply is_fresh.
Qed.

Lemma loadRefs_eq (h : heap) l ls :
  h !! l = Some (RefArray ls) -> loadRefs l h = Normal (ls, h).
Proof. intros H. unfold loadRefs, bindM, load. now rewrite H. Qed.

Lemma loadImages_eq (h : heap) l ps :
  h !! l = Some (ImageArray ps) -> loadImages l h = Normal (ps, h).
Proof. intros H. unfold loadImages, bindM, load. now rewrite H. Qed.

Lemma loadSubjectGroup_eq (h : heap) l s i :
  h !! l = Some (SubjectGroupObj s i) -> loadSubjectGroup l h = Normal ((s, i), h).
Proof. intros H. unfold loadSubjectGroup, bindM, load. now rewrite H. Qed.

Lemma loadDateGroup_eq (h : heap) l d sl :
  h !! l = Some (DateGroupObj d sl) -> loadDateGroup l h = Normal ((d, sl), h).
Proof. intros H. unfold loadDateGroup, bindM, load. now rewrite H. Qed.

Lemma loadEnriched_eq (h : heap) l r d sl :
  h !! l = Some (EnrichedObj r d sl) -> loadEnriched l h = Normal ((r, d, sl), h).
Proof. intros H. unfold loadEnriched, bindM, load. now rewrite H. Qed.

(** *** [map] and [filter] *)

Section Traversals.

Context {A B C D : Type}.
Variable P : heap -> A -> C -> Prop.
Variable Q : heap -> B -> D -> Prop.
Hypothesis P_mono : forall h h' a c, preserved h h' -> P h a c -> P h' a c.
Hypothesis Q_mono : forall h h' b d, preserved h h' -> Q h b d -> Q h' b d.

(** A callback that reads only. *)
Lemma filterM_reads (p : A -> M bool) (q : C -> bool) h :
  (forall a c, P h a c -> p a h = Normal (q c, h)) ->
  forall l cs, Forall2 (P h) l cs ->
  exists kept, filterM p l h = Normal (kept, h) /\
               Forall2 (P h) kept (List.filter q cs).
Proof.
  intros Hp. induction 1 as [|a c l cs Hac Hall IH]; simpl.
  - exists []. split; [reflexivity|constructor].
  - destruct IH as (kept & Hk & Hkept).
    rewrite (bindM_normal _ _ _ _ _ (Hp a c Hac)).
    rewrite (bindM_normal _ _ _ _ _ Hk). unfold ret.
    destruct (q c).
    + exists (a :: kept). split; [reflexivity|now constructor].
    + exists kept. split; [reflexivity|exact Hkept].
Qed.

Lemma mapM_reads (f : A -> M D) (g : C -> D) h :
  (forall a c, P h a c -> f a h = Normal (g c, h)) ->
  forall l cs, Forall2 (P h) l cs ->
  mapM f l h = Normal (map g cs, h).
Proof.
  intros Hf. induction 1 as [|a c l cs Hac Hall IH]; simpl; [reflexivity|].
  rewrite (bindM_normal _ _ _ _ _ (Hf a c Hac)).
  now rewrite (bindM_normal _ _ _ _ _ IH).
Qed.

(** A callback that allocates. *)
Lemma mapM_rel (f : A -> M B) (g : C -> D) :
  (forall h a c, P h a c ->
     exists b h', f a h = Normal (b, h') /\ preserved h h' /\ Q h' b (g c)) ->
  forall l cs h, Forall2 (P h) l cs ->
  exists bs h', mapM f l h = Normal (bs, h') /\ preserved h h' /\
                Forall2 (Q h') bs (map g cs).
Proof.
  intros Hf l. induction l as [|a l IH]; intros cs h Hall;
    inversion Hall as [|? c ? cs' Hac Hall']; subst; simpl.
  - exists [], h. repeat split; [apply preserved_refl|constructor].
  - destruct (Hf h a c Hac) as (b & h1 & Hb & Hp1 & Hq).
    assert (Forall2 (P h1) l cs') as Hall1
      by (eapply Forall2_weaken; [|exact Hall']; intros; eapply P_mono; eauto).
    destruct (IH cs' h1 Hall1) as (bs & h2 & Hbs & Hp2 & Hqs).
    exists (b :: bs), h2.
    rewrite (bindM_normal _ _ _ _ _ Hb), (bindM_normal _ _ _ _ _ Hbs).
    repeat split; [eapply preserved_trans; eauto|].
    constructor; [eapply Q_mono; eauto|exact Hqs].
Qed.

End Traversals.

Lemma Array_slice_spec (h : heap) arr ls :
  h !! arr = Some (RefArray ls) ->
  exists l, Array_slice arr h = Normal (l, <[l := RefArray ls]> h) /\ h !! l = None.
Proof.
  intros H. unfold Array_slice.
  rewrite (bindM_normal _ _ _ _ _ (loadRefs_eq h arr ls H)).
  apply alloc_spec.
Qed.

Lemma Array_filter_spec {C : Type} (P : heap -> loc -> C -> Prop)
      (p : loc -> M bool) (q : C -> bool) (h : heap) arr ls cs :
  h !! arr = Some (RefArray ls) -> Forall2 (P h) ls cs ->
  (forall a c, P h a c -> p a h = Normal (q c, h)) ->
  exists l kept,
    Array_filter p arr h = Normal (l, <[l := RefArray kept]> h) /\
    h !! l = None /\ Forall2 (P h) kept (List.filter q cs).
Proof.
  intros Harr Hall Hp. unfold Array_filter.
  rewrite (bindM_normal _ _ _ _ _ (loadRefs_eq h arr ls Harr)).
  destruct (filterM_reads P p q h Hp ls cs Hall) as (kept & Hk & Hkept).
  rewrite (bindM_normal _ _ _ _ _ Hk).
  destruct (alloc_spec (RefArray kept) h) as (l & Hl & Hfresh).
  exists l, kept. auto.
Qed.

Lemma Array_map_spec {C D : Type} (P : heap -> loc -> C -> Prop)
      (Q : heap -> loc -> D -> Prop) (f : loc -> M loc) (g : C -> D)
      (h : heap) arr ls cs :
  (forall h h' a c, preserved h h' -> P h a c -> P h' a c) ->
  (forall h h' b d, preserved h h' -> Q h b d -> Q h' b d) ->
  (forall h a c, P h a c ->
     exists b h', f a h = Normal (b, h') /\ preserved h h' /\ Q h' b (g c)) ->
  h !! arr = Some (RefArray ls) -> Forall2 (P h) ls cs ->
  exists l bs h',
    Array_map f arr h = Normal (l, h') /\ preserved h h' /\
    h' !! l = Some (RefArray bs) /\ Forall2 (Q h') bs (map g cs).
Proof.
  intros HP HQ Hf Harr Hall. unfold Array_map.
  rewrite (bindM_normal _ _ _ _ _ (loadRefs_eq h arr ls Harr)).
  destruct (mapM_rel P Q HP HQ f g Hf ls cs h Hall) as (bs & h1 & Hbs & Hp1 & Hq).
  rewrite (bindM_normal _ _ _ _ _ Hbs).
  destruct (alloc_spec (RefArray bs) h1) as (l & Hl & Hfresh).
  exists l, bs, (<[l := RefArray bs]> h1). rewrite Hl.
  pose proof (preserved_insert h1 l (RefArray bs) Hfresh) as Hp2.
  repeat split.
  - eapply preserved_trans; eauto.
  - apply lookup_insert_eq.
  - eapply Forall2_weaken; [|exact Hq]. intros b d. now apply HQ.
Qed.

Lemma Array_sort_in_place_spec comparefn (h : heap) arr elems sorted :
  h !! arr = Some (RefArray elems) ->
  Array_sort (fun a b => eval (comparefn a b) h) elems = Normal sorted ->
  Array_sort_in_place comparefn arr h = Normal (tt, <[arr := RefArray sorted]> h).
Proof.
  intros Harr Hsort. unfold Array_sort_in_place.
  rewrite (bindM_normal _ _ _ _ _ (loadRefs_eq h arr elems Harr)).
  unfold bindM, lift. now rewrite Hsort.
Qed.

(** *** The callbacks *)

Lemma date_matches_ref_spec f (h : heap) x d :
  is_date h x d -> date_matches_ref f x h = Normal (date_matches f d, h).
Proof.
  intros (sl & Hx & _). unfold date_matches_ref.
  now rewrite (bindM_normal _ _ _ _ _ (loadDateGroup_eq h x _ sl Hx)).
Qed.

Lemma subject_is_ref_spec sel (h : heap) x s :
  is_subject h x s ->
  subject_is_ref sel x h = Normal (String.eqb (subject s) sel, h).
Proof.
  intros (il & Hx & _). unfold subject_is_ref.
  now rewrite (bindM_normal _ _ _ _ _ (loadSubjectGroup_eq h x _ il Hx)).
Qed.

Lemma has_subjects_ref_spec (h : heap) x d :
  is_date h x d -> has_subjects_ref x h = Normal (has_subjects d, h).
Proof.
  intros (sl & Hx & ls & Hsl & Hall). unfold has_subjects_ref.
  rewrite (bindM_normal _ _ _ _ _ (loadDateGroup_eq h x _ sl Hx)).
  rewrite (bindM_normal _ _ _ _ _ (loadRefs_eq h sl ls Hsl)).
  pose proof Hall as Hlen. apply Forall2_length in Hlen.
  unfold ret, has_subjects. now rewrite Hlen.
Qed.

Lemma is_parsed_ref_spec (h : heap) x e :
  is_enriched h x e -> is_parsed_ref x h = Normal (is_parsed e, h).
Proof.
  intros (sl & Hx & _). unfold is_parsed_ref.
  now rewrite (bindM_normal _ _ _ _ _ (loadEnriched_eq h x _ _ sl Hx)).
Qed.

Lemma keep_subject_ref_spec sel (h : heap) x d :
  is_date h x d ->
  exists b h', keep_subject_ref sel x h = Normal (b, h') /\ preserved h h' /\
               is_date h' b (keep_subject sel d).
Proof.
  intros (sl & Hx & ls & Hsl & Hall). unfold keep_subject_ref.
  rewrite (bindM_normal _ _ _ _ _ (loadDateGroup_eq h x _ sl Hx)).
  destruct (Array_filter_spec is_subject (subject_is_ref sel)
              (fun s => String.eqb (subject s) sel) h sl ls (subjects d) Hsl Hall
              (fun a c => subject_is_ref_spec sel h a c))
    as (l & kept & Hf & Hfresh & Hkept).
  rewrite (bindM_normal _ _ _ _ _ Hf).
  set (h1 := <[l := RefArray kept]> h).
  destruct (alloc_spec (DateGroupObj (date d) l) h1) as (b & Hb & Hbfresh).
  exists b, (<[b := DateGroupObj (date d) l]> h1). rewrite Hb.
  pose proof (preserved_insert h l (RefArray kept) Hfresh) as Hp1.
  pose proof (preserved_insert h1 b (DateGroupObj (date d) l) Hbfresh) as Hp2.
  pose proof (preserved_trans _ _ _ Hp1 Hp2) as Hp.
  repeat split; [exact Hp|].
  exists l. split; [apply lookup_insert_eq|].
  exists kept. split; [apply Hp2; apply lookup_insert_eq|].
  eapply Forall2_weaken; [|exact Hkept]. intros a c. now apply is_subject_mono.
Qed.

Lemma newest_first_ref_spec (h : heap) a b ea eb :
  is_enriched h a ea -> is_enriched h b eb ->
  eval (newest_first_ref a b) h = newest_first ea eb.
Proof.
  intros (sa & Ha & _) (sb & Hb & _). unfold eval, newest_first_ref, newest_first.
  rewrite (bindM_normal _ _ _ _ _ (loadEnriched_eq h b _ _ sb Hb)).
  unfold bindM at 1. unfold lift.
  destruct (get_ts (dateObj eb)) as [tb|e]; [|reflexivity]. simpl.
  rewrite (bindM_normal _ _ _ _ _ (loadEnriched_eq h a _ _ sa Ha)).
  unfold bindM at 1.
  destruct (get_ts (dateObj ea)) as [ta|e]; reflexivity.
Qed.

Lemma render_subject_ref_spec e (h : heap) x s :
  is_subject h x s ->
  render_subject_ref (e_raw e) x h = Normal (render_subject e s, h).
Proof.
  intros (il & Hx & Hi). unfold render_subject_ref.
  rewrite (bindM_normal _ _ _ _ _ (loadSubjectGroup_eq h x _ il Hx)).
  now rewrite (bindM_normal _ _ _ _ _ (loadImages_eq h il _ Hi)).
Qed.

Lemma render_date_ref_spec (h : heap) x e :
  is_enriched h x e -> render_date_ref x h = Normal (render_date e, h).
Proof.
  intros (sl & Hx & ls & Hsl & Hall). unfold render_date_ref.
  rewrite (bindM_normal _ _ _ _ _ (loadEnriched_eq h x _ _ sl Hx)).
  rewrite (bindM_normal _ _ _ _ _ (loadRefs_eq h sl ls Hsl)).
  rewrite (bindM_normal _ _ _ _ _
             (mapM_reads is_subject (render_subject_ref (e_raw e)) (render_subject e) h
                (fun a c => render_subject_ref_spec e h a c) ls (e_subjects e) Hall)).
  unfold ret, render_date. now rewrite forEach_push.
Qed.

End StoreFacts.

Section StorePrograms.

Variable LocalTZA : Z -> Z.
Variable hostDateParse : string -> Number.

Lemma enrich_ref_spec (h : heap) x d :
  is_date h x d ->
  exists b h', StoreOps.enrich_ref LocalTZA hostDateParse x h = Normal (b, h') /\
               preserved h h' /\
               is_enriched h' b (enrich LocalTZA hostDateParse d).
Proof.
  intros (sl & Hx & Hs). unfold StoreOps.enrich_ref.
  rewrite (StoreFacts.bindM_normal _ _ _ _ _ (StoreFacts.loadDateGroup_eq h x _ sl Hx)).
  destruct (StoreFacts.alloc_spec
              (EnrichedObj (date d) (parseDDMMYYYY LocalTZA hostDateParse (date d)) sl) h)
    as (b & -> & Hfresh).
  eexists _, _. split; [reflexivity|].
  pose proof (StoreFacts.preserved_insert h b
                (EnrichedObj (date d) (parseDDMMYYYY LocalTZA hostDateParse (date d)) sl)
                Hfresh) as Hp.
  split; [exact Hp|]. exists sl. split; [apply lookup_insert_eq|].
  now apply (StoreFacts.is_subjects_mono h).
Qed.

Lemma dateStage_store st (h : heap) a data :
  is_collection h a data ->
  exists out h', StoreOps.dateStage st a h = Normal (out, h') /\
                 preserved h h' /\ is_collection h' out (dateStage st data).
Proof.
  intros Hc. unfold StoreOps.dateStage, dateStage.
  destruct (filterState_date st), (getSelectedDateFilters st) as [f|];
    try (exists a, h; repeat split; [apply StoreFacts.preserved_refl|exact Hc]).
  destruct Hc as (ls & Ha & Hall).
  destruct (StoreFacts.Array_filter_spec is_date (StoreOps.date_matches_ref f)
              (date_matches f) h a ls data Ha Hall
              (fun x d => StoreFacts.date_matches_ref_spec f h x d))
    as (l & kept & -> & Hfresh & Hkept).
  eexists _, _. split; [reflexivity|].
  pose proof (StoreFacts.preserved_insert h l (RefArray kept) Hfresh) as Hp.
  split; [exact Hp|]. exists kept. split; [apply lookup_insert_eq|].
  eapply StoreFacts.Forall2_weaken; [|exact Hkept].
  intros x d. now apply StoreFacts.is_date_mono.
Qed.

Lemma subjectStage_store st (h : heap) a data :
  is_collection h a data ->
  exists out h', StoreOps.subjectStage st a h = Normal (out, h') /\
                 preserved h h' /\ is_collection h' out (subjectStage st data).
Proof.
  intros Hc. unfold StoreOps.subjectStage, subjectStage.
  destruct (filterState_subject st), (getSelectedSubject st) as [sel|];
    try (exists a, h; repeat split; [apply StoreFacts.preserved_refl|exact Hc]).
  destruct Hc as (ls & Ha & Hall).
  destruct (StoreFacts.Array_map_spec is_date is_date
              (StoreOps.keep_subject_ref sel) (keep_subject sel) h a ls data
              StoreFacts.is_date_mono StoreFacts.is_date_mono
              (fun h' x d => StoreFacts.keep_subject_ref_spec sel h' x d) Ha Hall)
    as (m & bs & h1 & Hm & Hp1 & Hbs & Hmapped).
  rewrite (StoreFacts.bindM_normal _ _ _ _ _ Hm).
  destruct (StoreFacts.Array_filter_spec is_date StoreOps.has_subjects_ref
              has_subjects h1 m bs (map (keep_subject sel) data) Hbs Hmapped
              (fun x d => StoreFacts.has_subjects_ref_spec h1 x d))
    as (l & kept & -> & Hfresh & Hkept).
  eexists _, _. split; [reflexivity|].
  pose proof (StoreFacts.preserved_insert h1 l (RefArray kept) Hfresh) as Hp2.
  split; [eapply StoreFacts.preserved_trans; eauto|].
  exists kept. split; [apply lookup_insert_eq|].
  eapply StoreFacts.Forall2_weaken; [|exact Hkept].
  intros x d. now apply StoreFacts.is_date_mono.
Qed.

Lemma renderGroupedImages_store (h : heap) a data :
  is_collection h a data ->
  exists shown h',
    StoreOps.renderGroupedImages LocalTZA hostDateParse a h = Normal (shown, h') /\
    preserved h h' /\
    renderGroupedImages LocalTZA hostDateParse data = Normal shown.
Proof.
  intros (ls & Ha & Hall). unfold StoreOps.renderGroupedImages.
  destruct (StoreFacts.Array_map_spec is_date is_enriched
              (StoreOps.enrich_ref LocalTZA hostDateParse)
              (enrich LocalTZA hostDateParse) h a ls data
              StoreFacts.is_date_mono StoreFacts.is_enriched_mono
              enrich_ref_spec Ha Hall)
    as (m & bs & h1 & Hm & Hp1 & Hbs & Hmapped).
  rewrite (StoreFacts.bindM_normal _ _ _ _ _ Hm).
  destruct (StoreFacts.Array_filter_spec is_enriched StoreOps.is_parsed_ref
              is_parsed h1 m bs _ Hbs Hmapped
              (fun x e => StoreFacts.is_parsed_ref_spec h1 x e))
    as (e & kept & He & Hfresh & Hkept).
  rewrite (StoreFacts.bindM_normal _ _ _ _ _ He).
  set (h2 := <[e := RefArray kept]> h1).
  pose proof (StoreFacts.preserved_insert h1 e (RefArray kept) Hfresh) as Hp2.
  destruct (renderGroupedImages_sorted LocalTZA hostDateParse data)
    as (groups & Hsort & _).
  assert (forall x x' y y', is_enriched h1 x y -> is_enriched h1 x' y' ->
            Store.eval (StoreOps.newest_first_ref x x') h2 = newest_first y y')
    as Hcmp.
  { intros x x' y y' Hx Hx'. apply StoreFacts.newest_first_ref_spec;
      now apply (StoreFacts.is_enriched_mono h1). }
  destruct (Array_sort_related (is_enriched h1)
              (fun x y => Store.eval (StoreOps.newest_first_ref x y) h2)
              newest_first Hcmp kept _ _ Hkept Hsort)
    as (sorted & Hsorted & Hrel).
  assert (h2 !! e = Some (RefArray kept)) as He2 by apply lookup_insert_eq.
  rewrite (StoreFacts.bindM_normal _ _ _ _ _
             (StoreFacts.Array_sort_in_place_spec _ h2 e kept sorted He2 Hsorted)).
  set (h3 := <[e := RefArray sorted]> h2).
  assert (h3 !! e = Some (RefArray sorted)) as He3 by apply lookup_insert_eq.
  rewrite (StoreFacts.bindM_normal _ _ _ _ _ (StoreFacts.loadRefs_eq h3 e sorted He3)).
  assert (preserved h1 h3) as Hp3.
  { intros l o Hl. unfold h3, h2.
    assert (e <> l) by (intros ->; rewrite Hfresh in Hl; discriminate).
    now rewrite !lookup_insert_ne. }
  assert (Forall2 (is_enriched h3) sorted (map (enrich LocalTZA hostDateParse) groups))
    as Hrel3.
  { eapply StoreFacts.Forall2_weaken; [|exact Hrel].
    intros x y. now apply StoreFacts.is_enriched_mono. }
  rewrite (StoreFacts.mapM_reads is_enriched StoreOps.render_date_ref render_date h3
             (fun x y => StoreFacts.render_date_ref_spec h3 x y) _ _ Hrel3).
  eexists _, h3. split; [reflexivity|]. split.
  - eapply StoreFacts.preserved_trans; eauto.
  - unfold renderGroupedImages. rewrite Hsort. simpl. now rewrite forEach_push.
Qed.

Lemma filters_disabled st data :
  filterState_date st = false -> filterState_subject st = false ->
  applyCombinedFilter st data = data.
Proof.
  intros Hd Hs. unfold applyCombinedFilter, subjectStage, dateStage.
  now rewrite Hd, Hs.
Qed.

(** C9. Run on a store in which [galleryData] refers to a collection, the
    filter engine completes normally and leaves every object of that store
    as it was, so that [galleryData] still refers to the same collection;
    the reference it hands to the renderer stands for the filtered
    collection and the renderer shows its grouped view; with both toggles
    off that collection is the input collection. *)
Theorem applyCombinedFilter_preserves_input
        (st : FilterState) (h : heap) (galleryData : loc) (data : NoteCollection) :
  is_collection h galleryData data ->
  exists filteredData shown h',
    StoreOps.applyCombinedFilter LocalTZA hostDateParse st galleryData h
      = Normal ((filteredData, shown), h') /\
    (forall l o, h !! l = Some o -> h' !! l = Some o) /\
    is_collection h' galleryData data /\
    is_collection h' filteredData (applyCombinedFilter st data) /\
    renderGroupedImages LocalTZA hostDateParse (applyCombinedFilter st data)
      = Normal shown /\
    (filterState_date st = false -> filterState_subject st = false ->
     is_collection h' filteredData data).
Proof.
  intros Hc. unfold StoreOps.applyCombinedFilter.
  destruct Hc as (ls & Hg & Hall).
  destruct (StoreFacts.Array_slice_spec h galleryData ls Hg) as (c & Hslice & Hfresh).
  rewrite (StoreFacts.bindM_normal _ _ _ _ _ Hslice).
  set (h0 := <[c := RefArray ls]> h).
  pose proof (StoreFacts.preserved_insert h c (RefArray ls) Hfresh) as Hp0.
  assert (is_collection h0 c data) as Hc0.
  { exists ls. split; [apply lookup_insert_eq|].
    eapply StoreFacts.Forall2_weaken; [|exact Hall].
    intros x d. now apply StoreFacts.is_date_mono. }
  destruct (dateStage_store st h0 c data Hc0) as (d1 & h1 & Hd1 & Hp1 & Hc1).
  rewrite (StoreFacts.bindM_normal _ _ _ _ _ Hd1).
  destruct (subjectStage_store st h1 d1 _ Hc1) as (d2 & h2 & Hd2 & Hp2 & Hc2).
  rewrite (StoreFacts.bindM_normal _ _ _ _ _ Hd2).
  destruct (renderGroupedImages_store h2 d2 _ Hc2) as (shown & h3 & Hr & Hp3 & Hshown).
  rewrite (StoreFacts.bindM_normal _ _ _ _ _ Hr).
  assert (preserved h h3) as Hp.
  { apply (StoreFacts.preserved_trans h h0 h3 Hp0).
    apply (StoreFacts.preserved_trans h0 h1 h3 Hp1).
    apply (StoreFacts.preserved_trans h1 h2 h3 Hp2 Hp3). }
  assert (is_collection h3 d2 (applyCombinedFilter st data)) as Hout
    by (now apply (StoreFacts.is_collection_mono h2)).
  exists d2, shown, h3. split; [reflexivity|]. split; [exact Hp|].
  split; [apply (StoreFacts.is_collection_mono h); [exact Hp|now exists ls]|].
  split; [exact Hout|]. split; [exact Hshown|].
  intros Hd Hs. now rewrite <- (filters_disabled st data Hd Hs).
Qed.

End StorePrograms.

(** ** Collections in the store *)

(** What [new_collection] builds is the collection it was given. *)
Lemma new_subject_spec (h : heap) s :
  exists l h', new_subject s h = Normal (l, h') /\ preserved h h' /\
               is_subject h' l s.
Proof.
  unfold new_subject.
  destruct (StoreFacts.alloc_spec (ImageArray (images s)) h) as (il & Hil & Hfresh).
  rewrite (StoreFacts.bindM_normal _ _ _ _ _ Hil).
  set (h1 := <[il := ImageArray (images s)]> h).
  destruct (StoreFacts.alloc_spec (SubjectGroupObj (subject s) il) h1)
    as (l & -> & Hfresh').
  eexists _, _. split; [reflexivity|].
  pose proof (StoreFacts.preserved_insert h il (ImageArray (images s)) Hfresh) as Hp1.
  pose proof (StoreFacts.preserved_insert h1 l (SubjectGroupObj (subject s) il) Hfresh')
    as Hp2.
  split; [eapply StoreFacts.preserved_trans; eauto|].
  exists il. split; [apply lookup_insert_eq|].
  apply Hp2. apply lookup_insert_eq.
Qed.

Lemma new_date_spec (h : heap) d :
  exists l h', new_date d h = Normal (l, h') /\ preserved h h' /\ is_date h' l d.
Proof.
  unfold new_date.
  destruct (StoreFacts.mapM_rel (fun _ (a c : SubjectGroup) => a = c) is_subject
              (fun _ _ _ _ _ H => H) StoreFacts.is_subject_mono
              new_subject (fun s => s)
              ltac:(intros h0 a c <-; apply new_subject_spec)
              (subjects d) (subjects d) h)
    as (ls & h1 & Hls & Hp1 & Hrel).
  { clear. induction (subjects d); constructor; auto. }
  rewrite map_id in Hrel.
  rewrite (StoreFacts.bindM_normal _ _ _ _ _ Hls).
  destruct (StoreFacts.alloc_spec (RefArray ls) h1) as (sl & Hsl & Hfresh).
  rewrite (StoreFacts.bindM_normal _ _ _ _ _ Hsl).
  set (h2 := <[sl := RefArray ls]> h1).
  destruct (StoreFacts.alloc_spec (DateGroupObj (date d) sl) h2) as (l & -> & Hfresh').
  eexists _, _. split; [reflexivity|].
  pose proof (StoreFacts.preserved_insert h1 sl (RefArray ls) Hfresh) as Hp2.
  pose proof (StoreFacts.preserved_insert h2 l (DateGroupObj (date d) sl) Hfresh') as Hp3.
  split.
  - apply (StoreFacts.preserved_trans h h1 _ Hp1).
    apply (StoreFacts.preserved_trans h1 h2 _ Hp2 Hp3).
  - exists sl. split; [apply lookup_insert_eq|].
    exists ls. split; [apply Hp3; apply lookup_insert_eq|].
    eapply StoreFacts.Forall2_weaken; [|exact Hrel].
    intros a c. apply StoreFacts.is_subject_mono.
    apply (StoreFacts.preserved_trans h1 h2 _ Hp2 Hp3).
Qed.

Lemma new_collection_spec (h : heap) data :
  exists l h', new_collection data h = Normal (l, h') /\ preserved h h' /\
               is_collection h' l data.
Proof.
  unfold new_collection.
  destruct (StoreFacts.mapM_rel (fun _ (a c : DateGroup) => a = c) is_date
              (fun _ _ _ _ _ H => H) StoreFacts.is_date_mono
              new_date (fun d => d)
              ltac:(intros h0 a c <-; apply new_date_spec)
              data data h)
    as (ls & h1 & Hls & Hp1 & Hrel).
  { clear. induction data; constructor; auto. }
  rewrite map_id in Hrel.
  rewrite (StoreFacts.bindM_normal _ _ _ _ _ Hls).
  destruct (StoreFacts.alloc_spec (RefArray ls) h1) as (l & -> & Hfresh).
  eexists _, _. split; [reflexivity|].
  pose proof (StoreFacts.preserved_insert h1 l (RefArray ls) Hfresh) as Hp2.
  split; [eapply StoreFacts.preserved_trans; eauto|].
  exists ls. split; [apply lookup_insert_eq|].
  eapply StoreFacts.Forall2_weaken; [|exact Hrel].
  intros a c. now apply StoreFacts.is_date_mono.
Qed.

(** A reference stands for at most one collection. *)
Lemma Forall2_functional {A B : Type} (R : A -> B -> Prop) l k k' :
  (forall a b b', R a b -> R a b' -> b = b') ->
  Forall2 R l k -> Forall2 R l k' -> k = k'.
Proof.
  intros HR H. revert k'. induction H as [|a b l k Hab H IH]; intros k' H';
    inversion H' as [|? b' ? k'' Hab' H'']; subst; [reflexivity|].
  f_equal; [eapply HR; eauto|now apply IH].
Qed.

Lemma is_subject_functional (h : heap) l s s' :
  is_subject h l s -> is_subject h l s' -> s = s'.
Proof.
  intros (il & Hl & Hi) (il' & Hl' & Hi'). unfold is_images in *.
  rewrite Hl in Hl'. injection Hl' as Hs <-. rewrite Hi in Hi'.
  injection Hi' as Hp. destruct s, s'; simpl in *. now subst.
Qed.

Lemma is_date_functional (h : heap) l d d' :
  is_date h l d -> is_date h l d' -> d = d'.
Proof.
  intros (sl & Hl & ls & Hsl & Hall) (sl' & Hl' & ls' & Hsl' & Hall').
  rewrite Hl in Hl'. injection Hl' as Hd <-. rewrite Hsl in Hsl'.
  injection Hsl' as <-.
  pose proof (Forall2_functional _ _ _ _ (is_subject_functional h) Hall Hall') as Hs.
  destruct d, d'; simpl in *. now subst.
Qed.

Lemma is_collection_functional (h : heap) l data data' :
  is_collection h l data -> is_collection h l data' -> data = data'.
Proof.
  intros (ls & Hl & Hall) (ls' & Hl' & Hall').
  rewrite Hl in Hl'. injection Hl' as <-.
  exact (Forall2_functional _ _ _ _ (is_date_functional h) Hall Hall').
Qed.

(** ** The programs on concrete hosts and data *)

Lemma fixedOffset_bound minutes :
  -1440 < minutes < 1440 ->
  forall t, - msPerDay < fixedOffset minutes t < msPerDay.
Proof. intros H t. unfold fixedOffset, msPerDay, msPerMinute. lia. Qed.

(** C1. On records with a date that does not parse next to another date,
    here the sample data with "21/12/2009" for its first date, the
    statistics do not return: the comparator of the sort reads [.ts] of
    [null] and the call ends in a [TypeError], on every host. *)
Theorem calculateStats_malformed_date
        (LocalTZA : Z -> Z) (hostDateParse : string -> Number) :
  calculateStats LocalTZA hostDateParse (getFlattenedImages slashedData)
  = Throw TypeError.
Proof.
  apply (calculateStats_throws LocalTZA hostDateParse _ "21/12/2009" "10-01-2010").
  - simpl. now left.
  - simpl. right. now left.
  - discriminate.
  - reflexivity.
Qed.

Lemma parseDDMMYYYY_spec_witness :
  parseDDMMYYYY (fixedOffset 330) strictParse "5-3-2021" =
  Some {| iso := "2021-03-05"; ts := Num 1614882600000; raw := "5-3-2021" |}.
Proof.
  exact (proj2 (parseDDMMYYYY_spec (fixedOffset 330) strictParse
                  (fixedOffset_bound 330 ltac:(lia)))
           "5" "3" "2021" 5 3 2021
           eq_refl ltac:(simpl; lia) eq_refl ltac:(simpl; lia) eq_refl eq_refl
           ltac:(lia) ltac:(vm_compute; split; discriminate)).
Defined.

Lemma date_filter_spec_witness :
  applyCombinedFilter (mkFilterState false true "" "" "10" "") scenario = scenario.
Proof.
  assert (some_field_selected (mkFilterState false true "" "" "10" "")) as Hsel
    by (right; left; simpl; discriminate).
  destruct (date_filter_spec (mkFilterState false true "" "" "10" "") scenario eq_refl)
    as [H _].
  destruct (H Hsel) as [_ Heq]. rewrite Heq. reflexivity.
Defined.

Lemma subject_filter_spec_witness :
  applyCombinedFilter (mkFilterState true false "Physics" "" "" "") scenario =
  [ mkDateGroup "11-10-2025" [ mkSubjectGroup "Physics" ["b.jpg"; "c.jpg"] ] ].
Proof.
  assert (subject_filter (mkFilterState true false "Physics" "" "" "") <> "") as Hsel
    by (simpl; discriminate).
  exact (proj1 (subject_filter_spec (mkFilterState true false "Physics" "" "" "")
                  scenario eq_refl Hsel)).
Defined.

Lemma stages_commute_witness :
  dateStage (mkFilterState true true "Physics" "11" "" "")
    (subjectStage (mkFilterState true true "Physics" "11" "" "") scenario)
  = [ mkDateGroup "11-10-2025" [ mkSubjectGroup "Physics" ["b.jpg"; "c.jpg"] ] ].
Proof.
  assert (some_field_selected (mkFilterState true true "Physics" "11" "" "")) as Hdate
    by (left; simpl; discriminate).
  assert (subject_filter (mkFilterState true true "Physics" "11" "" "") <> "") as Hsel
    by (simpl; discriminate).
  exact (stages_commute (mkFilterState true true "Physics" "11" "" "") scenario
           eq_refl Hdate eq_refl Hsel).
Defined.

Lemma sampleData_stamps :
  stamps_are_numbers (fixedOffset 330) strictParse sampleData.
Proof.
  intros d p [<- | [<- | []]] H; vm_compute in H; injection H as <-; discriminate.
Qed.

Lemma renderGroupedImages_spec_witness :
  (exists groups,
     renderGroupedImages (fixedOffset 330) strictParse sampleData
       = Normal (map (render_group (fixedOffset 330) strictParse) groups) /\
     newest_first_order (fixedOffset 330) strictParse
       (map (render_group (fixedOffset 330) strictParse) groups)) /\
  renderGroupedImages (fixedOffset 330) strictParse
    [mkDateGroup "01-01-2020" []; mkDateGroup "15-06-2021" []]
  = Normal [mkDateSection "15-06-2021" []; mkDateSection "01-01-2020" []].
Proof.
  destruct (renderGroupedImages_spec (fixedOffset 330) strictParse
              (fixedOffset_bound 330 ltac:(lia)) sampleData)
    as [(groups & Hr & _ & Hs) Hex].
  split.
  - exists groups. split; [exact Hr|exact (Hs sampleData_stamps)].
  - exact (proj1 (Hex [] [])).
Defined.

(** The claim C2 as the specification states it fails on three dates of
    which the second has month 13: its timestamp is NaN, the comparator
    answers NaN against both neighbours, and 01-01-2020 stays above
    15-06-2021. *)
Lemma renderGroupedImages_not_newest_first :
  exists out,
    renderGroupedImages (fixedOffset 0) strictParse thirteenthMonth = Normal out /\
    map date_heading out = ["01-01-2020"; "01-13-2021"; "15-06-2021"] /\
    ~ newest_first_order (fixedOffset 0) strictParse out.
Proof.
  eexists. split; [vm_compute; reflexivity|]. split; [reflexivity|].
  intros H. inversion H as [|? ? _ Hall]; subst.
  inversion Hall as [|? ? _ Hall']; subst.
  inversion Hall' as [|? ? Hlast _]; subst.
  vm_compute in Hlast. now apply Hlast.
Qed.

Lemma applyCombinedFilter_preserves_input_witness :
  exists filteredData shown h',
    StoreOps.applyCombinedFilter (fixedOffset 330) strictParse
      (mkFilterState true false "Physics" "" "" "") 5%positive smallStore
      = Normal ((filteredData, shown), h') /\
    (forall l o, smallStore !! l = Some o -> h' !! l = Some o) /\
    is_collection h' 5%positive smallData /\
    is_collection h' filteredData smallData.
Proof.
  destruct (applyCombinedFilter_preserves_input (fixedOffset 330) strictParse
              (mkFilterState true false "Physics" "" "" "") smallStore 5%positive
              smallData)
    as (out & shown & h' & Hrun & Hframe & Hin & Hout & _).
  - exists [4%positive]. split; [reflexivity|].
    constructor; [|constructor].
    exists 3%positive. split; [reflexivity|].
    exists [2%positive]. split; [reflexivity|].
    constructor; [|constructor].
    exists 1%positive. split; reflexivity.
  - exists out, shown, h'. repeat split; assumption.
Defined.

(** * Further properties *)

(** ** [split], [join] and [padStart] *)

Lemma join_cons sep piece rest :
  rest <> [] -> join sep (piece :: rest) = (piece ++ String sep (join sep rest))%string.
Proof. destruct rest; [intros H; now elim H|reflexivity]. Qed.

Lemma join_split sep s : join sep (JsString.split sep s) = s.
Proof.
  induction s as [|c s IH]; simpl; [reflexivity|].
  pose proof (split_not_nil sep s) as Hne.
  destruct (Ascii.eqb c sep) eqn:E.
  - apply Ascii.eqb_eq in E. subst c.
    rewrite (join_cons sep EmptyString _ Hne), IH. reflexivity.
  - destruct (JsString.split sep s) as [|q qs] eqn:Es; [now elim Hne|].
    destruct qs as [|q' qs].
    + simpl in *. now rewrite IH.
    + rewrite join_cons in * by discriminate. rewrite append_cons. now rewrite IH.
Qed.

Lemma split_pieces_no_sep sep s piece :
  In piece (JsString.split sep s) -> JsString.count sep piece = O.
Proof.
  revert piece. induction s as [|c s IH]; simpl; intros piece.
  - intros [<- | []]. reflexivity.
  - destruct (Ascii.eqb c sep) eqn:E.
    + intros [<- | H]; [reflexivity|now apply IH].
    + destruct (JsString.split sep s) as [|q qs] eqn:Es.
      * intros [<- | []]. simpl. now rewrite E.
      * intros [<- | H].
        -- simpl. rewrite E. apply IH. now left.
        -- apply IH. now right.
Qed.

Lemma split_three sep a b c :
  JsString.count sep a = O -> JsString.count sep b = O -> JsString.count sep c = O ->
  JsString.split sep (a ++ String sep (b ++ String sep c))%string = [a; b; c].
Proof.
  intros Ha Hb Hc.
  now rewrite (split_app sep a), (split_app sep b), (split_no_sep sep c).
Qed.

Lemma truthy_append a c b : JsString.truthy (a ++ String c b)%string = true.
Proof. destruct a; reflexivity. Qed.

Lemma length_append a b :
  String.length (a ++ b)%string = (String.length a + String.length b)%nat.
Proof.
  induction a as [|c a IH]; [reflexivity|].
  rewrite append_cons. simpl. now rewrite IH.
Qed.

Lemma length_repeat_unit c n : String.length (JsString.repeat_unit c n) = n.
Proof. induction n; simpl; congruence. Qed.

Lemma count_append sep a b :
  JsString.count sep (a ++ b)%string
  = (JsString.count sep a + JsString.count sep b)%nat.
Proof.
  induction a as [|c a IH]; [reflexivity|].
  rewrite append_cons. simpl. destruct (Ascii.eqb c sep); simpl; now rewrite IH.
Qed.

Lemma count_repeat_unit sep c n :
  Ascii.eqb c sep = false -> JsString.count sep (JsString.repeat_unit c n) = O.
Proof. intros H. induction n; simpl; [reflexivity|now rewrite H]. Qed.

Lemma padStart_long n c s :
  (n <= String.length s)%nat -> JsString.padStart n c s = s.
Proof.
  intros H. unfold JsString.padStart.
  replace (n - String.length s)%nat with O by lia. reflexivity.
Qed.

Lemma length_padStart n c s : (n <= String.length (JsString.padStart n c s))%nat.
Proof.
  unfold JsString.padStart. rewrite length_append, length_repeat_unit. lia.
Qed.

Lemma count_padStart s :
  JsString.count "-" (JsString.padStart 2 "0" s) = JsString.count "-" s.
Proof.
  unfold JsString.padStart. rewrite count_append, count_repeat_unit; reflexivity.
Qed.

(** ** [toDDMMYYYYFromISO] *)

Lemma toDDMMYYYYFromISO_pieces a b c :
  JsString.count "-" a = O -> JsString.count "-" b = O -> JsString.count "-" c = O ->
  toDDMMYYYYFromISO (a ++ String "-" (b ++ String "-" c))%string
  = Some (c ++ String "-" (b ++ String "-" a))%string.
Proof.
  intros Ha Hb Hc. unfold toDDMMYYYYFromISO.
  now rewrite truthy_append, split_three.
Qed.

Lemma split_three_inv sep s a b c :
  JsString.split sep s = [a; b; c] ->
  s = (a ++ String sep (b ++ String sep c))%string /\
  JsString.count sep a = O /\ JsString.count sep b = O /\ JsString.count sep c = O.
Proof.
  intros H. split.
  - rewrite <- (join_split sep s), H. reflexivity.
  - repeat split; apply (split_pieces_no_sep sep s); rewrite H; simpl; auto.
Qed.

(** X1. Converting twice gives the string back: what
    [toDDMMYYYYFromISO] answers for a string is converted back to that
    string. *)
Theorem toDDMMYYYYFromISO_involutive (s t : string) :
  toDDMMYYYYFromISO s = Some t -> toDDMMYYYYFromISO t = Some s.
Proof.
  unfold toDDMMYYYYFromISO at 1.
  destruct (negb (JsString.truthy s)); [discriminate|].
  destruct (JsString.split "-" s) as [|a [|b [|c [|e l]]]] eqn:E; try discriminate.
  intros [= <-].
  destruct (split_three_inv "-" s a b c E) as (-> & Ha & Hb & Hc).
  now apply toDDMMYYYYFromISO_pieces.
Qed.

Lemma toDDMMYYYYFromISO_involutive_witness :
  toDDMMYYYYFromISO "05-03-2021" = Some "2021-03-05".
Proof. exact (toDDMMYYYYFromISO_involutive "2021-03-05" "05-03-2021" eq_refl). Defined.

(** X2. [toDDMMYYYYFromISO] answers [null] exactly for the strings that do
    not hold two hyphens; otherwise it answers the three pieces in reverse
    order, a string of the same length. *)
Theorem toDDMMYYYYFromISO_null (s : string) :
  (toDDMMYYYYFromISO s = None <-> JsString.count "-" s <> 2%nat) /\
  (forall t, toDDMMYYYYFromISO s = Some t ->
     String.length t = String.length s /\ JsString.count "-" t = 2%nat).
Proof.
  pose proof (length_split "-" s) as Hlen.
  unfold toDDMMYYYYFromISO. split.
  - destruct (JsString.truthy s) eqn:Et; simpl.
    + destruct (JsString.split "-" s) as [|a [|b [|c [|e l]]]]; simpl in Hlen;
        split; intros H; try reflexivity; try discriminate; try lia.
    + apply truthy_false_iff in Et. subst s. split; [intros _; simpl; lia|reflexivity].
  - intros t. destruct (negb (JsString.truthy s)); [discriminate|].
    destruct (JsString.split "-" s) as [|a [|b [|c [|e l]]]] eqn:E; try discriminate.
    intros [= <-].
    destruct (split_three_inv "-" s a b c E) as (-> & Ha & Hb & Hc).
    change ("-" ++ b ++ "-" ++ a)%string with (String "-" (b ++ String "-" a)).
    rewrite !length_append, !count_append. simpl.
    rewrite !length_append, !count_append. simpl. rewrite Ha, Hb, Hc. lia.
Qed.

Section IsoRoundTrip.

Variable LocalTZA : Z -> Z.
Variable hostDateParse : string -> Number.

(** X3. The ISO form of a parsed date converts back, by
    [toDDMMYYYYFromISO], to a date that parses to the same ISO form and the
    same timestamp; it is the parsed string itself when its day and month
    are written with two code units or more. *)
Theorem parseDDMMYYYY_iso_round_trip (s : string) (p : ParsedDate) :
  parseDDMMYYYY LocalTZA hostDateParse s = Some p ->
  exists t,
    toDDMMYYYYFromISO (iso p) = Some t /\
    (exists p', parseDDMMYYYY LocalTZA hostDateParse t = Some p' /\
                iso p' = iso p /\ ts p' = ts p) /\
    (forall dd mm yyyy,
        JsString.split "-" s = [dd; mm; yyyy] ->
        (2 <= String.length dd)%nat -> (2 <= String.length mm)%nat -> t = s).
Proof.
  unfold parseDDMMYYYY at 1.
  destruct (JsString.split "-" s) as [|dd [|mm [|yyyy [|e l]]]] eqn:E; try discriminate.
  intros [= <-]. cbn [iso ts].
  destruct (split_three_inv "-" s dd mm yyyy E) as (Hs & Hdd & Hmm & Hyyyy).
  set (dd' := JsString.padStart 2 "0" dd). set (mm' := JsString.padStart 2 "0" mm).
  assert (JsString.count "-" dd' = O) as Hdd' by (unfold dd'; now rewrite count_padStart).
  assert (JsString.count "-" mm' = O) as Hmm' by (unfold mm'; now rewrite count_padStart).
  exists (dd' ++ String "-" (mm' ++ String "-" yyyy))%string.
  split; [now apply toDDMMYYYYFromISO_pieces|]. split.
  - unfold parseDDMMYYYY. rewrite split_three by assumption.
    fold dd' mm'.
    rewrite (padStart_long 2 "0" dd') by apply length_padStart.
    rewrite (padStart_long 2 "0" mm') by apply length_padStart.
    eexists. split; [reflexivity|]. split; reflexivity.
  - intros dd0 mm0 yyyy0 [= <- <- <-] Hld Hlm. unfold dd', mm'.
    rewrite !padStart_long by assumption. now rewrite Hs.
Qed.

End IsoRoundTrip.

Lemma parseDDMMYYYY_iso_round_trip_witness :
  exists t,
    toDDMMYYYYFromISO "2021-03-05" = Some t /\
    (exists p', parseDDMMYYYY (fixedOffset 330) strictParse t = Some p' /\
                iso p' = "2021-03-05" /\ ts p' = Num 1614882600000) /\
    (forall dd mm yyyy,
        JsString.split "-" "5-3-2021" = [dd; mm; yyyy] ->
        (2 <= String.length dd)%nat -> (2 <= String.length mm)%nat ->
        t = "5-3-2021").
Proof.
  exact (parseDDMMYYYY_iso_round_trip (fixedOffset 330) strictParse "5-3-2021"
           (mkParsed "2021-03-05" (Num 1614882600000) "5-3-2021") eq_refl).
Defined.

(** ** The filter on flat records *)

Lemma records_in_order_cons d data :
  records_in_order (d :: data) = records_of_date d ++ records_in_order data.
Proof. reflexivity. Qed.

Lemma filter_records_by_date (q : string -> bool) d :
  List.filter (fun r => q (flat_date r)) (records_of_date d)
  = if q (date d) then records_of_date d else [].
Proof.
  unfold records_of_date.
  induction (subjects d) as [|s l IH]; simpl; [now destruct (q (date d))|].
  rewrite List.filter_app, IH.
  assert (List.filter (fun r => q (flat_date r))
            (map (fun p => mkFlat (date d) (subject s) p) (images s))
          = if q (date d) then map (fun p => mkFlat (date d) (subject s) p) (images s)
            else []) as ->.
  { induction (images s) as [|p ps IHp]; simpl; [now destruct (q (date d))|].
    rewrite IHp. now destruct (q (date d)). }
  now destruct (q (date d)).
Qed.

Lemma filter_records_by_subject sel d :
  List.filter (fun r => String.eqb (flat_subject r) sel) (records_of_date d)
  = records_of_date (keep_subject sel d).
Proof.
  unfold records_of_date, keep_subject. cbn [date subjects].
  induction (subjects d) as [|s l IH]; simpl; [reflexivity|].
  rewrite List.filter_app, IH.
  assert (List.filter (fun r => String.eqb (flat_subject r) sel)
            (map (fun p => mkFlat (date d) (subject s) p) (images s))
          = if String.eqb (subject s) sel
            then map (fun p => mkFlat (date d) (subject s) p) (images s) else []) as ->.
  { induction (images s) as [|p ps IHp]; simpl;
      [now destruct (String.eqb (subject s) sel)|].
    rewrite IHp. now destruct (String.eqb (subject s) sel). }
  now destruct (String.eqb (subject s) sel).
Qed.

Lemma records_dateStage st data :
  records_in_order (dateStage st data)
  = List.filter (fun r => date_passes st (flat_date r)) (records_in_order data).
Proof.
  unfold dateStage, date_passes.
  destruct (filterState_date st), (getSelectedDateFilters st) as [f|];
    try (induction (records_in_order data) as [|r l IH]; simpl; congruence).
  induction data as [|d data IH]; [reflexivity|].
  rewrite records_in_order_cons, List.filter_app, <- IH.
  rewrite (filter_records_by_date (matches_date f) d).
  simpl. unfold date_matches.
  destruct (matches_date f (date d)); reflexivity.
Qed.

Lemma records_subjectStage st data :
  records_in_order (subjectStage st data)
  = List.filter (fun r => subject_passes st (flat_subject r)) (records_in_order data).
Proof.
  unfold subjectStage, subject_passes.
  destruct (filterState_subject st), (getSelectedSubject st) as [sel|];
    try (induction (records_in_order data) as [|r l IH]; simpl; congruence).
  induction data as [|d data IH]; [reflexivity|].
  rewrite records_in_order_cons, List.filter_app, <- IH.
  rewrite (filter_records_by_subject sel d). simpl.
  destruct (has_subjects (keep_subject sel d)) eqn:E; [reflexivity|].
  unfold has_subjects in E. unfold records_of_date.
  destruct (subjects (keep_subject sel d)); [reflexivity|discriminate].
Qed.

Lemma filter_filter_andb {A : Type} (p q : A -> bool) (l : list A) :
  List.filter q (List.filter p l) = List.filter (fun x => p x && q x) l.
Proof.
  induction l as [|x l IH]; simpl; [reflexivity|].
  destruct (p x); simpl; [destruct (q x)|]; now rewrite IH.
Qed.

(** X4. Flattening the output of the filter engine gives the flattened
    input without the records whose date fails the date stage or whose
    subject fails the subject stage: the same records, in the same
    order. *)
Theorem getFlattenedImages_applyCombinedFilter (st : FilterState) (data : NoteCollection) :
  getFlattenedImages (applyCombinedFilter st data)
  = List.filter (record_passes st) (getFlattenedImages data).
Proof.
  rewrite !getFlattenedImages_records. unfold applyCombinedFilter.
  rewrite records_subjectStage, records_dateStage.
  apply filter_filter_andb.
Qed.

Lemma sublist_filter_map {A B : Type} (f : A -> B) (p : A -> bool) (l : list A) :
  sublist (map f (List.filter p l)) (map f l).
Proof.
  induction l as [|x l IH]; simpl; [constructor|].
  destruct (p x); simpl; now constructor.
Qed.

(** X5. The filter engine never reorders and never adds: the dates of its
    output are, in order, dates of its input with some left out. *)
Theorem applyCombinedFilter_dates_sublist (st : FilterState) (data : NoteCollection) :
  sublist (map date (applyCombinedFilter st data)) (map date data).
Proof.
  unfold applyCombinedFilter.
  transitivity (map date (dateStage st data)).
  - unfold subjectStage.
    destruct (filterState_subject st), (getSelectedSubject st) as [sel|];
      try reflexivity.
    etransitivity; [apply sublist_filter_map|].
    rewrite map_map. simpl. reflexivity.
  - unfold dateStage.
    destruct (filterState_date st), (getSelectedDateFilters st) as [f|];
      try reflexivity.
    apply sublist_filter_map.
Qed.

(** ** More on the sort and the grouped view *)

Section SortStable.

Context {A : Type}.
Variable comparefn : A -> A -> completion Number.
Variable key : A -> Z.
Variable keyed : A -> Prop.
Hypothesis comparefn_keyed :
  forall x y, keyed x -> keyed y -> comparefn x y = Normal (Num (key y - key x)).




End SortStable.


Section GroupedView.

Variable LocalTZA : Z -> Z.
Variable hostDateParse : string -> Number.

Lemma renderGroupedImages_groups data :
  exists groups,
    Array_sort newest_first
      (List.filter is_parsed (map (enrich LocalTZA hostDateParse) data))
    = Normal (map (enrich LocalTZA hostDateParse) groups) /\
    renderGroupedImages LocalTZA hostDateParse data
    = Normal (map (render_group LocalTZA hostDateParse) groups) /\
    Permutation groups
      (List.filter (fun d => parseable LocalTZA hostDateParse (date d)) data).
Proof.
  destruct (renderGroupedImages_sorted LocalTZA hostDateParse data)
    as (groups & Hsort & Hperm).
  exists groups. split; [exact Hsort|]. split; [|exact Hperm].
  unfold renderGroupedImages. rewrite Hsort. simpl.
  rewrite forEach_push. simpl. now rewrite map_map.
Qed.

(** X6. The grouped view is empty exactly when no date of the collection
    parses: there is no placeholder of its own, the container stays
    empty. *)
Theorem renderGroupedImages_empty (data : NoteCollection) :
  renderGroupedImages LocalTZA hostDateParse data = Normal [] <->
  (forall d, In d data -> parseable LocalTZA hostDateParse (date d) = false).
Proof.
  destruct (renderGroupedImages_groups data) as (groups & _ & Hr & Hperm).
  rewrite Hr. split.
  - intros [= Hnil]. destruct groups; [|discriminate].
    apply Permutation_nil in Hperm.
    intros d Hd.
    destruct (parseable LocalTZA hostDateParse (date d)) eqn:E; [|reflexivity].
    assert (In d (List.filter (fun d => parseable LocalTZA hostDateParse (date d)) data))
      as Hin by (apply filter_In; auto).
    rewrite Hperm in Hin. destruct Hin.
  - intros Hall.
    assert (List.filter (fun d => parseable LocalTZA hostDateParse (date d)) data = [])
      as Hnil.
    { clear Hperm Hr. induction data as [|d data IH]; [reflexivity|]. simpl.
      rewrite (Hall d) by now left. apply IH. intros d' Hd'. apply Hall. now right. }
    rewrite Hnil in Hperm. apply Permutation_sym, Permutation_nil in Hperm.
    now subst groups.
Qed.





End GroupedView.

(** ** More on the statistics *)

Lemma Set_add_NoDup x s : List.NoDup s -> List.NoDup (Set_add x s).
Proof.
  intros H. unfold Set_add. destruct (existsb (String.eqb x) s) eqn:E; [exact H|].
  apply List.NoDup_app; [exact H|repeat constructor; intros []|].
  intros y Hy [Hxy | []]. subst y.
  assert (existsb (String.eqb x) s = true) as E'
    by (apply existsb_exists; exists x; split; [exact Hy|apply String.eqb_refl]).
  congruence.
Qed.

Lemma Set_from_NoDup l : List.NoDup (Set_from l).
Proof.
  unfold Set_from.
  assert (forall s, List.NoDup s -> List.NoDup (fold_left (fun s x => Set_add x s) l s)) as H.
  { induction l as [|x l IH]; intros s Hs; simpl; [exact Hs|].
    apply IH. now apply Set_add_NoDup. }
  apply H. constructor.
Qed.

Lemma Set_from_length_nodup l :
  length (Set_from l) = length (nodup string_dec l).
Proof.
  apply Permutation_length. apply Permutation.NoDup_Permutation.
  - apply Set_from_NoDup.
  - apply List.NoDup_nodup.
  - intros x. rewrite Set_from_In, List.nodup_In. reflexivity.
Qed.

Lemma Set_from_length_le l : (length (Set_from l) <= length l)%nat.
Proof.
  apply List.NoDup_incl_length; [apply Set_from_NoDup|].
  intros x. apply Set_from_In.
Qed.

Lemma Set_from_constant d l :
  l <> [] -> (forall x, In x l -> x = d) -> Set_from l = [d].
Proof.
  intros Hne Hall. destruct l as [|x l]; [now elim Hne|].
  unfold Set_from. simpl. unfold Set_add at 2. simpl.
  rewrite (Hall x) by now left.
  assert (forall l', (forall y, In y l' -> y = d) ->
            fold_left (fun s y => Set_add y s) l' [d] = [d]) as H.
  { induction l' as [|y l' IH]; intros Hl'; simpl; [reflexivity|].
    rewrite (Hl' y) by now left. unfold Set_add at 2. simpl.
    rewrite String.eqb_refl. simpl. apply IH. intros z Hz. apply Hl'. now right. }
  apply H. intros y Hy. apply Hall. now right.
Qed.

Lemma StronglySorted_last {A : Type} (R : A -> A -> Prop) l x :
  StronglySorted R l -> nth_error l (length l - 1) = Some x ->
  forall y, In y l -> y = x \/ R y x.
Proof.
  induction 1 as [|a l Hs IH Hall]; simpl; [discriminate|].
  destruct l as [|b l].
  - simpl. intros [= <-] y [<- | []]. now left.
  - simpl in *. rewrite Nat.sub_0_r in IH. intros Hx y [<- | Hy].
    + right. rewrite List.Forall_forall in Hall. apply Hall.
      apply nth_error_In with (n := length l). exact Hx.
    + now apply IH.
Qed.

Lemma flat_dates_of_collection data r :
  In r (getFlattenedImages data) -> In (flat_date r) (map date data).
Proof.
  rewrite getFlattenedImages_records. unfold records_in_order.
  intros H. apply in_flat_map in H as (d & Hd & H).
  apply in_flat_map in H as (s & Hs & H).
  apply in_map_iff in H as (p & <- & Hp). simpl. now apply in_map.
Qed.

Section StatisticsMore.

Variable LocalTZA : Z -> Z.
Variable hostDateParse : string -> Number.

Lemma stamp_parses d t :
  stamp LocalTZA hostDateParse d = Some t ->
  exists p, parseDDMMYYYY LocalTZA hostDateParse d = Some p /\ ts p = Num t.
Proof.
  unfold stamp.
  destruct (parseDDMMYYYY LocalTZA hostDateParse d) as [p|]; [|discriminate].
  destruct (ts p) as [|z] eqn:E; [discriminate|]. intros [= <-]. eauto.
Qed.

Lemma stamp_truthy d t :
  stamp LocalTZA hostDateParse d = Some t -> JsString.truthy d = true.
Proof. destruct d; [discriminate|reflexivity]. Qed.

(** X9. When every record has a date whose timestamp is a number, the
    statistics return, [oldestDate] and [newestDate] are dates of the
    records, and the timestamp of every record lies between theirs. *)
Theorem calculateStats_date_range (records : list FlatRecord) :
  records <> [] ->
  (forall r, In r records ->
     exists t, stamp LocalTZA hostDateParse (flat_date r) = Some t) ->
  exists s oldest newest,
    calculateStats LocalTZA hostDateParse records = Normal s /\
    In (oldestDate s) (map flat_date records) /\
    In (newestDate s) (map flat_date records) /\
    stamp LocalTZA hostDateParse (oldestDate s) = Some oldest /\
    stamp LocalTZA hostDateParse (newestDate s) = Some newest /\
    forall r t, In r records ->
      stamp LocalTZA hostDateParse (flat_date r) = Some t -> oldest <= t <= newest.
Proof.
  intros Hne Hnum. unfold calculateStats.
  set (dates := Set_from (map flat_date records)).
  set (keyed := fun d => exists t, stamp LocalTZA hostDateParse d = Some t).
  set (key := fun d => match stamp LocalTZA hostDateParse d with
                       | Some t => - t | None => 0 end).
  assert (forall a b, keyed a -> keyed b ->
            oldest_first LocalTZA hostDateParse a b = Normal (Num (key b - key a)))
    as Hcmp.
  { intros a b [ta Ha] [tb Hb]. unfold key. rewrite Ha, Hb.
    destruct (stamp_parses a ta Ha) as (pa & Hpa & Hta).
    destruct (stamp_parses b tb Hb) as (pb & Hpb & Htb).
    unfold oldest_first. rewrite Hpa, Hpb. simpl. rewrite Hta, Htb. simpl.
    do 2 f_equal. lia. }
  assert (Forall keyed dates) as Hkeyed.
  { apply List.Forall_forall. intros d Hd. unfold dates in Hd.
    apply (proj1 (Set_from_In _ _)) in Hd.
    apply in_map_iff in Hd as (r & <- & Hr). now apply Hnum. }
  destruct (Array_sort_perm (oldest_first LocalTZA hostDateParse) keyed) with (l := dates)
    as (sorted & Hsort & Hperm); [|exact Hkeyed|].
  { intros a b Ha Hb. rewrite (Hcmp a b Ha Hb). eauto. }
  pose proof (Array_sort_sorted (oldest_first LocalTZA hostDateParse) key keyed Hcmp
                dates sorted Hkeyed Hsort) as Hsorted.
  rewrite Hsort. cbn [bind].
  assert (forall d, In d sorted -> In d (map flat_date records)) as Hin.
  { intros d Hd. rewrite <- Hperm in Hd. unfold dates in Hd.
    now apply (proj1 (Set_from_In _ _)) in Hd. }
  assert (forall r, In r records -> In (flat_date r) sorted) as Hin'.
  { intros r Hr. rewrite <- Hperm. unfold dates. apply Set_from_In. now apply in_map. }
  assert (forall d, In d sorted -> keyed d) as Hk.
  { intros d Hd. rewrite <- Hperm in Hd.
    rewrite List.Forall_forall in Hkeyed. now apply Hkeyed. }
  destruct sorted as [|first rest] eqn:Es.
  { destruct records as [|r rs]; [now elim Hne|].
    destruct (Hin' r (or_introl eq_refl)). }
  rewrite <- Es in *.
  assert (exists last', nth_error sorted (length sorted - 1) = Some last') as [last' Hlast].
  { destruct (nth_error sorted (length sorted - 1)) eqn:E; [eauto|].
    apply nth_error_None in E. rewrite Es in E. simpl in E. lia. }
  assert (In first sorted) as Hfirst by (rewrite Es; now left).
  assert (In last' sorted) as Hlast' by (eapply nth_error_In; eauto).
  destruct (Hk first Hfirst) as [tf Htf]. destruct (Hk last' Hlast') as [tl Htl].
  eexists _, tf, tl. split; [reflexivity|]. cbn [oldestDate newestDate].
  rewrite Hlast. replace (nth_error sorted 0) with (Some first) by now rewrite Es.
  unfold or_NA. rewrite (stamp_truthy first tf Htf), (stamp_truthy last' tl Htl).
  split; [now apply Hin|]. split; [now apply Hin|].
  split; [exact Htf|]. split; [exact Htl|].
  intros r t Hr Ht. pose proof (Hin' r Hr) as Hd. split.
  - pose proof Hsorted as Hsorted'. rewrite Es in Hd, Hsorted'.
    inversion Hsorted' as [|? ? _ Hall]; subst.
    destruct Hd as [Heq | Hd]; [rewrite Heq, Ht in Htf; injection Htf as <-; lia|].
    rewrite List.Forall_forall in Hall. specialize (Hall _ Hd).
    unfold key in Hall. rewrite Ht, Htf in Hall. lia.
  - destruct (StronglySorted_last _ _ _ Hsorted Hlast _ Hd) as [Heq | Hle].
    + rewrite Heq, Htl in Ht. injection Ht as <-. lia.
    + unfold key in Hle. rewrite Ht, Htl in Hle. lia.
Qed.

(** X10. When the statistics of a flattened collection return,
    [totalImages] is the number of images of the collection,
    [uniqueDates] and [uniqueSubjects] count the distinct dates and
    subjects of the records, and there are no more distinct dates than date
    groups nor than images. *)
Theorem calculateStats_counts (data : NoteCollection) (s : Stats) :
  calculateStats LocalTZA hostDateParse (getFlattenedImages data) = Normal s ->
  totalImages s = image_count data /\
  uniqueDates s
    = length (nodup string_dec (map flat_date (getFlattenedImages data))) /\
  uniqueSubjects s
    = length (nodup string_dec (map flat_subject (getFlattenedImages data))) /\
  (uniqueDates s <= length data)%nat /\
  (uniqueDates s <= totalImages s)%nat /\
  (uniqueSubjects s <= totalImages s)%nat.
Proof.
  unfold calculateStats.
  destruct (Array_sort _ _) as [sorted|e]; [|discriminate].
  cbn [bind]. intros [= <-]. cbn [totalImages uniqueDates uniqueSubjects].
  split; [rewrite getFlattenedImages_records; apply length_records_in_order|].
  split; [apply Set_from_length_nodup|]. split; [apply Set_from_length_nodup|].
  split; [|split].
  - rewrite <- (length_map date data).
    transitivity (length (Set_from (map date data))); [|apply Set_from_length_le].
    apply List.NoDup_incl_length; [apply Set_from_NoDup|].
    intros d Hd. apply (proj1 (Set_from_In _ _)) in Hd. apply Set_from_In.
    apply in_map_iff in Hd as (r & <- & Hr). now apply flat_dates_of_collection.
  - etransitivity; [apply Set_from_length_le|]. now rewrite length_map.
  - etransitivity; [apply Set_from_length_le|]. now rewrite length_map.
Qed.

(** X11. Records that all carry one and the same non-empty date have that
    date for [oldestDate] and [newestDate], whether it parses or not: no
    comparison takes place. Without records both are "N/A". *)
Theorem calculateStats_single_date (records : list FlatRecord) (d : string) :
  d <> "" -> (forall r, In r records -> flat_date r = d) ->
  exists s,
    calculateStats LocalTZA hostDateParse records = Normal s /\
    totalImages s = length records /\
    (records <> [] ->
       uniqueDates s = 1%nat /\ oldestDate s = d /\ newestDate s = d) /\
    (records = [] ->
       uniqueDates s = 0%nat /\ oldestDate s = "N/A" /\ newestDate s = "N/A").
Proof.
  intros Hd Hall. unfold calculateStats.
  destruct records as [|r rs].
  - eexists. split; [reflexivity|]. split; [reflexivity|].
    split; [intros H; now elim H|intros _; repeat split].
  - rewrite (Set_from_constant d (map flat_date (r :: rs))).
    + eexists. split; [reflexivity|]. split; [reflexivity|].
      split; [|discriminate]. intros _. cbn.
      destruct d; [now elim Hd|]. repeat split.
    + discriminate.
    + intros x Hx. apply in_map_iff in Hx as (r' & <- & Hr'). now apply Hall.
Qed.

End StatisticsMore.

(** ** [parseInt] and [getMonthName] *)

Lemma digit_radix_digit c k : digit c = Some k -> radix_digit 10 c = Some k.
Proof.
  intros H. pose proof (digit_range c k H) as Hr. revert H.
  unfold digit, is_digit, radix_digit.
  destruct (_ && _)%N eqn:E; [|discriminate]. intros [= <-].
  apply andb_true_iff in E as [E1 E2]. apply N.leb_le in E1, E2.
  replace (48 <=? Z.of_N (N_of_ascii c)) with true by (symmetry; apply Z.leb_le; lia).
  replace (Z.of_N (N_of_ascii c) <=? 57) with true by (symmetry; apply Z.leb_le; lia).
  simpl. replace (_ <? 10) with true by (symmetry; apply Z.ltb_lt; lia).
  reflexivity.
Qed.

Lemma digits_value_decimal s : forall acc v,
  decimal_from acc s = Some v -> digits_value 10 (Some acc) s = Some v.
Proof.
  induction s as [|c s IH]; intros acc v H; [exact H|].
  simpl in *. destruct (digit c) as [k|] eqn:E; [|discriminate].
  rewrite (digit_radix_digit c k E). now apply IH.
Qed.

Lemma digit_not_special c k :
  digit c = Some k ->
  is_white_space c = false /\ Ascii.eqb c "-" = false /\ Ascii.eqb c "+" = false /\
  Ascii.eqb c "x" = false /\ Ascii.eqb c "X" = false.
Proof.
  unfold digit, is_digit. destruct (_ && _)%N eqn:E; [|discriminate]. intros _.
  apply andb_true_iff in E as [E1 E2]. apply N.leb_le in E1, E2.
  rewrite <- (ascii_N_embedding c).
  assert (N_of_ascii c = 48 \/ N_of_ascii c = 49 \/ N_of_ascii c = 50 \/
          N_of_ascii c = 51 \/ N_of_ascii c = 52 \/ N_of_ascii c = 53 \/
          N_of_ascii c = 54 \/ N_of_ascii c = 55 \/ N_of_ascii c = 56 \/
          N_of_ascii c = 57)%N as H by lia.
  repeat (destruct H as [-> | H]; [repeat split; reflexivity|]).
  rewrite H. repeat split; reflexivity.
Qed.

(** On a string of decimal digits [parseInt] reads its value. *)
Lemma parseInt_decimal s v : decimal s = Some v -> parseInt s = Some v.
Proof.
  destruct s as [|c s]; [discriminate|]. unfold decimal. intros H.
  assert (exists k, digit c = Some k) as [k Hk]
    by (simpl in H; destruct (digit c); [eauto|discriminate]).
  destruct (digit_not_special c k Hk) as (Hw & Hm & Hp & _).
  unfold parseInt. cbn [trim_start]. rewrite Hw.
  assert ((let '(sign, str) :=
             match String c s with
             | String "-" rest => (-1, rest)
             | String "+" rest => (1, rest)
             | _ => (1, String c s)
             end in
           let '(R, str0) :=
             match str with
             | String "0" (String x rest) =>
                 if Ascii.eqb x "x" || Ascii.eqb x "X" then (16, rest) else (10, str)
             | _ => (10, str)
             end in
           match digits_value R None str0 with
           | Some mathInt => Some (sign * mathInt)
           | None => None
           end)
          = match digits_value 10 None (String c s) with
            | Some mathInt => Some (1 * mathInt)
            | None => None
            end) as ->.
  { destruct c as [[] [] [] [] [] [] [] []]; try reflexivity;
      try (now apply Ascii.eqb_neq in Hm; elim Hm);
      try (now apply Ascii.eqb_neq in Hp; elim Hp).
    destruct s as [|x s']; [reflexivity|].
    simpl in H. destruct (digit x) as [kx|] eqn:Ex; [|discriminate].
    destruct (digit_not_special x kx Ex) as (_ & _ & _ & Hx & HX).
    cbv zeta. cbv iota. cbv beta.
    replace (Ascii.eqb x "x" || Ascii.eqb x "X") with false
      by (rewrite Hx, HX; reflexivity).
    reflexivity. }
  cbn [digits_value]. rewrite (digit_radix_digit c k Hk).
  simpl in H. rewrite Hk in H.
  rewrite (digits_value_decimal s _ v H). f_equal. lia.
Qed.

(** X12. For a string of decimal digits [getMonthName] answers the name of
    the month of that number when the number is one of 1 to 12, and the
    string itself otherwise; it also answers the string itself when
    [parseInt] reads no number; in every case it answers a month name or
    its argument. *)
Theorem getMonthName_spec (monthNum : string) :
  (forall v, decimal monthNum = Some v ->
     getMonthName monthNum
     = if (1 <=? v) && (v <=? 12) then nth (Z.to_nat (v - 1)) months monthNum
       else monthNum) /\
  (parseInt monthNum = None -> getMonthName monthNum = monthNum) /\
  (getMonthName monthNum = monthNum \/ In (getMonthName monthNum) months).
Proof.
  split; [|split].
  - intros v Hv. unfold getMonthName. rewrite (parseInt_decimal _ _ Hv).
    destruct (1 <=? v) eqn:E1; [|reflexivity].
    destruct (v <=? 12) eqn:E2; simpl.
    + apply Z.leb_le in E1, E2.
      assert (Z.to_nat (v - 1) < 12)%nat as Hlt by lia.
      remember (Z.to_nat (v - 1)) as n eqn:En. clear En.
      do 12 (destruct n as [|n]; [reflexivity|]). lia.
    + apply Z.leb_le in E1. apply Z.leb_gt in E2.
      assert (nth_error months (Z.to_nat (v - 1)) = None) as ->; [|reflexivity].
      apply nth_error_None. simpl. lia.
  - intros H. unfold getMonthName. now rewrite H.
  - unfold getMonthName. destruct (parseInt monthNum) as [n|]; [|now left].
    destruct (1 <=? n); [|now left].
    destruct (nth_error months (Z.to_nat (n - 1))) as [name|] eqn:E; [|now left].
    apply nth_error_In in E.
    destruct (JsString.truthy name); [now right|now left].
Qed.

Lemma getMonthName_spec_witness :
  getMonthName "010" = "October".
Proof. exact (proj1 (getMonthName_spec "010") 10 eq_refl). Defined.

(** ** [populateFilterOptions] *)

Lemma fill_select_eq text sorted :
  fill_select text sorted = (EmptyString, "Any") :: map (fun v => (v, text v)) sorted.
Proof. unfold fill_select. now rewrite forEach_push. Qed.

Lemma offered_fill_select text sorted : offered (fill_select text sorted) = sorted.
Proof.
  rewrite fill_select_eq. unfold offered. simpl. rewrite map_map. simpl.
  apply map_id.
Qed.

Lemma fold_Set_add_In y l s :
  In y (fold_left (fun s x => Set_add x s) l s) <-> In y l \/ In y s.
Proof. apply Set_from_fold_In. Qed.

Section FilterOptionsProperties.

Variable LocalTZA : Z -> Z.
Variable hostDateParse : string -> Number.
Variable localeCompare : string -> string -> Number.
Variable hostIntDifference : string -> string -> Number.

Lemma collect_subjects l : forall sets,
  let final :=
    forEach l
      (fun (s : SubjectGroup) sets =>
         mkOptionSets (Set_add (subject s) (set_subjects sets))
                      (set_days sets) (set_months sets) (set_years sets))
      sets in
  set_subjects final
    = fold_left (fun acc x => Set_add x acc) (map subject l) (set_subjects sets) /\
  set_days final = set_days sets /\ set_months final = set_months sets /\
  set_years final = set_years sets.
Proof.
  unfold forEach. induction l as [|s l IH]; intros sets; simpl; [auto|].
  destruct (IH (mkOptionSets (Set_add (subject s) (set_subjects sets))
                             (set_days sets) (set_months sets) (set_years sets)))
    as (H1 & H2 & H3 & H4).
  simpl in *. auto.
Qed.

Lemma date_pieces_cons d data :
  date_pieces LocalTZA hostDateParse (d :: data)
  = date_pieces LocalTZA hostDateParse [d] ++ date_pieces LocalTZA hostDateParse data.
Proof. unfold date_pieces. simpl. now rewrite app_nil_r. Qed.

Lemma collect_sets data : forall sets,
  let final := forEach data (collect_options LocalTZA hostDateParse) sets in
  set_subjects final
    = fold_left (fun acc x => Set_add x acc) (all_subjects data) (set_subjects sets) /\
  set_days final
    = fold_left (fun acc x => Set_add x acc)
        (map (fun t => fst (fst t)) (date_pieces LocalTZA hostDateParse data))
        (set_days sets) /\
  set_months final
    = fold_left (fun acc x => Set_add x acc)
        (map (fun t => snd (fst t)) (date_pieces LocalTZA hostDateParse data))
        (set_months sets) /\
  set_years final
    = fold_left (fun acc x => Set_add x acc)
        (map (fun t => snd t) (date_pieces LocalTZA hostDateParse data))
        (set_years sets).
Proof.
  induction data as [|d data IH]; intros sets; [simpl; auto|].
  unfold forEach in *. cbn [fold_left].
  specialize (IH (collect_options LocalTZA hostDateParse d sets)).
  cbv zeta in IH. destruct IH as (H1 & H2 & H3 & H4).
  rewrite H1, H2, H3, H4. clear H1 H2 H3 H4.
  rewrite date_pieces_cons, !map_app, !fold_left_app.
  unfold all_subjects. cbn [flat_map]. rewrite fold_left_app.
  unfold collect_options.
  match goal with
  | |- context [forEach (subjects d) ?f ?s0] =>
      destruct (collect_subjects (subjects d) s0) as (E1 & E2 & E3 & E4)
  end.
  cbv zeta in E1, E2, E3, E4. rewrite E1, E2, E3, E4. clear E1 E2 E3 E4.
  unfold date_pieces. cbn [flat_map]. rewrite app_nil_r.
  destruct (parseDDMMYYYY LocalTZA hostDateParse (date d)); [|auto].
  destruct (JsString.split "-" (date d)) as [|a [|b [|c [|e l]]]]; simpl; auto.
Qed.

Lemma date_pieces_In a b c data :
  In (a, b, c) (date_pieces LocalTZA hostDateParse data) <->
  exists d, In d data /\ JsString.split "-" (date d) = [a; b; c].
Proof.
  unfold date_pieces. rewrite in_flat_map. split.
  - intros (d & Hd & H). exists d. split; [exact Hd|].
    destruct (parseDDMMYYYY LocalTZA hostDateParse (date d)); [|destruct H].
    destruct (JsString.split "-" (date d)) as [|a' [|b' [|c' [|e l]]]];
      try (now destruct H).
    destruct H as [H | []]. now injection H as -> -> ->.
  - intros (d & Hd & H). exists d. split; [exact Hd|].
    assert (parseDDMMYYYY LocalTZA hostDateParse (date d) <> None) as Hp.
    { intros Hn. apply parseDDMMYYYY_null in Hn. rewrite H in Hn. now apply Hn. }
    destruct (parseDDMMYYYY LocalTZA hostDateParse (date d)); [|now elim Hp].
    rewrite H. now left.
Qed.

Lemma all_subjects_In v data :
  In v (all_subjects data) <->
  exists d s, In d data /\ In s (subjects d) /\ subject s = v.
Proof.
  unfold all_subjects. rewrite in_flat_map. split.
  - intros (d & Hd & H). apply in_map_iff in H as (s & <- & Hs). eauto.
  - intros (d & s & Hd & Hs & <-). exists d. split; [exact Hd|]. now apply in_map.
Qed.

Lemma Array_sort_total (cmp : string -> string -> Number) l :
  exists l', Array_sort (fun a b => Normal (cmp a b)) l = Normal l' /\ Permutation l l'.
Proof.
  apply (Array_sort_perm (fun a b => Normal (cmp a b)) (fun _ => True)).
  - intros x y _ _. eauto.
  - apply List.Forall_forall. auto.
Qed.

(** What [populateFilterOptions] computes, in terms of the sets. *)
Lemma populateFilterOptions_sets data :
  exists subjects' days months' years,
    populateFilterOptions LocalTZA hostDateParse localeCompare hostIntDifference data
    = Normal (mkFilterOptions (fill_select (fun v => v) subjects')
                              (fill_select (fun v => v) days)
                              (fill_select getMonthName months')
                              (fill_select (fun v => v) years)) /\
    Array_sort (fun a b => Normal (localeCompare a b)) (Set_from (all_subjects data))
      = Normal subjects' /\
    Array_sort (fun a b => Normal (parseInt_difference hostIntDifference a b))
      (Set_from (map (fun t => fst (fst t)) (date_pieces LocalTZA hostDateParse data)))
      = Normal days /\
    Array_sort (fun a b => Normal (parseInt_difference hostIntDifference a b))
      (Set_from (map (fun t => snd (fst t)) (date_pieces LocalTZA hostDateParse data)))
      = Normal months' /\
    Array_sort (fun a b => Normal (parseInt_difference hostIntDifference b a))
      (Set_from (map (fun t => snd t) (date_pieces LocalTZA hostDateParse data)))
      = Normal years.
Proof.
  unfold populateFilterOptions.
  destruct (collect_sets data (mkOptionSets [] [] [] [])) as (H1 & H2 & H3 & H4).
  cbv zeta in H1, H2, H3, H4. cbn [set_subjects set_days set_months set_years] in *.
  rewrite H1, H2, H3, H4. fold (Set_from (all_subjects data)).
  fold (Set_from (map (fun t => fst (fst t)) (date_pieces LocalTZA hostDateParse data))).
  fold (Set_from (map (fun t => snd (fst t)) (date_pieces LocalTZA hostDateParse data))).
  fold (Set_from (map (fun t => snd t) (date_pieces LocalTZA hostDateParse data))).
  destruct (Array_sort_total localeCompare (Set_from (all_subjects data)))
    as (subjects' & Es & _).
  destruct (Array_sort_total (parseInt_difference hostIntDifference)
              (Set_from (map (fun t => fst (fst t))
                             (date_pieces LocalTZA hostDateParse data))))
    as (days & Ed & _).
  destruct (Array_sort_total (parseInt_difference hostIntDifference)
              (Set_from (map (fun t => snd (fst t))
                             (date_pieces LocalTZA hostDateParse data))))
    as (months' & Em & _).
  destruct (Array_sort_total (fun a b => parseInt_difference hostIntDifference b a)
              (Set_from (map (fun t => snd t)
                             (date_pieces LocalTZA hostDateParse data))))
    as (years & Ey & _).
  exists subjects', days, months', years.
  rewrite Es, Ed, Em, Ey. cbn [bind]. auto.
Qed.

Lemma sorted_set (cmp : string -> string -> Number) l sorted :
  Array_sort (fun a b => Normal (cmp a b)) (Set_from l) = Normal sorted ->
  List.NoDup sorted /\ forall v, In v sorted <-> In v l.
Proof.
  intros H. destruct (Array_sort_total cmp (Set_from l)) as (l' & H' & Hperm).
  rewrite H in H'. injection H' as <-. split.
  - eapply Permutation_NoDup; [exact Hperm|apply Set_from_NoDup].
  - intros v. rewrite <- Hperm. apply Set_from_In.
Qed.

(** X13. [populateFilterOptions] always completes. After "Any", each
    select offers, without repetition, exactly the subjects of the
    collection, and exactly the first, second and third pieces of the
    dates that split into three; the month options show [getMonthName] of
    their value, the others their value. *)
Theorem populateFilterOptions_spec (data : NoteCollection) :
  exists opts,
    populateFilterOptions LocalTZA hostDateParse localeCompare hostIntDifference data
    = Normal opts /\
    (forall v, In v (offered (subject_options opts)) <->
               exists d s, In d data /\ In s (subjects d) /\ subject s = v) /\
    (forall v, In v (offered (day_options opts)) <->
               exists d mm yyyy, In d data /\ JsString.split "-" (date d) = [v; mm; yyyy]) /\
    (forall v, In v (offered (month_options opts)) <->
               exists d dd yyyy, In d data /\ JsString.split "-" (date d) = [dd; v; yyyy]) /\
    (forall v, In v (offered (year_options opts)) <->
               exists d dd mm, In d data /\ JsString.split "-" (date d) = [dd; mm; v]) /\
    List.NoDup (offered (subject_options opts)) /\
    List.NoDup (offered (day_options opts)) /\
    List.NoDup (offered (month_options opts)) /\
    List.NoDup (offered (year_options opts)) /\
    subject_options opts
      = (EmptyString, "Any") :: map (fun v => (v, v)) (offered (subject_options opts)) /\
    day_options opts
      = (EmptyString, "Any") :: map (fun v => (v, v)) (offered (day_options opts)) /\
    month_options opts
      = (EmptyString, "Any")
        :: map (fun v => (v, getMonthName v)) (offered (month_options opts)) /\
    year_options opts
      = (EmptyString, "Any") :: map (fun v => (v, v)) (offered (year_options opts)).
Proof.
  destruct (populateFilterOptions_sets data)
    as (subjects' & days & months' & years & Hp & Hs & Hd & Hm & Hy).
  eexists. split; [exact Hp|].
  cbn [subject_options day_options month_options year_options].
  rewrite !offered_fill_select, !fill_select_eq.
  destruct (sorted_set _ _ _ Hs) as [Ns Is]. destruct (sorted_set _ _ _ Hd) as [Nd Id].
  destruct (sorted_set _ _ _ Hm) as [Nm Im].
  destruct (sorted_set (fun a b => parseInt_difference hostIntDifference b a) _ _ Hy)
    as [Ny Iy].
  repeat split; try assumption.
  - intros H. apply Is, all_subjects_In in H. exact H.
  - intros H. apply Is, all_subjects_In. exact H.
  - intros H. apply Id, in_map_iff in H as ([[a b] c] & <- & H).
    apply date_pieces_In in H as (d & Hin & Hsp). simpl. eauto.
  - intros (d & mm & yyyy & Hin & Hsp). apply Id, in_map_iff.
    exists (v, mm, yyyy). split; [reflexivity|]. apply date_pieces_In. eauto.
  - intros H. apply Im, in_map_iff in H as ([[a b] c] & <- & H).
    apply date_pieces_In in H as (d & Hin & Hsp). simpl. eauto.
  - intros (d & dd & yyyy & Hin & Hsp). apply Im, in_map_iff.
    exists (dd, v, yyyy). split; [reflexivity|]. apply date_pieces_In. eauto.
  - intros H. apply Iy, in_map_iff in H as ([[a b] c] & <- & H).
    apply date_pieces_In in H as (d & Hin & Hsp). simpl. eauto.
  - intros (d & dd & mm & Hin & Hsp). apply Iy, in_map_iff.
    exists (dd, mm, v). split; [reflexivity|]. apply date_pieces_In. eauto.
Qed.

End FilterOptionsProperties.



Lemma StronglySorted_weaken {A : Type} (R R' : A -> A -> Prop) l :
  (forall a b, R a b -> R' a b) -> StronglySorted R l -> StronglySorted R' l.
Proof.
  intros Hw. induction 1 as [|x l Hs IH Hall]; constructor; [exact IH|].
  rewrite List.Forall_forall in Hall |- *. auto.
Qed.

Lemma decimal_from_nonneg s : forall acc v,
  0 <= acc -> decimal_from acc s = Some v -> 0 <= v.
Proof.
  induction s as [|c s IH]; simpl; intros acc v Hacc; [now intros [= <-]|].
  destruct (digit c) as [k|] eqn:E; [|discriminate].
  pose proof (digit_range c k E). apply IH. lia.
Qed.

Lemma decimal_nonneg s v : decimal s = Some v -> 0 <= v.
Proof.
  destruct s; [discriminate|]. unfold decimal. apply decimal_from_nonneg. lia.
Qed.

Section FilterOptionsUse.

Variable LocalTZA : Z -> Z.
Variable hostDateParse : string -> Number.
Variable localeCompare : string -> string -> Number.
Variable hostIntDifference : string -> string -> Number.


Lemma parseInt_difference_decimal a b x y :
  decimal a = Some x -> x <= 9007199254740992 ->
  decimal b = Some y -> y <= 9007199254740992 ->
  parseInt_difference hostIntDifference a b = Num (x - y).
Proof.
  intros Ha Hx Hb Hy. unfold parseInt_difference, safe_integer.
  rewrite (parseInt_decimal a x Ha), (parseInt_decimal b y Hb).
  pose proof (decimal_nonneg a x Ha). pose proof (decimal_nonneg b y Hb).
  replace (Z.abs x <=? 9007199254740992) with true by (symmetry; apply Z.leb_le; lia).
  replace (Z.abs y <=? 9007199254740992) with true by (symmetry; apply Z.leb_le; lia).
  reflexivity.
Qed.

(** X15. When the pieces of the dates are decimal numbers up to 2^53, the
    day and the month options are offered by ascending number and the year
    options by descending number. *)
Theorem options_in_numeric_order (data : NoteCollection) (opts : FilterOptions) :
  dates_are_numeric data ->
  populateFilterOptions LocalTZA hostDateParse localeCompare hostIntDifference data
  = Normal opts ->
  StronglySorted (fun a b => int_value a <= int_value b) (offered (day_options opts)) /\
  StronglySorted (fun a b => int_value a <= int_value b) (offered (month_options opts)) /\
  StronglySorted (fun a b => int_value b <= int_value a) (offered (year_options opts)).
Proof.
  intros Hnum.
  destruct (populateFilterOptions_sets LocalTZA hostDateParse localeCompare
              hostIntDifference data)
    as (subjects' & days & months' & years & Hp & Hs & Hd & Hm & Hy).
  rewrite Hp. intros [= <-].
  cbn [subject_options day_options month_options year_options].
  rewrite !offered_fill_select.
  set (keyed := fun v => exists n, decimal v = Some n /\ n <= 9007199254740992).
  assert (forall (f : string * string * string -> string),
            (forall a b c, In (f (a, b, c)) [a; b; c]) ->
            Forall keyed (Set_from (map f (date_pieces LocalTZA hostDateParse data))))
    as Hkeyed.
  { intros f Hf. apply List.Forall_forall. intros v Hv.
    apply (proj1 (Set_from_In _ _)) in Hv.
    apply in_map_iff in Hv as ([[a b] c] & <- & H).
    apply date_pieces_In in H as (d & Hin & Hsp).
    exact (Hnum d a b c _ Hin Hsp (Hf a b c)). }
  assert (forall a b, keyed a -> keyed b ->
            Normal (parseInt_difference hostIntDifference a b)
            = Normal (Num ((- int_value b) - (- int_value a)))) as Hasc.
  { intros a b (x & Ha & Hx) (y & Hb & Hy').
    rewrite (parseInt_difference_decimal a b x y Ha Hx Hb Hy').
    unfold int_value. rewrite (parseInt_decimal a x Ha), (parseInt_decimal b y Hb).
    do 2 f_equal. lia. }
  assert (forall a b, keyed a -> keyed b ->
            Normal (parseInt_difference hostIntDifference b a)
            = Normal (Num (int_value b - int_value a))) as Hdesc.
  { intros a b (x & Ha & Hx) (y & Hb & Hy').
    rewrite (parseInt_difference_decimal b a y x Hb Hy' Ha Hx).
    unfold int_value. now rewrite (parseInt_decimal a x Ha), (parseInt_decimal b y Hb). }
  split; [|split].
  - eapply StronglySorted_weaken;
      [|exact (Array_sort_sorted _ (fun v => - int_value v) keyed Hasc _ _
                 (Hkeyed (fun t => fst (fst t)) ltac:(intros; simpl; auto)) Hd)].
    intros a b H. simpl in H. lia.
  - eapply StronglySorted_weaken;
      [|exact (Array_sort_sorted _ (fun v => - int_value v) keyed Hasc _ _
                 (Hkeyed (fun t => snd (fst t)) ltac:(intros; simpl; auto)) Hm)].
    intros a b H. simpl in H. lia.
  - exact (Array_sort_sorted (fun a b => Normal (parseInt_difference hostIntDifference b a))
             int_value keyed Hdesc _ _
             (Hkeyed (fun t => snd t) ltac:(intros; simpl; auto)) Hy).
Qed.

End FilterOptionsUse.

(** ** The page *)

Lemma renderGroupedImages_total tza host data :
  exists out, renderGroupedImages tza host data = Normal out.
Proof.
  destruct (renderGroupedImages_groups tza host data) as (groups & _ & H & _). eauto.
Qed.

Lemma hide_views_eq es :
  UI.hide_views es
  = map (fun v => if el_is_view v then mkElement (el_id v) (el_is_view v) true else v) es.
Proof. unfold UI.hide_views. now rewrite forEach_push. Qed.

Lemma reveal_one_visible viewId es :
  Forall (fun e => ~ visible_view e) es ->
  forall i j e1 e2,
    nth_error (UI.reveal viewId es) i = Some e1 -> visible_view e1 ->
    nth_error (UI.reveal viewId es) j = Some e2 -> visible_view e2 ->
    i = j /\ el_id e1 = viewId /\ viewId <> "".
Proof.
  induction 1 as [|e es He Hes IH]; intros i j e1 e2; simpl.
  - destruct i; discriminate.
  - destruct (JsString.truthy viewId && String.eqb (el_id e) viewId) eqn:E.
    + apply andb_true_iff in E as [Et Ee]. apply String.eqb_eq in Ee.
      rewrite List.Forall_forall in Hes.
      destruct i as [|i], j as [|j]; simpl.
      * intros [= <-] _ _ _. simpl. repeat split; [exact Ee|].
        intros ->. discriminate.
      * intros _ _ H2 V2. apply nth_error_In in H2. now elim (Hes _ H2).
      * intros H1 V1. apply nth_error_In in H1. now elim (Hes _ H1).
      * intros H1 V1. apply nth_error_In in H1. now elim (Hes _ H1).
    + destruct i as [|i], j as [|j]; simpl.
      * intros [= <-] V1. now elim He.
      * intros [= <-] V1. now elim He.
      * intros _ _ [= <-] V2. now elim He.
      * intros H1 V1 H2 V2.
        destruct (IH i j e1 e2 H1 V1 H2 V2) as (-> & Hid & Hne). auto.
Qed.

Lemma reveal_ids viewId es :
  map el_id (UI.reveal viewId es) = map el_id es /\
  map el_is_view (UI.reveal viewId es) = map el_is_view es.
Proof.
  induction es as [|e es [IH1 IH2]]; simpl; [auto|].
  destruct (JsString.truthy viewId && String.eqb (el_id e) viewId); simpl;
    [auto|now rewrite IH1, IH2].
Qed.

Lemma reveal_absent viewId es :
  (forall e, In e es -> el_id e <> viewId) -> UI.reveal viewId es = es.
Proof.
  induction es as [|e es IH]; intros H; simpl; [reflexivity|].
  assert (String.eqb (el_id e) viewId = false) as ->
    by (apply String.eqb_neq; apply H; now left).
  rewrite andb_false_r. f_equal. apply IH. intros e' He'. apply H. now right.
Qed.

Section PageProperties.

Variable LocalTZA : Z -> Z.
Variable hostDateParse : string -> Number.

Lemma applyCombinedFilter_page p :
  exists shown,
    renderGroupedImages LocalTZA hostDateParse
      (applyCombinedFilter (UI.filterState p) (UI.galleryData p)) = Normal shown /\
    UI.applyCombinedFilter LocalTZA hostDateParse p
    = Normal (UI.with_filtered_container shown p).
Proof.
  destruct (renderGroupedImages_total LocalTZA hostDateParse
              (applyCombinedFilter (UI.filterState p) (UI.galleryData p)))
    as [shown Hshown].
  exists shown. split; [exact Hshown|].
  unfold UI.applyCombinedFilter. now rewrite Hshown.
Qed.

(** X16. [showView] always completes; afterwards at most one view is
    visible, it carries the requested id, and the ids and classes [view]
    of the elements are as before; when no element carries the id, every
    view is hidden. *)
Theorem showView_one_view (viewId : string) (p : UI.Page) :
  exists p',
    UI.showView LocalTZA hostDateParse viewId p = Normal p' /\
    (forall i j e1 e2,
        nth_error (UI.elements p') i = Some e1 -> visible_view e1 ->
        nth_error (UI.elements p') j = Some e2 -> visible_view e2 ->
        i = j /\ el_id e1 = viewId /\ viewId <> "") /\
    map el_id (UI.elements p') = map el_id (UI.elements p) /\
    map el_is_view (UI.elements p') = map el_is_view (UI.elements p) /\
    ((forall e, In e (UI.elements p) -> el_id e <> viewId) ->
     forall e, In e (UI.elements p') -> ~ visible_view e).
Proof.
  set (es := UI.reveal viewId (UI.hide_views (UI.elements p))).
  assert (Forall (fun e => ~ visible_view e) (UI.hide_views (UI.elements p))) as Hhidden.
  { rewrite hide_views_eq. apply List.Forall_forall. intros e He.
    apply in_map_iff in He as (v & <- & _). unfold visible_view.
    destruct (el_is_view v) eqn:E; simpl; [intros [_ H]; discriminate|].
    rewrite E. intros [H _]. discriminate. }
  assert (exists p', UI.showView LocalTZA hostDateParse viewId p = Normal p' /\
                     UI.elements p' = es) as (p' & Hp' & Hes).
  { unfold UI.showView. fold es.
    destruct (applyCombinedFilter_page (UI.with_elements es p)) as (shown & _ & Hf).
    destruct (String.eqb viewId "filter-view").
    - rewrite Hf. cbn [bind].
      destruct (String.eqb viewId "gallery-view").
      + destruct (renderGroupedImages_total LocalTZA hostDateParse (UI.galleryData p))
          as [out Hout].
        cbn [UI.galleryData UI.with_filtered_container UI.with_elements]. rewrite Hout.
        eexists. split; reflexivity.
      + eexists. split; reflexivity.
    - cbn [bind]. destruct (String.eqb viewId "gallery-view").
      + destruct (renderGroupedImages_total LocalTZA hostDateParse (UI.galleryData p))
          as [out Hout].
        cbn [UI.galleryData UI.with_elements]. rewrite Hout.
        eexists. split; reflexivity.
      + eexists. split; reflexivity. }
  exists p'. split; [exact Hp'|]. rewrite Hes. unfold es.
  split; [now apply reveal_one_visible|].
  destruct (reveal_ids viewId (UI.hide_views (UI.elements p))) as [Hids Hviews].
  rewrite Hids, Hviews, hide_views_eq, !map_map.
  split; [apply map_ext; intros e; now destruct (el_is_view e)|].
  split; [apply map_ext; intros e; now destruct (el_is_view e) eqn:E|].
  intros Habsent e He. rewrite reveal_absent in He.
  - rewrite List.Forall_forall in Hhidden. rewrite <- hide_views_eq in He.
    now apply Hhidden.
  - intros e' He'. apply in_map_iff in He' as (v & <- & Hv).
    destruct (el_is_view v); simpl; now apply Habsent.
Qed.

(** X17. Entering the filter view shows in the filtered container what
    the filter engine yields for the current filter state; entering the
    gallery view shows the grouped view of the whole collection; any other
    view leaves both containers as they are. Nothing else on the page
    changes but the visibility of elements. *)
Theorem showView_refreshes (viewId : string) (p p' : UI.Page) :
  UI.showView LocalTZA hostDateParse viewId p = Normal p' ->
  (viewId = "filter-view" ->
     renderGroupedImages LocalTZA hostDateParse
       (applyCombinedFilter (UI.filterState p) (UI.galleryData p))
     = Normal (UI.filtered_image_container p') /\
     UI.image_container p' = UI.image_container p) /\
  (viewId = "gallery-view" ->
     renderGroupedImages LocalTZA hostDateParse (UI.galleryData p)
     = Normal (UI.image_container p') /\
     UI.filtered_image_container p' = UI.filtered_image_container p) /\
  (viewId <> "filter-view" -> viewId <> "gallery-view" ->
     UI.image_container p' = UI.image_container p /\
     UI.filtered_image_container p' = UI.filtered_image_container p) /\
  UI.galleryData p' = UI.galleryData p /\ UI.filterState p' = UI.filterState p /\
  UI.toggle_subject_btn p' = UI.toggle_subject_btn p /\
  UI.toggle_date_btn p' = UI.toggle_date_btn p /\
  UI.filter_status p' = UI.filter_status p.
Proof.
  unfold UI.showView.
  set (q := UI.with_elements (UI.reveal viewId (UI.hide_views (UI.elements p))) p).
  destruct (applyCombinedFilter_page q) as (shown & Hshown & Hf).
  destruct (renderGroupedImages_total LocalTZA hostDateParse (UI.galleryData p))
    as [out Hout].
  destruct (String.eqb viewId "filter-view") eqn:Ef;
    destruct (String.eqb viewId "gallery-view") eqn:Eg.
  - apply String.eqb_eq in Ef, Eg. congruence.
  - rewrite Hf. cbn [bind]. intros [= <-]. apply String.eqb_eq in Ef.
    apply String.eqb_neq in Eg.
    split; [intros _; split; [exact Hshown|reflexivity]|].
    split; [intros H; now elim Eg|].
    split; [intros H; now elim H|]. repeat split.
  - cbn [bind]. change (UI.galleryData q) with (UI.galleryData p).
    rewrite Hout. cbn [bind]. intros [= <-]. apply String.eqb_neq in Ef.
    apply String.eqb_eq in Eg.
    split; [intros H; now elim Ef|].
    split; [intros _; split; reflexivity|].
    split; [intros _ H; now elim H|]. repeat split.
  - cbn [bind]. intros [= <-]. apply String.eqb_neq in Ef, Eg.
    split; [intros H; now elim Ef|].
    split; [intros H; now elim Eg|]. repeat split.
Qed.

End PageProperties.

Lemma date_toggle_irrelevant st b data :
  no_field_selected st ->
  applyCombinedFilter (UI.set_toggle DateFilter b st) data = applyCombinedFilter st data.
Proof.
  intros (Hd & Hm & Hy). unfold applyCombinedFilter, dateStage, subjectStage.
  unfold getSelectedDateFilters, getSelectedSubject.
  destruct st as [ts td sv dv mv yv]. simpl in *. subst.
  destruct b, td; reflexivity.
Qed.

Lemma subject_toggle_irrelevant st b data :
  subject_filter st = "" ->
  applyCombinedFilter (UI.set_toggle SubjectFilter b st) data = applyCombinedFilter st data.
Proof.
  intros Hs. unfold applyCombinedFilter, dateStage, subjectStage.
  unfold getSelectedDateFilters, getSelectedSubject.
  destruct st as [ts td sv dv mv yv]. simpl in *. subst.
  destruct b, ts; reflexivity.
Qed.

Section FilterControls.

Variable LocalTZA : Z -> Z.
Variable hostDateParse : string -> Number.

(** X18. From any state of the page [resetAllFilters] completes and
    leaves both toggles off, the four selects empty, the controls, the
    buttons, the status line and the filtered container in step with that
    state; the filtered container shows the grouped view of the whole
    collection. The collection, the gallery container and the elements are
    untouched. *)
Theorem resetAllFilters_spec (p : UI.Page) :
  exists p',
    UI.resetAllFilters LocalTZA hostDateParse p = Normal p' /\
    UI.filterState p' = mkFilterState false false "" "" "" "" /\
    in_sync LocalTZA hostDateParse p' /\
    renderGroupedImages LocalTZA hostDateParse (UI.galleryData p)
      = Normal (UI.filtered_image_container p') /\
    UI.toggle_subject_btn p' = "Enable Subject Filter" /\
    UI.toggle_date_btn p' = "Enable Date Filter" /\
    UI.galleryData p' = UI.galleryData p /\
    UI.image_container p' = UI.image_container p /\
    UI.elements p' = UI.elements p.
Proof.
  destruct (renderGroupedImages_total LocalTZA hostDateParse (UI.galleryData p))
    as [out Hout].
  destruct p as [g st sc dc sb db fs ic fc es]. cbn [UI.galleryData] in Hout.
  destruct st as [ts td sv dv mv yv].
  destruct fs as [text|];
    cbv -[renderGroupedImages]; rewrite Hout;
    cbv -[renderGroupedImages]; rewrite Hout;
    cbv -[renderGroupedImages]; rewrite Hout;
    (eexists; split; [reflexivity|]; split; [reflexivity|];
     split; [|repeat split; exact Hout];
     cbv -[renderGroupedImages];
     repeat split; try exact Hout;
     intros text'; try discriminate; now intros [= <-]).
Qed.

(** X19. [toggleFilter] flips its toggle and nothing else of the filter
    state, and keeps the page in step: if the controls, the buttons, the
    status line and the filtered container agreed with the filter state
    before, they agree with the new one after. *)
Theorem toggleFilter_in_sync (filterType : FilterType) (p : UI.Page) :
  in_sync LocalTZA hostDateParse p ->
  exists p',
    UI.toggleFilter LocalTZA hostDateParse filterType p = Normal p' /\
    UI.filterState p'
      = UI.set_toggle filterType (negb (UI.toggle_of filterType (UI.filterState p)))
                      (UI.filterState p) /\
    in_sync LocalTZA hostDateParse p' /\
    UI.galleryData p' = UI.galleryData p.
Proof.
  intros (Hc1 & Hc2 & Hb1 & Hb2 & Hst & Hshown).
  destruct p as [g st sc dc sb db fs ic fc es].
  destruct st as [ts td sv dv mv yv]. cbn in Hc1, Hc2, Hb1, Hb2, Hst. subst.
  destruct (renderGroupedImages_total LocalTZA hostDateParse
              (applyCombinedFilter
                 (UI.set_toggle filterType
                    (negb (UI.toggle_of filterType (mkFilterState ts td sv dv mv yv)))
                    (mkFilterState ts td sv dv mv yv)) g))
    as [shown Hs].
  destruct filterType, ts, td, fs as [text|];
    cbv -[renderGroupedImages applyCombinedFilter] in Hs |- *; rewrite Hs;
    (eexists; split; [reflexivity|]; split; [reflexivity|]; split; [|reflexivity];
     cbv -[renderGroupedImages applyCombinedFilter];
     repeat split; try exact Hs;
     intros text'; try discriminate; now intros [= <-]).
Qed.

(** X20. Toggling the same filter twice brings a page that was in step
    back to exactly the state it had. *)
Theorem toggleFilter_twice (filterType : FilterType) (p p1 : UI.Page) :
  in_sync LocalTZA hostDateParse p ->
  UI.toggleFilter LocalTZA hostDateParse filterType p = Normal p1 ->
  UI.toggleFilter LocalTZA hostDateParse filterType p1 = Normal p.
Proof.
  intros (Hc1 & Hc2 & Hb1 & Hb2 & Hst & Hshown).
  destruct p as [g st sc dc sb db fs ic fc es].
  destruct st as [ts td sv dv mv yv].
  cbn in Hc1, Hc2, Hb1, Hb2, Hst, Hshown. subst.
  assert (forall text, fs = Some text ->
            fs = Some (UI.status_text (mkFilterState ts td sv dv mv yv))) as Hfs
    by (intros text E; now rewrite (Hst text E) in E).
  clear Hst.
  destruct (renderGroupedImages_total LocalTZA hostDateParse
              (applyCombinedFilter
                 (UI.set_toggle filterType
                    (negb (UI.toggle_of filterType (mkFilterState ts td sv dv mv yv)))
                    (mkFilterState ts td sv dv mv yv)) g))
    as [shown Hs].
  destruct filterType, ts, td, fs as [text|];
    try (specialize (Hfs text eq_refl); injection Hfs as ->);
    cbv -[renderGroupedImages applyCombinedFilter] in Hs, Hshown |- *;
    rewrite Hs; intros [= <-];
    cbv -[renderGroupedImages applyCombinedFilter];
    rewrite Hshown; reflexivity.
Qed.

(** X21. After [clearDate] the date toggle no longer matters for what is
    shown: toggling the date filter leaves the filtered container as it
    is; likewise the subject toggle after [clearSubjects]. *)
Theorem clear_disarms_toggle (p : UI.Page) :
  (exists p1,
     UI.clearDate LocalTZA hostDateParse p = Normal p1 /\
     no_field_selected (UI.filterState p1) /\
     forall p2, UI.toggleFilter LocalTZA hostDateParse DateFilter p1 = Normal p2 ->
                UI.filtered_image_container p2 = UI.filtered_image_container p1) /\
  (exists p1,
     UI.clearSubjects LocalTZA hostDateParse p = Normal p1 /\
     subject_filter (UI.filterState p1) = "" /\
     forall p2, UI.toggleFilter LocalTZA hostDateParse SubjectFilter p1 = Normal p2 ->
                UI.filtered_image_container p2 = UI.filtered_image_container p1).
Proof.
  destruct p as [g st sc dc sb db fs ic fc es].
  destruct st as [ts td sv dv mv yv].
  split.
  - destruct (renderGroupedImages_total LocalTZA hostDateParse
                (applyCombinedFilter (mkFilterState ts td sv "" "" "") g))
      as [shown Hs].
    assert (renderGroupedImages LocalTZA hostDateParse
              (applyCombinedFilter (mkFilterState ts (negb td) sv "" "" "") g)
            = Normal shown) as Hs'.
    { rewrite <- Hs. f_equal.
      apply (date_toggle_irrelevant (mkFilterState ts td sv "" "" "") (negb td) g).
      repeat split. }
    destruct td, fs as [text|];
      cbv -[renderGroupedImages applyCombinedFilter] in Hs, Hs' |- *; rewrite Hs;
      (eexists; split; [reflexivity|]; split; [repeat split|];
       intros p2; cbv -[renderGroupedImages applyCombinedFilter];
       rewrite Hs'; now intros [= <-]).
  - destruct (renderGroupedImages_total LocalTZA hostDateParse
                (applyCombinedFilter (mkFilterState ts td "" dv mv yv) g))
      as [shown Hs].
    assert (renderGroupedImages LocalTZA hostDateParse
              (applyCombinedFilter (mkFilterState (negb ts) td "" dv mv yv) g)
            = Normal shown) as Hs'.
    { rewrite <- Hs. f_equal.
      apply (subject_toggle_irrelevant (mkFilterState ts td "" dv mv yv) (negb ts) g).
      reflexivity. }
    destruct ts, fs as [text|];
      cbv -[renderGroupedImages applyCombinedFilter] in Hs, Hs' |- *; rewrite Hs;
      (eexists; split; [reflexivity|]; split; [reflexivity|];
       intros p2; cbv -[renderGroupedImages applyCombinedFilter];
       rewrite Hs'; now intros [= <-]).
Qed.

End FilterControls.

(** ** The further properties on the sample data *)


Lemma sampleData_records_stamped :
  forall r, In r (getFlattenedImages sampleData) ->
    exists t, stamp (fixedOffset 330) strictParse (flat_date r) = Some t.
Proof.
  intros r Hr. vm_compute in Hr.
  repeat (destruct Hr as [<- | Hr]; [eexists; vm_compute; reflexivity|]).
  destruct Hr.
Qed.

Lemma calculateStats_date_range_witness :
  exists s oldest newest,
    calculateStats (fixedOffset 330) strictParse (getFlattenedImages sampleData)
      = Normal s /\
    In (oldestDate s) (map flat_date (getFlattenedImages sampleData)) /\
    In (newestDate s) (map flat_date (getFlattenedImages sampleData)) /\
    stamp (fixedOffset 330) strictParse (oldestDate s) = Some oldest /\
    stamp (fixedOffset 330) strictParse (newestDate s) = Some newest /\
    forall r t, In r (getFlattenedImages sampleData) ->
      stamp (fixedOffset 330) strictParse (flat_date r) = Some t ->
      oldest <= t <= newest.
Proof.
  assert (getFlattenedImages sampleData <> []) as Hne by (vm_compute; discriminate).
  exact (calculateStats_date_range (fixedOffset 330) strictParse
           (getFlattenedImages sampleData) Hne sampleData_records_stamped).
Defined.

Lemma calculateStats_counts_witness :
  exists s,
    calculateStats (fixedOffset 330) strictParse (getFlattenedImages sampleData)
      = Normal s /\
    totalImages s = image_count sampleData /\
    uniqueDates s
      = length (nodup string_dec (map flat_date (getFlattenedImages sampleData))) /\
    uniqueSubjects s
      = length (nodup string_dec (map flat_subject (getFlattenedImages sampleData))) /\
    (uniqueDates s <= length sampleData)%nat /\
    (uniqueDates s <= totalImages s)%nat /\
    (uniqueSubjects s <= totalImages s)%nat.
Proof.
  eexists. split; [vm_compute; reflexivity|].
  apply (calculateStats_counts (fixedOffset 330) strictParse sampleData).
  vm_compute; reflexivity.
Defined.

Lemma calculateStats_single_date_witness :
  exists s,
    calculateStats (fixedOffset 330) strictParse undatedRecords = Normal s /\
    totalImages s = 2%nat /\
    uniqueDates s = 1%nat /\ oldestDate s = "soon" /\ newestDate s = "soon".
Proof.
  assert ("soon" <> "") as Hd by discriminate.
  assert (forall r, In r undatedRecords -> flat_date r = "soon") as Hall
    by (intros r [<- | [<- | []]]; reflexivity).
  assert (undatedRecords <> []) as Hne by discriminate.
  destruct (calculateStats_single_date (fixedOffset 330) strictParse
              undatedRecords "soon" Hd Hall) as (s & Hs & Ht & Hsome & _).
  exists s. split; [exact Hs|]. split; [exact Ht|]. exact (Hsome Hne).
Defined.


Lemma sampleData_numeric : dates_are_numeric sampleData.
Proof.
  intros d a b c piece [<- | [<- | []]] Hs; vm_compute in Hs;
    injection Hs as <- <- <-;
    intros [<- | [<- | [<- | []]]];
    (eexists; split; [vm_compute; reflexivity|lia]).
Qed.

Lemma options_in_numeric_order_witness :
  exists opts,
    populateFilterOptions (fixedOffset 330) strictParse firstUnitCompare
      noIntDifference sampleData = Normal opts /\
    offered (day_options opts) = ["10"; "21"] /\
    offered (month_options opts) = ["01"; "12"] /\
    offered (year_options opts) = ["2010"; "2009"] /\
    StronglySorted (fun a b => int_value a <= int_value b) (offered (day_options opts)) /\
    StronglySorted (fun a b => int_value a <= int_value b) (offered (month_options opts)) /\
    StronglySorted (fun a b => int_value b <= int_value a) (offered (year_options opts)).
Proof.
  eexists. split; [vm_compute; reflexivity|]. do 3 (split; [reflexivity|]).
  apply (options_in_numeric_order (fixedOffset 330) strictParse
           firstUnitCompare noIntDifference sampleData _ sampleData_numeric).
  vm_compute; reflexivity.
Defined.

Lemma showView_refreshes_witness :
  exists p',
    UI.showView (fixedOffset 330) strictParse "gallery-view" samplePage = Normal p' /\
    renderGroupedImages (fixedOffset 330) strictParse sampleData
      = Normal (UI.image_container p') /\
    UI.filtered_image_container p' = UI.filtered_image_container samplePage /\
    UI.filterState p' = UI.filterState samplePage /\
    map el_hidden (UI.elements p') = [true; false; true; false].
Proof.
  eexists. split; [vm_compute; reflexivity|].
  match goal with
  | |- _ = Normal (UI.image_container ?p') /\ _ =>
      assert (UI.showView (fixedOffset 330) strictParse "gallery-view" samplePage
              = Normal p') as Hp by (vm_compute; reflexivity);
      destruct (showView_refreshes (fixedOffset 330) strictParse
                  "gallery-view" samplePage p' Hp)
        as (_ & Hgallery & _ & _ & Hstate & _)
  end.
  destruct (Hgallery eq_refl) as [Hshown Hkept].
  split; [exact Hshown|]. split; [exact Hkept|]. split; [exact Hstate|].
  reflexivity.
Defined.

Lemma samplePage_in_sync : in_sync (fixedOffset 330) strictParse samplePage.
Proof.
  repeat split. now intros text [= <-].
Qed.

Lemma toggleFilter_in_sync_witness :
  exists p',
    UI.toggleFilter (fixedOffset 330) strictParse SubjectFilter samplePage
      = Normal p' /\
    UI.filterState p' = mkFilterState true false "" "" "" "" /\
    in_sync (fixedOffset 330) strictParse p' /\
    UI.galleryData p' = sampleData.
Proof.
  exact (toggleFilter_in_sync (fixedOffset 330) strictParse SubjectFilter
           samplePage samplePage_in_sync).
Defined.

Lemma toggleFilter_twice_witness :
  exists p1,
    UI.toggleFilter (fixedOffset 330) strictParse DateFilter samplePage
      = Normal p1 /\
    UI.toggle_date_btn p1 = "Disable Date Filter" /\
    UI.toggleFilter (fixedOffset 330) strictParse DateFilter p1 = Normal samplePage.
Proof.
  eexists. split; [vm_compute; reflexivity|]. split; [reflexivity|].
  apply (toggleFilter_twice (fixedOffset 330) strictParse DateFilter samplePage).
  - exact samplePage_in_sync.
  - vm_compute; reflexivity.
Defined.

(** ** The gallery view and the store *)

Section GalleryStore.

Variable LocalTZA : Z -> Z.
Variable hostDateParse : string -> Number.

(** X22. [renderGroupedImages] called on [galleryData] itself, as
    [showView] and [fetchData] call it, sorts an array of its own: every
    object of the store stays as it was, [galleryData] still refers to the
    collection in its order, the view is that of the collection, and a
    second call shows the same view. *)
Theorem renderGroupedImages_keeps_collection
        (h : heap) (galleryData : loc) (data : NoteCollection) :
  is_collection h galleryData data ->
  exists shown h',
    StoreOps.renderGroupedImages LocalTZA hostDateParse galleryData h
      = Normal (shown, h') /\
    (forall l o, h !! l = Some o -> h' !! l = Some o) /\
    is_collection h' galleryData data /\
    renderGroupedImages LocalTZA hostDateParse data = Normal shown /\
    exists h'',
      StoreOps.renderGroupedImages LocalTZA hostDateParse galleryData h'
        = Normal (shown, h'') /\
      is_collection h'' galleryData data.
Proof.
  intros Hc.
  destruct (renderGroupedImages_store LocalTZA hostDateParse h galleryData data Hc)
    as (shown & h' & Hrun & Hp & Hshown).
  pose proof (StoreFacts.is_collection_mono h h' galleryData data Hp Hc) as Hc'.
  destruct (renderGroupedImages_store LocalTZA hostDateParse h' galleryData data Hc')
    as (shown' & h'' & Hrun' & Hp' & Hshown').
  assert (shown' = shown) as -> by congruence.
  exists shown, h'. split; [exact Hrun|]. split; [exact Hp|].
  split; [exact Hc'|]. split; [exact Hshown|].
  exists h''. split; [exact Hrun'|].
  exact (StoreFacts.is_collection_mono h' h'' galleryData data Hp' Hc').
Qed.

End GalleryStore.

Lemma pairStore_collection : is_collection pairStore 5%positive pairData.
Proof.
  exists [2%positive; 4%positive]. split; [reflexivity|].
  constructor; [|constructor; [|constructor]].
  - exists 1%positive. split; [reflexivity|].
    exists []. split; [reflexivity|constructor].
  - exists 3%positive. split; [reflexivity|].
    exists []. split; [reflexivity|constructor].
Qed.

Lemma renderGroupedImages_keeps_collection_witness :
  exists shown h',
    StoreOps.renderGroupedImages (fixedOffset 330) strictParse 5%positive pairStore
      = Normal (shown, h') /\
    h' !! 5%positive = Some (RefArray [2%positive; 4%positive]) /\
    is_collection h' 5%positive pairData /\
    map date_heading shown = ["10-01-2010"; "21-12-2009"].
Proof.
  destruct (renderGroupedImages_keeps_collection (fixedOffset 330) strictParse
              pairStore 5%positive pairData pairStore_collection)
    as (shown & h' & Hrun & Hframe & Hc & Hpure & _).
  exists shown, h'. split; [exact Hrun|].
  split; [apply Hframe; reflexivity|]. split; [exact Hc|].
  vm_compute in Hpure. injection Hpure as <-. reflexivity.
Defined.
